(** * hpc_interact: the Step / Scripter script builder

    A shallow embedding of [src/hpc_interact/hpc_interact.py].

    Conventions of the embedding.
    - A Python [str] whose code points are all below 256 is a Rocq [string],
      one [ascii] per code point; [strip], [lower], [isnumeric] and [repr]
      follow Python on that range.
    - A dynamically typed argument is a [pyval]; [truthy] is Python's truth
      test and [py_str] is [str(x)], which is also what an f-string
      placeholder renders.
    - A path is a pure POSIX path, as [pathlib] builds it on Linux.
    - A method of [Scripter] is a computation in the monad [M]: it threads the
      object ([Scripter]) and the outside world ([World]: file system, home
      directory, working directory, terminal input, trace of effects) and
      either returns a value or raises an exception.  The state reached at the
      point of the raise is kept, as it is in Python.
    - The file system maps the text of a path to a file or a directory; it has
      no symbolic links and no permissions, and two texts name two entries.
    - The two recursive methods take the depth of calls they may still nest;
      at depth zero they raise [RecursionError]. *)

From Stdlib Require Import ZArith Ascii String List Bool Lia DecimalString.
From stdpp Require Import base option gmap strings.

Import ListNotations.
Local Open Scope string_scope.
Local Open Scope Z_scope.

(** ** Python string primitives *)

Module PyString.

Definition code (c : ascii) : N := N_of_ascii c.

Definition in_range (lo hi : N) (c : ascii) : bool :=
  (N.leb lo (code c) && N.leb (code c) hi)%bool.

(** [str.isspace] on one code point below 256. *)
Definition is_space (c : ascii) : bool :=
  (in_range 9 13 c || in_range 28 32 c
   || N.eqb (code c) 133 || N.eqb (code c) 160)%bool.

Fixpoint lstrip (s : string) : string :=
  match s with
  | EmptyString => EmptyString
  | String c r => if is_space c then lstrip r else s
  end.

Fixpoint rstrip (s : string) : string :=
  match s with
  | EmptyString => EmptyString
  | String c r =>
      match rstrip r with
      | EmptyString => if is_space c then EmptyString else String c EmptyString
      | r' => String c r'
      end
  end.

(** [s.strip()] *)
Definition strip (s : string) : string := rstrip (lstrip s).

(** [s.strip("")]: the set of characters to strip is empty. *)
Definition strip_none (s : string) : string := s.

(** [str.lower] on one code point below 256: A-Z and the Latin-1 capitals
    (0xC0-0xDE without the multiplication sign 0xD7) move up by 32. *)
Definition lower_char (c : ascii) : ascii :=
  if (in_range 65 90 c
      || (in_range 192 222 c && negb (N.eqb (code c) 215)))%bool
  then ascii_of_N (code c + 32) else c.

Fixpoint lower (s : string) : string :=
  match s with
  | EmptyString => EmptyString
  | String c r => String (lower_char c) (lower r)
  end.

(** [sub in s] *)
Fixpoint contains (sub s : string) : bool :=
  (String.prefix sub s
   || match s with
      | EmptyString => false
      | String _ r => contains sub r
      end)%bool.

(** [s.split(sep)] for a one-character separator. *)
Fixpoint split (sep : ascii) (s : string) : list string :=
  match s with
  | EmptyString => [EmptyString]
  | String c r =>
      match split sep r with
      | h :: t => if Ascii.eqb c sep then EmptyString :: h :: t
                  else String c h :: t
      | [] => [String c EmptyString]
      end
  end.

(** [l[-1]] on a list of strings known to be non-empty. *)
Definition last_item (l : list string) : string := List.last l EmptyString.

(** [s.replace(old, new)] for a non-empty [old]: scan from the left, replace
    each occurrence and resume after it.  [skip] counts the characters of an
    occurrence already replaced that are still to be passed over. *)
Fixpoint replace_from (old new : string) (skip : nat) (s : string) : string :=
  match s with
  | EmptyString => EmptyString
  | String c r =>
      match skip with
      | S k => replace_from old new k r
      | O =>
          if String.prefix old s
          then new ++ replace_from old new (Nat.pred (String.length old)) r
          else String c (replace_from old new O r)
      end
  end.

Definition replace (old new s : string) : string := replace_from old new O s.

(** [str.isnumeric] on one code point below 256: the decimal digits, the
    superscripts 2, 3, 1 and the vulgar fractions. *)
Definition is_numeric_char (c : ascii) : bool :=
  (in_range 48 57 c || in_range 178 179 c || N.eqb (code c) 185
   || in_range 188 190 c)%bool.

Fixpoint all_numeric (s : string) : bool :=
  match s with
  | EmptyString => true
  | String c r => (is_numeric_char c && all_numeric r)%bool
  end.

(** [s.isnumeric()]: false on the empty string. *)
Definition isnumeric (s : string) : bool :=
  match s with
  | EmptyString => false
  | _ => all_numeric s
  end.

(** [sep.join(l)] *)
Definition join (sep : string) (l : list string) : string :=
  String.concat sep l.

(** [str(n)] for an [int]. *)
Definition of_Z (z : Z) : string := NilZero.string_of_int (Z.to_int z).

(** [s[0]]: [None] stands for the [IndexError] of the empty string. *)
Definition first_char (s : string) : option ascii :=
  match s with
  | EmptyString => None
  | String c _ => Some c
  end.

Definition hex_digit (n : N) : ascii :=
  if N.ltb n 10 then ascii_of_N (48 + n) else ascii_of_N (87 + n).

(** [str.isprintable] on one code point below 256. *)
Definition is_printable (c : ascii) : bool :=
  (in_range 32 126 c || (in_range 161 255 c && negb (N.eqb (code c) 173)))%bool.

Definition repr_char (quote : ascii) (c : ascii) : string :=
  if (Ascii.eqb c quote || Ascii.eqb c "\")%bool then String "\" (String c EmptyString)
  else if N.eqb (code c) 9 then "\t"
  else if N.eqb (code c) 10 then "\n"
  else if N.eqb (code c) 13 then "\r"
  else if is_printable c then String c EmptyString
  else String "\" (String "x" (String (hex_digit (code c / 16))
                                (String (hex_digit (code c mod 16)) EmptyString))).

Fixpoint repr_body (quote : ascii) (s : string) : string :=
  match s with
  | EmptyString => EmptyString
  | String c r => repr_char quote c ++ repr_body quote r
  end.

Definition squote : ascii := "'"%char.
Definition dquote : ascii := ascii_of_N 34.
Definition newline : ascii := ascii_of_N 10.

(** [repr(s)]: single quotes, unless the text has a single quote and no
    double quote. *)
Definition repr (s : string) : string :=
  let q := if (contains (String squote EmptyString) s
               && negb (contains (String dquote EmptyString) s))%bool
           then dquote else squote in
  String q (repr_body q s ++ String q EmptyString).

Definition nl : string := String newline EmptyString.
Definition dq : string := String dquote EmptyString.

End PyString.

(** ** pathlib: pure POSIX paths *)

Module Pathlib.
Import PyString.

(** A path is its anchor (empty, one slash or two slashes) and its
    components. *)
Record Path := mkPath { anchor : string; names : list string }.

Global Instance Path_eq_dec : EqDecision Path.
Proof. solve_decision. Defined.

Definition parse_anchor (s : string) : string :=
  match s with
  | String "/" (String "/" (String "/" _)) => "/"
  | String "/" (String "/" _) => "//"
  | String "/" _ => "/"
  | _ => ""
  end.

Definition keep_part (p : string) : bool :=
  (negb (String.eqb p "") && negb (String.eqb p "."))%bool.

(** [Path(s)] for a [str]: empty components and single dots are dropped. *)
Definition of_str (s : string) : Path :=
  {| anchor := parse_anchor s;
     names := List.filter keep_part (split "/"%char s) |}.

(** [str(p)] *)
Definition to_str (p : Path) : string :=
  match anchor p, names p with
  | EmptyString, [] => "."
  | a, ns => a ++ join "/" ns
  end.

(** [p.parents], nearest ancestor first. *)
Definition parents (p : Path) : list Path :=
  List.map (fun k => {| anchor := anchor p; names := firstn k (names p) |})
           (List.rev (List.seq 0 (List.length (names p)))).

(** [p.parent]; a path with no component is its own parent. *)
Definition parent (p : Path) : Path :=
  {| anchor := anchor p; names := List.removelast (names p) |}.

(** [p.name] *)
Definition name (p : Path) : string := List.last (names p) EmptyString.

(** [p / q] *)
Definition joinpath (p q : Path) : Path :=
  if String.eqb (anchor q) "" then
    {| anchor := anchor p; names := (names p ++ names q)%list |}
  else q.

Definition collapse (ns : list string) : list string :=
  List.fold_left
    (fun acc n => if String.eqb n ".." then List.removelast acc else (acc ++ [n])%list)
    ns [].

(** [p.resolve()] from the working directory [cwd], on a file system without
    symbolic links. *)
Definition resolve (cwd : string) (p : Path) : Path :=
  let q := if String.eqb (anchor p) "" then joinpath (of_str cwd) p else p in
  {| anchor := anchor q; names := collapse (names q) |}.

(** [Path("~")] *)
Definition tilde : Path := of_str "~".

(** [q in l] for a list of paths. *)
Definition mem (q : Path) (l : list Path) : bool :=
  List.existsb (fun x => bool_decide (q = x)) l.

End Pathlib.

(** ** Dynamically typed values *)

Export Pathlib(Path, mkPath, anchor, names).

Inductive pyval :=
| PNone
| PBool (b : bool)
| PInt (z : Z)
| PStr (s : string)
| PPath (p : Path).

(** [bool(x)] *)
Definition truthy (x : pyval) : bool :=
  match x with
  | PNone => false
  | PBool b => b
  | PInt z => negb (Z.eqb z 0)
  | PStr s => negb (String.eqb s "")
  | PPath _ => true
  end.

(** [str(x)], also the rendering of [{x}] in an f-string. *)
Definition py_str (x : pyval) : string :=
  match x with
  | PNone => "None"
  | PBool true => "True"
  | PBool false => "False"
  | PInt z => PyString.of_Z z
  | PStr s => s
  | PPath p => Pathlib.to_str p
  end.

(** [x != s] for a [str] [s]: a value of another type differs from it. *)
Definition ne_str (x : pyval) (s : string) : bool :=
  match x with
  | PStr t => negb (String.eqb t s)
  | _ => true
  end.

(** ** Exceptions, the outside world and the method monad *)

Inductive oserror :=
| FileNotFoundError
| FileExistsError
| NotADirectoryError
| IsADirectoryError.

Inductive exn :=
| Exception (args : list pyval)
| TypeError (msg : string)
| UnboundLocalError (var : string)
| OSError (kind : oserror) (path : string)
| EOFError
| IndexError
| AttributeError (attr : string)
| RecursionError
| SystemExit (status : Z).

Inductive node :=
| File (content : string)
| Dir.

Inductive event :=
| Print (text : string)
| Input (prompt : string)
| Getpass (prompt : string)
| System (command : string).

(** The world outside the object: the file system (keyed by the text of a
    path), the home directory, the working directory, the lines still to be
    typed at the terminal, and the effects so far, oldest first. *)
Record World := mkWorld {
  fs : gmap string node;
  home : string;
  workdir : string;
  stdin : list string;
  trace : list event
}.

Inductive result (A : Type) :=
| Ok (a : A)
| Raise (e : exn).
Arguments Ok {A} a.
Arguments Raise {A} e.

(** ** Step *)

Record Step := mkStep {
  expectation : string;
  action : string;
  step_mode : string;
  step_quote : string
}.

Module StepM.
Import PyString.

(** [Step.__init__(self, expect, input, mode, quote)] *)
Definition init (expect input : pyval) (mode quote : string) : Step :=
  {| expectation :=
       if String.eqb quote dq
       then "expect " ++ dq ++ py_str expect ++ dq
       else "expect \'" ++ py_str expect ++ "\'";
     action := "send " ++ dq ++ py_str input ++ nl ++ dq;
     step_mode := mode;
     step_quote := quote |}.

(** [Step(expect=..., input=...)] with the default mode and quote. *)
Definition make (expect input : pyval) : Step := init expect input "sftp" dq.

(** [Step.__repr__(self, sep)] *)
Definition repr (sep : string) (st : Step) : string :=
  expectation st ++ sep ++ action st ++ sep.

End StepM.

(** ** Scripter: the object and the method monad *)

(** The attributes of a [Scripter].  [quote] is assigned only outside sftp
    mode; [None] stands for the attribute being absent. *)
Record Scripter := mkScripter {
  username : pyval;
  password : pyval;
  group : pyval;
  site : pyval;
  config : option Path;
  mode : string;
  expect : pyval;
  quote : option string;
  open : string;
  entry : string;
  close : string;
  actions : list Step;
  pw_steps : list Step
}.

Definition M (A : Type) : Type :=
  Scripter -> World -> result A * Scripter * World.

Definition ret {A} (a : A) : M A := fun s w => (Ok a, s, w).

Definition bind {A B} (m : M A) (k : A -> M B) : M B :=
  fun s w =>
    match m s w with
    | (Ok a, s', w') => k a s' w'
    | (Raise e, s', w') => (Raise e, s', w')
    end.

Definition raise {A} (e : exn) : M A := fun s w => (Raise e, s, w).

Declare Scope method_scope.
Delimit Scope method_scope with method.
Notation "x <- m ;; k" := (bind m (fun x => k))
  (at level 100, m at next level, right associativity) : method_scope.
Notation "m ;; k" := (bind m (fun _ => k))
  (at level 100, right associativity) : method_scope.
Local Open Scope method_scope.

(** Reading and assigning attributes of [self]. *)
Definition get_self : M Scripter := fun s w => (Ok s, s, w).
Definition set_self (f : Scripter -> Scripter) : M unit := fun s w => (Ok tt, f s, w).
Definition get_world : M World := fun s w => (Ok w, s, w).
Definition set_world (f : World -> World) : M unit := fun s w => (Ok tt, s, f w).

Definition when (b : bool) (m : M unit) : M unit := if b then m else ret tt.

Fixpoint for_each {A} (l : list A) (body : A -> M unit) : M unit :=
  match l with
  | [] => ret tt
  | x :: r => body x ;; for_each r body
  end.

Definition set_username v s :=
  mkScripter v (password s) (group s) (site s) (config s)
             (mode s) (expect s) (quote s) (open s)
             (entry s) (close s) (actions s) (pw_steps s).
Definition set_password v s :=
  mkScripter (username s) v (group s) (site s) (config s)
             (mode s) (expect s) (quote s) (open s)
             (entry s) (close s) (actions s) (pw_steps s).
Definition set_group v s :=
  mkScripter (username s) (password s) v (site s) (config s)
             (mode s) (expect s) (quote s) (open s)
             (entry s) (close s) (actions s) (pw_steps s).
Definition set_site v s :=
  mkScripter (username s) (password s) (group s) v (config s)
             (mode s) (expect s) (quote s) (open s)
             (entry s) (close s) (actions s) (pw_steps s).
Definition set_config v s :=
  mkScripter (username s) (password s) (group s) (site s) v
             (mode s) (expect s) (quote s) (open s)
             (entry s) (close s) (actions s) (pw_steps s).
Definition set_mode v s :=
  mkScripter (username s) (password s) (group s) (site s) (config s)
             v (expect s) (quote s) (open s)
             (entry s) (close s) (actions s) (pw_steps s).
Definition set_expect v s :=
  mkScripter (username s) (password s) (group s) (site s) (config s)
             (mode s) v (quote s) (open s)
             (entry s) (close s) (actions s) (pw_steps s).
Definition set_quote v s :=
  mkScripter (username s) (password s) (group s) (site s) (config s)
             (mode s) (expect s) v (open s)
             (entry s) (close s) (actions s) (pw_steps s).
Definition set_open v s :=
  mkScripter (username s) (password s) (group s) (site s) (config s)
             (mode s) (expect s) (quote s) v
             (entry s) (close s) (actions s) (pw_steps s).
Definition set_entry v s :=
  mkScripter (username s) (password s) (group s) (site s) (config s)
             (mode s) (expect s) (quote s) (open s)
             v (close s) (actions s) (pw_steps s).
Definition set_close v s :=
  mkScripter (username s) (password s) (group s) (site s) (config s)
             (mode s) (expect s) (quote s) (open s)
             (entry s) v (actions s) (pw_steps s).
Definition set_actions v s :=
  mkScripter (username s) (password s) (group s) (site s) (config s)
             (mode s) (expect s) (quote s) (open s)
             (entry s) (close s) v (pw_steps s).
Definition set_pw_steps v s :=
  mkScripter (username s) (password s) (group s) (site s) (config s)
             (mode s) (expect s) (quote s) (open s)
             (entry s) (close s) (actions s) v.

(** ** Effects on the world *)

Module Sys.
Import PyString.

Definition log (e : event) (w : World) : World :=
  mkWorld (fs w) (home w) (workdir w) (stdin w) (trace w ++ [e])%list.

Definition set_fs (m : gmap string node) (w : World) : World :=
  mkWorld m (home w) (workdir w) (stdin w) (trace w).

(** [print(text)] *)
Definition print (text : string) : M unit := set_world (log (Print text)).

(** Reading one line from the terminal: the prompt is recorded, and the
    end of the input raises [EOFError]. *)
Definition read_line (e : event) : M string :=
  fun s w =>
    match stdin w with
    | [] => (Raise EOFError, s, log e w)
    | l :: r =>
        (Ok l, s, mkWorld (fs w) (home w) (workdir w) r (trace w ++ [e])%list)
    end.

(** [input(prompt)] *)
Definition input (prompt : string) : M string := read_line (Input prompt).

(** [getpass(prompt)] *)
Definition getpass (prompt : string) : M string := read_line (Getpass prompt).

(** [os.system(command)] *)
Definition system (command : string) : M unit := set_world (log (System command)).

(** [exit(status)] *)
Definition exit (status : Z) : M unit := raise (SystemExit status).

(** [Path.home()] *)
Definition path_home : M Path :=
  w <- get_world ;; ret (Pathlib.of_str (home w)).

(** A path without components ([.] or the root) is a directory that always
    exists. *)
Definition lookup_path (p : Path) (w : World) : option node :=
  match names p with
  | [] => Some Dir
  | _ => fs w !! Pathlib.to_str p
  end.

(** [p.exists()] *)
Definition exists_ (p : Path) : M bool :=
  w <- get_world ;; ret (bool_decide (is_Some (lookup_path p w))).

(** [p.is_dir()] *)
Definition is_dir (p : Path) (w : World) : bool :=
  match lookup_path p w with
  | Some Dir => true
  | _ => false
  end.

(** Whether [p] is a regular file. *)
Definition is_file (p : Path) (w : World) : bool :=
  match lookup_path p w with
  | Some (File _) => true
  | _ => false
  end.

(** The error of the system for a path that cannot be reached: a regular
    file among its ancestors makes it [ENOTDIR], otherwise it is [ENOENT]. *)
Definition unreachable (p : Path) (w : World) : exn :=
  OSError (if List.existsb (fun q => is_file q w) (Pathlib.parents p)
           then NotADirectoryError else FileNotFoundError)
          (Pathlib.to_str p).

(** [os.mkdir(p)] *)
Definition os_mkdir (p : Path) : M unit :=
  w <- get_world ;;
  match lookup_path p w with
  | Some _ => raise (OSError FileExistsError (Pathlib.to_str p))
  | None =>
      match lookup_path (Pathlib.parent p) w with
      | None => raise (unreachable p w)
      | Some (File _) => raise (OSError NotADirectoryError (Pathlib.to_str p))
      | Some Dir => set_world (fun w => set_fs (<[Pathlib.to_str p := Dir]> (fs w)) w)
      end
  end.

(** [p.mkdir(parents=False, exist_ok=True)]: a missing parent is an error,
    an existing directory is accepted. *)
Definition mkdir_exist_ok (p : Path) : M unit :=
  fun s w =>
    match os_mkdir p s w with
    | (Raise (OSError FileNotFoundError f), s', w') =>
        (Raise (OSError FileNotFoundError f), s', w')
    | (Raise (OSError k f), s', w') =>
        if is_dir p w' then (Ok tt, s', w') else (Raise (OSError k f), s', w')
    | r => r
    end.

(** [Path(anchor, rev(rnames)).mkdir(parents=True, exist_ok=True)], by
    recursion on the components from the last one: make the directory;
    when its parent is missing make the parent first and retry; an
    existing directory is accepted. *)
Fixpoint mkdir_parents (a : string) (rnames : list string) : M unit :=
  let p := mkPath a (List.rev rnames) in
  fun s w =>
    match os_mkdir p s w with
    | (Raise (OSError FileNotFoundError f), s', w') =>
        match rnames with
        | [] => (Raise (OSError FileNotFoundError f), s', w')
        | _ :: rparent => (mkdir_parents a rparent ;; mkdir_exist_ok p) s' w'
        end
    | (Raise (OSError k f), s', w') =>
        if is_dir p w' then (Ok tt, s', w') else (Raise (OSError k f), s', w')
    | r => r
    end.

Definition mkdir (p : Path) : M unit :=
  mkdir_parents (anchor p) (List.rev (names p)).

(** [p.open()] and reading the whole text. *)
Definition read_text (p : Path) : M string :=
  w <- get_world ;;
  match lookup_path p w with
  | Some (File c) => ret c
  | Some Dir => raise (OSError IsADirectoryError (Pathlib.to_str p))
  | None => raise (unreachable p w)
  end.

(** [p.open("w")]: the file is created or truncated. *)
Definition open_w (p : Path) : M unit :=
  w <- get_world ;;
  match lookup_path p w with
  | Some Dir => raise (OSError IsADirectoryError (Pathlib.to_str p))
  | _ =>
      match lookup_path (Pathlib.parent p) w with
      | None => raise (unreachable p w)
      | Some (File _) => raise (OSError NotADirectoryError (Pathlib.to_str p))
      | Some Dir => set_world (fun w => set_fs (<[Pathlib.to_str p := File ""]> (fs w)) w)
      end
  end.

(** [out.write(text)] on the file opened at [p]. *)
Definition write (p : Path) (text : string) : M unit :=
  set_world (fun w =>
    match fs w !! Pathlib.to_str p with
    | Some (File c) => set_fs (<[Pathlib.to_str p := File (c ++ text)]> (fs w)) w
    | _ => w
    end).

(** The lines of a text file as iteration over the open file yields them:
    [\r\n] and [\r] read as [\n], and each line keeps its end. *)
Fixpoint lines_from (cur : string) (s : string) : list string :=
  match s with
  | EmptyString => if String.eqb cur "" then [] else [cur]
  | String c r =>
      if N.eqb (code c) 10 then (cur ++ nl) :: lines_from "" r
      else if N.eqb (code c) 13 then
        match r with
        | String c' r' =>
            if N.eqb (code c') 10 then (cur ++ nl) :: lines_from "" r'
            else (cur ++ nl) :: lines_from "" r
        | EmptyString => [cur ++ nl]
        end
      else lines_from (cur ++ String c "") r
  end.

Definition lines (s : string) : list string := lines_from "" s.

End Sys.

(** ** Scripter: the methods *)

Import PyString.

(** [Scripter.add_step(self, input, expect=None)] *)
Definition add_step (input : pyval) (expect_arg : pyval) : M unit :=
  s <- get_self ;;
  let e := if negb (truthy expect_arg) then expect s else expect_arg in
  let step := StepM.make e input in
  set_self (fun s => set_actions (actions s ++ [step])%list s).

(** [Scripter.basic_step(self, *commands, expect=None)] *)
Definition basic_step (commands : list pyval) (expect_arg : pyval) : M unit :=
  match commands with
  | [] => ret tt
  | _ =>
      let command_str := join " " (List.map py_str (List.filter truthy commands)) in
      add_step (PStr command_str) expect_arg
  end.

(** [Scripter.is_empty(self)] *)
Definition is_empty : M bool :=
  s <- get_self ;;
  ret (match actions s with [] => false | _ :: _ => true end).

(** [Scripter.get_steps(self, step_list=[], sep)] *)
Definition get_steps (step_list : list Step) (sep : string) : M string :=
  s <- get_self ;;
  let step_list := match step_list with [] => actions s | _ => step_list end in
  ret (join "" (List.map (StepM.repr sep) step_list)).

(** [Scripter.__full_command(self)] *)
Definition full_command : M string :=
  s <- get_self ;;
  pw <- get_steps (pw_steps s) nl ;;
  body <- get_steps [] nl ;;
  ret (open s ++ entry s ++ pw ++ body ++ close s).

(** The text one step contributes to [get_actions]. *)
Definition action_text (st : Step) : string :=
  replace dq "" (replace ("send " ++ dq) "" (strip_none (action st))).

(** [Scripter.get_actions(self)]: the values the generator yields, in order. *)
Definition get_actions : M (list string) :=
  s <- get_self ;;
  ret (List.map action_text (actions s)).

(** [enumerate(l)] *)
Fixpoint enumerate_from {A} (i : Z) (l : list A) : list (Z * A) :=
  match l with
  | [] => []
  | x :: r => (i, x) :: enumerate_from (i + 1) r
  end.

Definition enumerate {A} (l : list A) : list (Z * A) := enumerate_from 0 l.

(** [str] of a pair of an [int] and a [str], as [print] shows it. *)
Definition str_of_pair (p : Z * string) : string :=
  "(" ++ of_Z (fst p) ++ ", " ++ repr (snd p) ++ ")".

(** [Scripter.preview_steps(self)] *)
Definition preview_steps : M unit :=
  Sys.print (nl ++ "Command preview:") ;;
  acts <- get_actions ;;
  for_each (enumerate acts) (fun a => Sys.print (str_of_pair a)).

(** [Scripter.clear(self)] *)
Definition clear : M unit := set_self (set_actions []).

(** [Scripter.run(self)]: in a mode other than sftp and ssh the name [end]
    is not bound when it is read. *)
Definition run : M unit :=
  s <- get_self ;;
  end_ <- (if String.eqb (mode s) "sftp" then ret "quit"
           else if String.eqb (mode s) "ssh" then ret "exit"
           else raise (UnboundLocalError "end")) ;;
  add_step (PStr end_) PNone ;;
  cmd <- full_command ;;
  Sys.system cmd.

(** [Scripter.pwd(self)] *)
Definition pwd : M unit := add_step (PStr "pwd") PNone.

(** [Scripter.ls(self, dir=None)] *)
Definition ls (dir : pyval) : M unit :=
  let dir := if negb (truthy dir) then PStr "." else dir in
  basic_step [PStr "ls -la"; dir] PNone.

(** [Scripter.cwd(self, dir, local=False)] *)
Definition cwd (dir : pyval) (local : bool) : M unit :=
  s <- get_self ;;
  cd <- (if local then
           if String.eqb (mode s) "sftp" then ret "lcd"
           else raise (Exception [PStr "lcd only works with sftp"])
         else ret "cd") ;;
  basic_step [PStr cd; dir] PNone.

(** The [files] argument of [set_permissions]: one name or a list. *)
Inductive files_arg :=
| OneFile (f : string)
| FileList (l : list pyval).

Definition invalid_input (x n : string) : string :=
  "Invalid input (" ++ x ++ ", type:<class 'str'>) for " ++ n
  ++ ". Numeric values must be used over sftp.".

(** The body of the validation loop of [set_permissions] for one item. *)
Definition check_numeric (item : string * pyval) : M unit :=
  let n := fst item in
  let x := match snd item with PInt z => PStr (of_Z z) | x => x end in
  match x with
  | PStr x =>
      if (negb (isnumeric x) && negb (String.eqb x ""))%bool
      then raise (TypeError (invalid_input x n))
      else ret tt
  | _ => ret tt
  end.

(** [Scripter.set_permissions(self, files, group=None, octal)] *)
Definition set_permissions (files : files_arg) (group_arg octal : pyval) : M unit :=
  let files := match files with OneFile f => [PStr f] | FileList l => l end in
  s <- get_self ;;
  when (negb (truthy (group s))
        && ne_str group_arg "")%bool
       (set_self (set_group group_arg)) ;;
  s <- get_self ;;
  when (String.eqb (mode s) "sftp")
       (for_each [("group", group s); ("octal", octal)] check_numeric) ;;
  for_each files (fun file =>
    basic_step [PStr "chmod"; octal; file] PNone ;;
    s <- get_self ;;
    when (truthy (group s)) (basic_step [PStr "chgrp"; group s; file] PNone)).

(** [Scripter.transfer(self, trans_type, file, outdir, local, new_name, options)] *)
Definition transfer (trans_type : string) (file outdir : pyval) (local : bool)
  (new_name : pyval) (options : list string) : M unit :=
  s <- get_self ;;
  when (negb (String.eqb (mode s) "sftp"))
       (raise (Exception [PStr ("'" ++ trans_type ++ "' can only be used with mode='sftp'")])) ;;
  when (truthy outdir) (cwd outdir local) ;;
  match options with
  | _ :: _ =>
      let opt := "-" ++ join "" options in
      basic_step [PStr trans_type; PStr opt; file; new_name; PStr nl] PNone
  | [] =>
      basic_step [PStr trans_type; file; new_name; PStr nl] PNone
  end.

(** [Scripter.get(self, file, outdir=None, new_name=None, options=[])] *)
Definition get (file outdir new_name : pyval) (options : list string) : M unit :=
  transfer "get" file outdir true new_name options.

(** [type(x).__name__] *)
Definition type_name (x : pyval) : string :=
  match x with
  | PNone => "NoneType"
  | PBool _ => "bool"
  | PInt _ => "int"
  | PStr _ => "str"
  | PPath _ => "PosixPath"
  end.

(** [Path(x)]: a value that is neither a text nor a path is refused, and the
    message names its type. *)
Definition Path_of (x : pyval) : M Path :=
  match x with
  | PStr s => ret (Pathlib.of_str s)
  | PPath p => ret p
  | _ => raise (TypeError ("expected str, bytes or os.PathLike object, not "
                           ++ type_name x))
  end.

(** [Scripter.put(self, file, outdir=None, new_name=None, options=[], set_permissions=False)] *)
Definition put (file outdir new_name : pyval) (options : list string)
  (set_perms : bool) : M unit :=
  when (truthy outdir) (add_step (PStr ("mkdir " ++ py_str outdir)) PNone) ;;
  transfer "put" file outdir false new_name options ;;
  when set_perms
       (d <- Path_of outdir ;;
        f <- Path_of file ;;
        let target := Pathlib.joinpath d (Pathlib.of_str (Pathlib.name f)) in
        set_permissions (OneFile (Pathlib.to_str target)) PNone (PStr "0664")).

(** ** Scripter: credentials *)

(** [self.config], which [get_credentials] has set to a path. *)
Definition the_config : M Path :=
  s <- get_self ;;
  match config s with
  | Some c => ret c
  | None => raise (AttributeError "parent")
  end.

(** [Scripter.write_credentials(self)] *)
Definition write_credentials : M unit :=
  c <- the_config ;;
  Sys.mkdir (Pathlib.parent c) ;;
  Sys.open_w c ;;
  s <- get_self ;;
  Sys.write c ("username=" ++ py_str (username s) ++ nl) ;;
  s <- get_self ;;
  Sys.write c ("password=" ++ py_str (password s) ++ nl).

(** [setattr(self, cred, attr)] for the names [read_credentials] passes. *)
Definition setattr (cred : string) (attr : pyval) : M unit :=
  if String.eqb cred "username" then set_self (set_username attr)
  else if String.eqb cred "group" then set_self (set_group attr)
  else if String.eqb cred "site" then set_self (set_site attr)
  else ret tt.

(** [Scripter._get_credential_if_present(self, line, cred)] *)
Definition _get_credential_if_present (line cred : string) : M unit :=
  when (contains cred (lower line))
       (let attr := strip (last_item (split "="%char line)) in
        if String.eqb cred "password" then set_self (set_password (PStr attr))
        else setattr cred (PStr attr)).

(** [Scripter.read_credentials(self, config)] *)
Definition read_credentials (config : Path) : M unit :=
  text <- Sys.read_text config ;;
  for_each (Sys.lines text) (fun line =>
    let line := strip line in
    for_each ["username"; "password"; "group"; "site"]
             (fun cred => _get_credential_if_present line cred)).

(** [Scripter.request_credentials(self, reset_user=False, reset_pass=False)].
    [depth] bounds the nesting of calls; exceeding it is a [RecursionError]. *)
Fixpoint request_credentials (depth : nat) (reset_user reset_pass : bool) : M unit :=
  match depth with
  | O => raise RecursionError
  | S depth' =>
      Sys.print "Collecting your cluster login information to speed up future interactions:" ;;
      s <- get_self ;;
      when (negb (truthy (username s)) || reset_user)%bool
           (u <- Sys.input ("Username:" ++ nl ++ "> ") ;;
            set_self (set_username (PStr u)) ;;
            Sys.print ("The username you entered is: " ++ u) ;;
            user_ok <- Sys.input ("Is this correct? (Y/n)" ++ nl ++ "> ") ;;
            when (String.eqb (lower (strip user_ok)) "n")
                 (request_credentials depth' true false)) ;;
      s <- get_self ;;
      when (negb (truthy (password s)) || reset_pass)%bool
           (p <- Sys.getpass ("Password:" ++ nl ++ "> ") ;;
            set_self (set_password (PStr p))) ;;
      s <- get_self ;;
      when (negb (truthy (group s)))
           (g <- Sys.input ("Enter a group name (or octal - must be octal for sftp) for permissions-setting or skip by hitting enter:" ++ nl ++ "> ") ;;
            set_self (set_group (PStr g))) ;;
      s <- get_self ;;
      when (negb (truthy (site s)))
           (x <- Sys.input ("Enter the site you're trying to reach:" ++ nl ++ "> ") ;;
            set_self (set_site (PStr x)))
  end.

(** [Scripter.reset_username(self)] *)
Definition reset_username (depth : nat) : M unit :=
  request_credentials depth true false ;; write_credentials.

(** [Scripter.reset_password(self)] *)
Definition reset_password (depth : nat) : M unit :=
  request_credentials depth false true ;; write_credentials.

Definition missing_variables (c : Path) : string :=
  "Config file '" ++ Pathlib.to_str c ++ "' is missing variables" ++ nl
  ++ "It should look like this:" ++ nl
  ++ "username=youruser" ++ nl
  ++ "password=yourpass" ++ nl ++ nl
  ++ "Or you need to pass in a username and/or password at Scripter instantiation.".

(** The first statement of [get_credentials]: settle [self.config]. *)
Definition resolve_config : M unit :=
  s <- get_self ;;
  match config s with
  | Some c =>
      when (Pathlib.mem Pathlib.tilde (Pathlib.parents c))
           (match first_char (Pathlib.to_str c) with
            | None => raise IndexError
            | Some ch =>
                if negb (Ascii.eqb ch "~")
                then raise (Exception [PStr "Config path looks weird:"; PPath c])
                else
                  h <- Sys.path_home ;;
                  set_self (set_config
                    (Some (Pathlib.of_str
                             (replace "~" (Pathlib.to_str h) (Pathlib.to_str c)))))
            end)
  | None =>
      h <- Sys.path_home ;;
      w <- get_world ;;
      set_self (set_config
        (Some (Pathlib.resolve (workdir w)
                 (Pathlib.joinpath h (Pathlib.of_str ".pooPatrol/hpc_config.txt")))))
  end.

(** [Scripter.get_credentials(self, save=True, overwrite=False, headless=False)].
    [depth] bounds the nesting of calls; exceeding it is a [RecursionError]. *)
Fixpoint get_credentials (depth : nat) (save overwrite headless : bool)
  : M (pyval * pyval) :=
  match depth with
  | O => raise RecursionError
  | S depth' =>
      resolve_config ;;
      s <- get_self ;;
      when (negb (truthy (username s)) || negb (truthy (password s)))%bool
           (c <- the_config ;;
            present <- Sys.exists_ c ;;
            if present then
              read_credentials c ;;
              _ <- get_credentials depth' true false false ;;
              ret tt
            else if headless then
              Sys.print (missing_variables c) ;;
              Sys.exit 1
            else
              Sys.print ("Requested config not found (" ++ Pathlib.to_str c ++ ")."
                         ++ nl ++ "Gathering credentials...") ;;
              request_credentials depth' false false) ;;
      c <- the_config ;;
      present <- Sys.exists_ c ;;
      when ((save && negb present) || overwrite)%bool
           (Sys.print ("Writing out credentials to " ++ Pathlib.to_str c) ;;
            write_credentials) ;;
      s <- get_self ;;
      ret (username s, password s)
  end.

(** The object before [__init__] has assigned anything. *)
Definition blank : Scripter :=
  mkScripter PNone PNone PNone PNone None "" PNone None "" "" "" [] [].

(** [Scripter.__init__(self, username, password, site, mode, group, config, site_type)] *)
Definition Scripter_init (depth : nat) (username_arg password_arg site_arg : pyval)
  (mode_arg : string) (group_arg config_arg : pyval) (site_type : string) : M unit :=
  set_self (set_username username_arg) ;;
  set_self (set_password password_arg) ;;
  set_self (set_group group_arg) ;;
  set_self (set_site site_arg) ;;
  (if truthy config_arg
   then c <- Path_of config_arg ;; set_self (set_config (Some c))
   else set_self (set_config None)) ;;
  _ <- get_credentials depth true false false ;;
  set_self (set_mode mode_arg) ;;
  s <- get_self ;;
  (if String.eqb (mode s) "sftp"
   then set_self (set_expect (PStr "sftp>"))
   else set_self (set_quote (Some "'")) ;; set_self (set_expect (username s))) ;;
  set_self (set_open ("expect << !" ++ nl ++ "set timeout -1" ++ nl ++ "spawn ")) ;;
  s <- get_self ;;
  set_self (set_entry (mode s ++ " " ++ py_str (username s) ++ "@" ++ py_str (site s) ++ nl)) ;;
  set_self (set_close ("expect eof" ++ nl ++ "!" ++ nl)) ;;
  set_self (set_actions []) ;;
  s <- get_self ;;
  set_self (set_pw_steps
    [StepM.make (PStr "Password:") (password s);
     StepM.make (PStr "Passcode or option (1-3):") (PInt 1)]).

(** [Scripter(...)]: run [__init__] on a fresh object. *)
Definition new (depth : nat) (username_arg password_arg site_arg : pyval)
  (mode_arg : string) (group_arg config_arg : pyval) (site_type : string)
  (w : World) : result unit * Scripter * World :=
  Scripter_init depth username_arg password_arg site_arg mode_arg group_arg
                config_arg site_type blank w.

(** * The vocabulary of the statements *)

(** The step [add_step] builds for the command [input]. *)
Definition step_for (s : Scripter) (input : pyval) : Step :=
  StepM.make (expect s) input.

(** Appending steps to the sequence of [s]. *)
Definition append_steps (l : list Step) (s : Scripter) : Scripter :=
  set_actions (actions s ++ l)%list s.

(** The command text [basic_step] sends for the words [commands]. *)
Definition command_of (commands : list pyval) : string :=
  join " " (List.map py_str (List.filter truthy commands)).

(** What [Scripter_init] leaves once [get_credentials] has returned: the
    attributes assigned after the call, from the state [s0] it returned in. *)
Definition finish_init (mode_arg : string) (s0 : Scripter) : Scripter :=
  {| username := username s0;
     password := password s0;
     group := group s0;
     site := site s0;
     config := config s0;
     mode := mode_arg;
     expect := if String.eqb mode_arg "sftp" then PStr "sftp>" else username s0;
     quote := if String.eqb mode_arg "sftp" then quote s0 else Some "'";
     open := "expect << !" ++ nl ++ "set timeout -1" ++ nl ++ "spawn ";
     entry := mode_arg ++ " " ++ py_str (username s0) ++ "@" ++ py_str (site s0) ++ nl;
     close := "expect eof" ++ nl ++ "!" ++ nl;
     actions := [];
     pw_steps := [StepM.make (PStr "Password:") (password s0);
                  StepM.make (PStr "Passcode or option (1-3):") (PInt 1)] |}.

(** The value [__init__] assigns to [self.config] when it does not raise. *)
Definition config_of (c : pyval) : option Path :=
  if truthy c then
    match c with
    | PStr x => Some (Pathlib.of_str x)
    | PPath x => Some x
    | _ => None
    end
  else None.

(** The object when [__init__] calls [get_credentials]. *)
Definition at_credentials (u p st g c : pyval) : Scripter :=
  set_config (config_of c)
    (set_site st (set_group g (set_password p (set_username u blank)))).

(** The command [cwd] sends: the verb, then the directory unless it is empty
    or [None]. *)
Definition cd_command (verb : string) (dir : pyval) : string :=
  if truthy dir then verb ++ " " ++ py_str dir else verb.

Definition unsupported (trans_type : string) : exn :=
  Exception [PStr ("'" ++ trans_type ++ "' can only be used with mode='sftp'")].

(** The words of the transfer command, as [transfer] hands them to
    [basic_step]. *)
Definition transfer_words (trans_type : string) (file new_name : pyval)
  (options : list string) : list pyval :=
  match options with
  | _ :: _ => [PStr trans_type; PStr ("-" ++ join "" options); file; new_name; PStr nl]
  | [] => [PStr trans_type; file; new_name; PStr nl]
  end.

(** The directory-change step of a transfer, when a destination is given. *)
Definition cd_steps (s : Scripter) (outdir : pyval) (local : bool) : list Step :=
  if truthy outdir
  then [step_for s (PStr (cd_command (if local then "lcd" else "cd") outdir))]
  else [].

(** The state in which [put] calls [transfer]. *)
Definition after_mkdir (outdir : pyval) (s : Scripter) : Scripter :=
  if truthy outdir
  then append_steps [step_for s (PStr ("mkdir " ++ py_str outdir))] s
  else s.

(** The calls a client makes on a constructed [Scripter] while building a
    script. *)
Inductive call :=
| CallAddStep (input expect_arg : pyval)
| CallBasicStep (commands : list pyval) (expect_arg : pyval)
| CallPwd
| CallLs (dir : pyval)
| CallCwd (dir : pyval) (local : bool)
| CallSetPermissions (files : files_arg) (group_arg octal : pyval)
| CallTransfer (trans_type : string) (file outdir : pyval) (local : bool)
               (new_name : pyval) (options : list string)
| CallGet (file outdir new_name : pyval) (options : list string)
| CallPut (file outdir new_name : pyval) (options : list string) (set_perms : bool)
| CallClear
| CallPreviewSteps
| CallRun.

Definition perform (c : call) : M unit :=
  match c with
  | CallAddStep input e => add_step input e
  | CallBasicStep commands e => basic_step commands e
  | CallPwd => pwd
  | CallLs dir => ls dir
  | CallCwd dir local => cwd dir local
  | CallSetPermissions files g octal => set_permissions files g octal
  | CallTransfer t file outdir local new_name options =>
      transfer t file outdir local new_name options
  | CallGet file outdir new_name options => get file outdir new_name options
  | CallPut file outdir new_name options set_perms =>
      put file outdir new_name options set_perms
  | CallClear => clear
  | CallPreviewSteps => preview_steps
  | CallRun => run
  end.

(** [built_from s0 s]: [s] is [s0] after some calls, whether they returned or
    raised (a client may catch the exception and go on). *)
Inductive built_from (s0 : Scripter) : Scripter -> Prop :=
| built_start : built_from s0 s0
| built_call s c w r s' w' :
    built_from s0 s -> perform c s w = (r, s', w') -> built_from s0 s'.

(** [frame s s']: [s'] differs from [s] at most in its steps and its group. *)
Definition frame (s s' : Scripter) : Prop :=
  s' = set_group (group s') (set_actions (actions s') s).

(** A computation that assigns no attribute but [actions] and [group]. *)
Definition framed {A} (m : M A) : Prop :=
  forall s w r s' w', m s w = (r, s', w') -> frame s s'.

(** The command that ends a session in mode [m]. *)
Definition exit_command (m : string) : string :=
  if String.eqb m "sftp" then "quit" else "exit".

(** The first authentication step: wait for the password prompt, send the
    password. *)
Definition password_step (pw : pyval) : Step :=
  StepM.make (PStr "Password:") pw.

(** The second authentication step: wait for the passcode menu, send 1. *)
Definition passcode_step : Step :=
  StepM.make (PStr "Passcode or option (1-3):") (PInt 1).

(** The script [run] hands to [os.system], piece by piece. *)
Definition script (m : string) (user site_ pw : pyval) (steps : list Step) : string :=
  ("expect << !" ++ nl ++ "set timeout -1" ++ nl ++ "spawn ")
  ++ (m ++ " " ++ py_str user ++ "@" ++ py_str site_ ++ nl)
  ++ join "" (List.map (StepM.repr nl) [password_step pw; passcode_step])
  ++ join "" (List.map (StepM.repr nl) steps)
  ++ ("expect eof" ++ nl ++ "!" ++ nl).

(** The values the validation loop rejects: a non-empty text that is not
    numeric, and a negative integer (its text starts with a minus sign). *)
Definition rejected (x : pyval) : bool :=
  match x with
  | PStr t => (negb (isnumeric t) && negb (String.eqb t ""))%bool
  | PInt z => z <? 0
  | _ => false
  end.

(** The group in force once [set_permissions] has looked at its [group]
    argument. *)
Definition effective_group (s : Scripter) (group_arg : pyval) : pyval :=
  if (negb (truthy (group s)) && ne_str group_arg "")%bool then group_arg else group s.

(** The steps [set_permissions] appends for [files]: per file a [chmod] and,
    when the group is set, a [chgrp]. *)
Definition permission_steps (e g octal : pyval) (files : list pyval) : list Step :=
  List.flat_map
    (fun file =>
       StepM.make e (PStr (command_of [PStr "chmod"; octal; file]))
       :: (if truthy g
           then [StepM.make e (PStr (command_of [PStr "chgrp"; g; file]))]
           else []))
    files.

Definition files_of (files : files_arg) : list pyval :=
  match files with
  | OneFile f => [PStr f]
  | FileList l => l
  end.

Definition send_open : string := "send " ++ dq.

(** The lines [preview_steps] prints after its heading. *)
Definition preview_lines (s : Scripter) : list string :=
  List.map str_of_pair (enumerate (List.map action_text (actions s))).

Definition logged (es : list event) (w : World) : World :=
  mkWorld (fs w) (home w) (workdir w) (stdin w) (trace w ++ es)%list.

(** The path [get_credentials] settles on when [self.config] is [c]. *)
Definition expand_home (w : World) (c : Path) : Path :=
  if Pathlib.mem Pathlib.tilde (Pathlib.parents c)
  then Pathlib.of_str
         (replace "~" (Pathlib.to_str (Pathlib.of_str (home w))) (Pathlib.to_str c))
  else c.

(** The path [get_credentials] settles on when no config was given. *)
Definition default_config (w : World) : Path :=
  Pathlib.resolve (workdir w)
    (Pathlib.joinpath (Pathlib.of_str (home w))
                      (Pathlib.of_str ".pooPatrol/hpc_config.txt")).

Definition resolved_config (s : Scripter) (w : World) : Path :=
  match config s with
  | Some c => expand_home w c
  | None => default_config w
  end.

(** The two lines of the config file of the claim, as [read_credentials]
    sees them after [strip]. *)
Definition alice_lines : list string := ["username=alice"; "password=secret"].

(** A computation that leaves the object as it is. *)
Definition self_kept {A} (m : M A) : Prop :=
  forall s w r s' w', m s w = (r, s', w') -> s' = s.

(** The text [write_credentials] leaves in the config file. *)
Definition credentials_text (u p : pyval) : string :=
  "username=" ++ py_str u ++ nl ++ "password=" ++ py_str p ++ nl.

(** A computation that leaves the config path and the files as they are. *)
Definition keeps {A} (m : M A) : Prop :=
  forall s w r s' w', m s w = (r, s', w') -> config s' = config s /\ fs w' = fs w.

(** The path with anchor [a] whose components are [rnames], last first. *)
Definition rpath (a : string) (rnames : list string) : Path :=
  mkPath a (List.rev rnames).

(** The text [__full_command] builds from the attributes of [s] when the
    accumulated steps are [steps]. *)
Definition session_text (s : Scripter) (steps : list Step) : string :=
  open s ++ entry s
  ++ join "" (List.map (StepM.repr nl) (pw_steps s))
  ++ join "" (List.map (StepM.repr nl) steps)
  ++ close s.

(** The step that ends the session of [s]. *)
Definition exit_step (s : Scripter) : Step :=
  step_for s (PStr (exit_command (mode s))).

(** [kept R m]: the computation [m] takes every object and world to ones
    related to them by [R], whether it returns or raises. *)
Definition kept {A} (R : Scripter * World -> Scripter * World -> Prop) (m : M A) : Prop :=
  forall s w r s' w', m s w = (r, s', w') -> R (s, w) (s', w').

(** The step sequence has only grown. *)
Definition grown (a b : Scripter * World) : Prop :=
  exists l, actions (fst b) = (actions (fst a) ++ l)%list.

(** The world is the same. *)
Definition same_world (a b : Scripter * World) : Prop := snd b = snd a.

(** The group of the object is the same. *)
Definition same_group (a b : Scripter * World) : Prop := group (fst b) = group (fst a).

(** A step as [Step(expect=..., input=...)] builds it, with the default
    double quote. *)
Definition default_form (st : Step) : Prop :=
  exists e input, st = StepM.make e input.

(** Steps in the default form stay so. *)
Definition default_forms_kept (a b : Scripter * World) : Prop :=
  List.Forall default_form (actions (fst a)) ->
  List.Forall default_form (actions (fst b)).

(** Nothing but the credentials of the object has changed. *)
Definition same_login (a b : Scripter * World) : Prop :=
  mode (fst b) = mode (fst a) /\ expect (fst b) = expect (fst a) /\
  open (fst b) = open (fst a) /\ entry (fst b) = entry (fst a) /\
  close (fst b) = close (fst a) /\ actions (fst b) = actions (fst a) /\
  pw_steps (fst b) = pw_steps (fst a).

(** The file [put] changes the permissions of: the name of [file] under
    [outdir]. *)
Definition uploaded (file outdir : string) : string :=
  Pathlib.to_str
    (Pathlib.joinpath (Pathlib.of_str outdir)
                      (Pathlib.of_str (Pathlib.name (Pathlib.of_str file)))).

(** No line of the text mentions the password. *)
Definition no_password_line (content : string) : bool :=
  List.forallb (fun line => negb (contains "password" (lower (strip line))))
               (Sys.lines content).

(** What [request_credentials] shows at the terminal when it asks for all
    four credentials and the username [u] is confirmed. *)
Definition dialogue (u : string) : list event :=
  [Print "Collecting your cluster login information to speed up future interactions:";
   Input ("Username:" ++ nl ++ "> ");
   Print ("The username you entered is: " ++ u);
   Input ("Is this correct? (Y/n)" ++ nl ++ "> ");
   Getpass ("Password:" ++ nl ++ "> ");
   Input ("Enter a group name (or octal - must be octal for sftp) for permissions-setting or skip by hitting enter:" ++ nl ++ "> ");
   Input ("Enter the site you're trying to reach:" ++ nl ++ "> ")].

(** The same when the username is first refused and typed again: the
    heading, the username and the confirmation come twice. *)
Definition dialogue_again (u1 u2 : string) : list event :=
  [Print "Collecting your cluster login information to speed up future interactions:";
   Input ("Username:" ++ nl ++ "> ");
   Print ("The username you entered is: " ++ u1);
   Input ("Is this correct? (Y/n)" ++ nl ++ "> ")]
  ++ dialogue u2.

(** Every character of the text passes the test. *)
Fixpoint all_chars (f : ascii -> bool) (s : string) : bool :=
  match s with
  | EmptyString => true
  | String c r => (f c && all_chars f r)%bool
  end.

Definition not_space (c : ascii) : bool := negb (is_space c).

Definition not_equals (c : ascii) : bool := negb (Ascii.eqb c "=").

(** A credential that survives the config file: a text without white space
    and without the equals sign. *)
Definition plain (x : string) : bool :=
  (all_chars not_space x && all_chars not_equals x)%bool.

(** The text spells none of the given key words, in any case. *)
Definition spells_none (keys : list string) (x : string) : bool :=
  List.forallb (fun k => negb (contains k (lower x))) keys.

(** Sample sessions, on which the statements are exercised. *)

Module Sample.

(** A world where the file [cfg] exists, nothing is typed and nothing has
    happened yet. *)
Definition world : World :=
  mkWorld {[ "cfg" := File "" ]} "/home/bob" "/work" [] [].

(** [Scripter(username="bob", password="pw", site="hpc.edu", mode=m,
    config="cfg")] *)
Definition session (m : string) : Scripter :=
  finish_init m
    (at_credentials (PStr "bob") (PStr "pw") (PStr "hpc.edu") PNone (PStr "cfg")).

End Sample.

(** * Properties *)

(** ** The monad *)

Lemma bind_ok_inv {A B} (m : M A) (k : A -> M B) s w b s' w' :
  bind m k s w = (Ok b, s', w') ->
  exists a s1 w1, m s w = (Ok a, s1, w1) /\ k a s1 w1 = (Ok b, s', w').
Proof.
  unfold bind. destruct (m s w) as [[[a|e] s1] w1]; intros H.
  - exists a, s1, w1. split; [reflexivity | exact H].
  - discriminate H.
Qed.

Lemma bind_ok {A B} (m : M A) (k : A -> M B) s w a s1 w1 :
  m s w = (Ok a, s1, w1) -> bind m k s w = k a s1 w1.
Proof. unfold bind. intros ->. reflexivity. Qed.

Lemma bind_raise {A B} (m : M A) (k : A -> M B) s w e s1 w1 :
  m s w = (Raise e, s1, w1) -> bind m k s w = (Raise e, s1, w1).
Proof. unfold bind. intros ->. reflexivity. Qed.

Lemma add_step_default input s w :
  add_step input PNone s w = (Ok tt, append_steps [step_for s input] s, w).
Proof. reflexivity. Qed.

Lemma basic_step_default c commands s w :
  basic_step (c :: commands) PNone s w =
    (Ok tt, append_steps [step_for s (PStr (command_of (c :: commands)))] s, w).
Proof. reflexivity. Qed.

Lemma append_steps_app l1 l2 s :
  append_steps l2 (append_steps l1 s) = append_steps (l1 ++ l2)%list s.
Proof. unfold append_steps, set_actions. simpl. rewrite <- app_assoc. reflexivity. Qed.

Lemma append_steps_nil s : append_steps [] s = s.
Proof. unfold append_steps, set_actions. rewrite app_nil_r. destruct s; reflexivity. Qed.

Lemma step_for_append l s input : step_for (append_steps l s) input = step_for s input.
Proof. reflexivity. Qed.

(** ** C10: is_empty *)

Lemma finish_init_run m s0 w0 :
  (set_self (set_mode m) ;;
   s <- get_self ;;
   (if String.eqb (mode s) "sftp"
    then set_self (set_expect (PStr "sftp>"))
    else set_self (set_quote (Some "'")) ;; set_self (set_expect (username s))) ;;
   set_self (set_open ("expect << !" ++ nl ++ "set timeout -1" ++ nl ++ "spawn ")) ;;
   s <- get_self ;;
   set_self (set_entry (mode s ++ " " ++ py_str (username s) ++ "@" ++ py_str (site s) ++ nl)) ;;
   set_self (set_close ("expect eof" ++ nl ++ "!" ++ nl)) ;;
   set_self (set_actions []) ;;
   s <- get_self ;;
   set_self (set_pw_steps
     [StepM.make (PStr "Password:") (password s);
      StepM.make (PStr "Passcode or option (1-3):") (PInt 1)])) s0 w0
  = (Ok tt, finish_init m s0, w0).
Proof.
  cbv [bind get_self set_self ret]. unfold finish_init.
  change (mode (set_mode m s0)) with m.
  destruct (String.eqb m "sftp"); reflexivity.
Qed.

Lemma new_inv depth u p st m g c site_type w s w' :
  new depth u p st m g c site_type w = (Ok tt, s, w') ->
  exists s0 r,
    s = finish_init m s0 /\
    get_credentials depth true false false (at_credentials u p st g c) w
    = (Ok r, s0, w').
Proof.
  unfold new, Scripter_init. intros H.
  do 4 (apply bind_ok_inv in H; destruct H as (? & ? & ? & [= <- <- <-] & H)).
  apply bind_ok_inv in H. destruct H as (? & s1 & w1 & Hc & H).
  apply bind_ok_inv in H. destruct H as (r & s0 & w0 & Hg & H).
  rewrite finish_init_run in H. injection H as <- <-.
  exists s0, r. split; [reflexivity|].
  rewrite <- Hg. clear Hg. unfold at_credentials, config_of.
  destruct (truthy c) eqn:T; destruct c; simpl in T; try discriminate T;
    simpl in Hc; try discriminate Hc; injection Hc as <- <-; subst; reflexivity.
Qed.

Lemma new_ok depth u p st m g c site_type w r s0 w' :
  match c with PStr _ | PPath _ => True | _ => truthy c = false end ->
  get_credentials depth true false false (at_credentials u p st g c) w
  = (Ok r, s0, w') ->
  new depth u p st m g c site_type w = (Ok tt, finish_init m s0, w').
Proof.
  intros Hc Hg. unfold new, Scripter_init.
  do 4 (erewrite bind_ok by reflexivity).
  erewrite bind_ok.
  2:{ instantiate (1 := w). instantiate (1 := at_credentials u p st g c).
      instantiate (1 := tt). unfold at_credentials, config_of.
      destruct c; simpl in *; try rewrite Hc; try reflexivity.
      destruct (negb (String.eqb s "")); reflexivity. }
  erewrite bind_ok by exact Hg.
  apply finish_init_run.
Qed.

Lemma sample_session_built m :
  new 1 (PStr "bob") (PStr "pw") (PStr "hpc.edu") m PNone (PStr "cfg") "hpc" Sample.world
  = (Ok tt, Sample.session m, Sample.world).
Proof. apply new_ok with (r := (PStr "bob", PStr "pw")); [exact I|]. vm_compute. reflexivity. Qed.

(** C10. [is_empty] returns [True] exactly when the step sequence is
    non-empty and [False] when it is empty (the opposite of its name); right
    after construction and after [clear] it returns [False]. *)
Theorem is_empty_is_inverted :
  forall s w,
    (exists b, is_empty s w = (Ok b, s, w) /\ (b = true <-> actions s <> [])) /\
    (clear ;; is_empty) s w = (Ok false, set_actions [] s, w) /\
    (forall depth u p st m g c site_type w0,
        new depth u p st m g c site_type w0 = (Ok tt, s, w) ->
        is_empty s w = (Ok false, s, w)).
Proof.
  intros s w. split; [|split].
  - unfold is_empty. cbv [bind get_self ret].
    destruct (actions s) as [|a l]; eexists; (split; [reflexivity|]); split;
      congruence.
  - reflexivity.
  - intros depth u p st m g c site_type w0 H.
    apply new_inv in H. destruct H as (s0 & r & -> & _). reflexivity.
Qed.

Lemma is_empty_is_inverted_witness :
  new 1 (PStr "bob") (PStr "pw") (PStr "hpc.edu") "sftp" PNone (PStr "cfg") "hpc"
      Sample.world = (Ok tt, Sample.session "sftp", Sample.world) /\
  is_empty (Sample.session "sftp") Sample.world
  = (Ok false, Sample.session "sftp", Sample.world).
Proof.
  split.
  - apply sample_session_built.
  - apply (proj2 (proj2 (is_empty_is_inverted (Sample.session "sftp") Sample.world))
             1%nat (PStr "bob") (PStr "pw") (PStr "hpc.edu") "sftp" PNone (PStr "cfg")
             "hpc" Sample.world).
    apply sample_session_built.
Defined.

(** ** C5: cwd *)

Lemma command_of_cd verb dir :
  negb (String.eqb verb "") = true ->
  command_of [PStr verb; dir] = cd_command verb dir.
Proof.
  intros Hv. unfold command_of, cd_command. simpl. rewrite Hv.
  destruct (truthy dir); reflexivity.
Qed.

Lemma cwd_remote dir s w :
  cwd dir false s w
  = (Ok tt, append_steps [step_for s (PStr (cd_command "cd" dir))] s, w).
Proof.
  unfold cwd. cbv [bind get_self ret]. rewrite basic_step_default.
  rewrite command_of_cd by reflexivity. reflexivity.
Qed.

Lemma cwd_local_sftp dir s w :
  mode s = "sftp" ->
  cwd dir true s w
  = (Ok tt, append_steps [step_for s (PStr (cd_command "lcd" dir))] s, w).
Proof.
  intros Hm. unfold cwd. cbv [bind get_self ret]. rewrite Hm.
  change (String.eqb "sftp" "sftp") with true. cbv beta iota.
  rewrite basic_step_default. rewrite command_of_cd by reflexivity. reflexivity.
Qed.

Lemma cwd_local_elsewhere dir s w :
  mode s <> "sftp" ->
  cwd dir true s w = (Raise (Exception [PStr "lcd only works with sftp"]), s, w).
Proof.
  intros Hm. unfold cwd. cbv [bind get_self].
  destruct (String.eqb_spec (mode s) "sftp") as [E|E]; [contradiction|]. reflexivity.
Qed.

(** C5. Outside sftp mode [cwd(dir, local=True)] raises the unsupported
    operation error and appends no step; [cwd(dir)] appends exactly one step
    sending [cd <dir>], and in sftp mode [cwd(dir, local=True)] appends
    exactly one step sending [lcd <dir>]. *)
Theorem cwd_spec :
  forall s w dir,
    (mode s <> "sftp" ->
     cwd dir true s w = (Raise (Exception [PStr "lcd only works with sftp"]), s, w)) /\
    cwd dir false s w
    = (Ok tt, append_steps [step_for s (PStr (cd_command "cd" dir))] s, w) /\
    (mode s = "sftp" ->
     cwd dir true s w
     = (Ok tt, append_steps [step_for s (PStr (cd_command "lcd" dir))] s, w)).
Proof.
  intros s w dir. split; [|split].
  - apply cwd_local_elsewhere.
  - apply cwd_remote.
  - apply cwd_local_sftp.
Qed.

Lemma cwd_spec_witness :
  cwd (PStr "data") true (Sample.session "ssh") Sample.world
  = (Raise (Exception [PStr "lcd only works with sftp"]), Sample.session "ssh",
     Sample.world) /\
  cwd (PStr "data") true (Sample.session "sftp") Sample.world
  = (Ok tt,
     append_steps [step_for (Sample.session "sftp") (PStr "lcd data")]
                  (Sample.session "sftp"),
     Sample.world).
Proof.
  split.
  - apply (proj1 (cwd_spec (Sample.session "ssh") Sample.world (PStr "data"))).
    discriminate.
  - apply (proj2 (proj2 (cwd_spec (Sample.session "sftp") Sample.world (PStr "data")))).
    reflexivity.
Defined.

(** ** C4 and C2: transfer, get, put *)

Lemma transfer_not_sftp t file outdir local new_name options s w :
  mode s <> "sftp" ->
  transfer t file outdir local new_name options s w = (Raise (unsupported t), s, w).
Proof.
  intros Hm. unfold transfer. cbv [bind get_self when].
  destruct (String.eqb_spec (mode s) "sftp") as [E|E]; [contradiction|]. reflexivity.
Qed.

Lemma transfer_sftp t file outdir local new_name options s w :
  mode s = "sftp" ->
  transfer t file outdir local new_name options s w
  = (Ok tt,
     append_steps (cd_steps s outdir local
                   ++ [step_for s (PStr (command_of (transfer_words t file new_name options)))])
                  s, w).
Proof.
  intros Hm. unfold transfer. cbv [bind get_self when]. rewrite Hm.
  change (String.eqb "sftp" "sftp") with true. cbv beta iota. unfold negb, ret at 1.
  cbv beta iota. unfold cd_steps.
  destruct (truthy outdir) eqn:To.
  - destruct local.
    + rewrite (cwd_local_sftp outdir s w Hm).
      destruct options; unfold transfer_words; rewrite basic_step_default;
        rewrite append_steps_app; reflexivity.
    + rewrite (cwd_remote outdir s w).
      destruct options; unfold transfer_words; rewrite basic_step_default;
        rewrite append_steps_app; reflexivity.
  - unfold ret. destruct options; unfold transfer_words; rewrite basic_step_default;
      reflexivity.
Qed.

Lemma put_unfold file outdir new_name options set_perms s w :
  put file outdir new_name options set_perms s w
  = (transfer "put" file outdir false new_name options ;;
     when set_perms
       (d <- Path_of outdir ;;
        f <- Path_of file ;;
        let target := Pathlib.joinpath d (Pathlib.of_str (Pathlib.name f)) in
        set_permissions (OneFile (Pathlib.to_str target)) PNone (PStr "0664")))
      (after_mkdir outdir s) w.
Proof.
  unfold put, after_mkdir, when at 1. destruct (truthy outdir).
  - erewrite bind_ok by apply add_step_default. reflexivity.
  - reflexivity.
Qed.

Lemma mode_after_mkdir outdir s : mode (after_mkdir outdir s) = mode s.
Proof. unfold after_mkdir. destruct (truthy outdir); reflexivity. Qed.

(** C4, as the code has it. Outside sftp mode [transfer] and [get] raise the
    unsupported-operation error and leave the step sequence as it was; [put]
    raises the same error, after it has appended the [mkdir] step when a
    destination directory was given. *)
Theorem transfer_needs_sftp :
  forall s w file outdir new_name options,
    mode s <> "sftp" ->
    (forall t local,
        transfer t file outdir local new_name options s w
        = (Raise (unsupported t), s, w)) /\
    get file outdir new_name options s w = (Raise (unsupported "get"), s, w) /\
    (forall set_perms,
        put file outdir new_name options set_perms s w
        = (Raise (unsupported "put"), after_mkdir outdir s, w)) /\
    (truthy outdir = false -> after_mkdir outdir s = s).
Proof.
  intros s w file outdir new_name options Hm. repeat split.
  - intros t local. apply transfer_not_sftp, Hm.
  - unfold get. apply transfer_not_sftp, Hm.
  - intros set_perms. rewrite put_unfold. apply bind_raise.
    apply transfer_not_sftp. rewrite mode_after_mkdir. exact Hm.
  - unfold after_mkdir. intros ->. reflexivity.
Qed.

Lemma transfer_needs_sftp_witness :
  get (PStr "data.csv") (PStr "local/dir") PNone [] (Sample.session "ssh") Sample.world
  = (Raise (unsupported "get"), Sample.session "ssh", Sample.world).
Proof.
  apply (proj1 (proj2 (transfer_needs_sftp (Sample.session "ssh") Sample.world
                         (PStr "data.csv") (PStr "local/dir") PNone []
                         ltac:(discriminate)))).
Defined.

(** C4 as stated fails for [put]: in ssh mode [put("data.csv",
    outdir="remote/dir")] raises, and the step sequence has grown by the
    [mkdir] step. *)
Lemma put_outside_sftp_keeps_mkdir_step :
  exists s' w',
    put (PStr "data.csv") (PStr "remote/dir") PNone [] false
        (Sample.session "ssh") Sample.world
    = (Raise (unsupported "put"), s', w') /\
    actions (Sample.session "ssh") = [] /\
    actions s' = [step_for (Sample.session "ssh") (PStr "mkdir remote/dir")] /\
    actions s' <> actions (Sample.session "ssh").
Proof.
  eexists. eexists. split; [reflexivity|]. split; [reflexivity|].
  split; [reflexivity|]. discriminate.
Qed.

(** C2, as the code has it. In sftp mode [put(file, outdir=outdir)] with a
    non-empty [outdir] appends exactly three steps: [mkdir <outdir>],
    [cd <outdir>] and the transfer step, whose command is the words [put],
    the file and a newline joined by spaces; and every [transfer] with a
    destination directory appends the directory-change step ([cd], or [lcd]
    for a local destination) immediately before the transfer step. *)
Theorem put_appends_mkdir_cd_put :
  forall s w file outdir,
    mode s = "sftp" ->
    truthy outdir = true ->
    put file outdir PNone [] false s w
    = (Ok tt,
       append_steps
         [step_for s (PStr ("mkdir " ++ py_str outdir));
          step_for s (PStr ("cd " ++ py_str outdir));
          step_for s (PStr (if truthy file then "put " ++ py_str file ++ " " ++ nl
                            else "put " ++ nl))] s,
       w) /\
    (forall t local new_name options,
        transfer t file outdir local new_name options s w
        = (Ok tt,
           append_steps
             [step_for s (PStr ((if local then "lcd " else "cd ") ++ py_str outdir));
              step_for s (PStr (command_of (transfer_words t file new_name options)))] s,
           w)).
Proof.
  intros s w file outdir Hm To. split.
  - rewrite put_unfold. erewrite bind_ok.
    2:{ apply transfer_sftp. rewrite mode_after_mkdir. exact Hm. }
    unfold when, ret, after_mkdir, cd_steps, cd_command. rewrite To.
    rewrite append_steps_app. unfold transfer_words, command_of. simpl.
    destruct (truthy file); reflexivity.
  - intros t local new_name options. rewrite transfer_sftp by exact Hm.
    unfold cd_steps, cd_command. rewrite To. destruct local; reflexivity.
Qed.

Lemma put_appends_mkdir_cd_put_witness :
  actions
    (snd (fst (put (PStr "data.csv") (PStr "remote/dir") PNone [] false
                   (Sample.session "sftp") Sample.world)))
  = [step_for (Sample.session "sftp") (PStr "mkdir remote/dir");
     step_for (Sample.session "sftp") (PStr "cd remote/dir");
     step_for (Sample.session "sftp") (PStr ("put data.csv " ++ nl))].
Proof.
  rewrite (proj1 (put_appends_mkdir_cd_put (Sample.session "sftp") Sample.world
                    (PStr "data.csv") (PStr "remote/dir") eq_refl eq_refl)).
  reflexivity.
Defined.

(** C2 as stated fails on the transfer step: after [put("data.csv",
    outdir="remote/dir")] the third step does not send [put data.csv]; it
    sends [put data.csv], a space and a newline. *)
Lemma put_transfer_step_is_not_put_file :
  let s := Sample.session "sftp" in
  let s' := snd (fst (put (PStr "data.csv") (PStr "remote/dir") PNone [] false
                          s Sample.world)) in
  actions s' <> [step_for s (PStr "mkdir remote/dir");
                 step_for s (PStr "cd remote/dir");
                 step_for s (PStr "put data.csv")] /\
  List.nth_error (actions s') 2 = Some (step_for s (PStr ("put data.csv " ++ nl))).
Proof.
  split; [discriminate | reflexivity].
Qed.

(** ** C1: run *)

Lemma frame_refl s : frame s s.
Proof. destruct s; reflexivity. Qed.

Lemma frame_trans s1 s2 s3 : frame s1 s2 -> frame s2 s3 -> frame s1 s3.
Proof. unfold frame. intros H12 H23. rewrite H23. rewrite H12. reflexivity. Qed.

Create HintDb framed.

Lemma framed_ret {A} (a : A) : framed (ret a).
Proof. intros s w r s' w' [= _ <- _]. apply frame_refl. Qed.

Lemma framed_raise {A} e : framed (@raise A e).
Proof. intros s w r s' w' [= _ <- _]. apply frame_refl. Qed.

Lemma framed_get_self : framed get_self.
Proof. intros s w r s' w' [= _ <- _]. apply frame_refl. Qed.

Lemma framed_set_world f : framed (set_world f).
Proof. intros s w r s' w' [= _ <- _]. apply frame_refl. Qed.

Lemma framed_set_actions l : framed (set_self (set_actions l)).
Proof. intros s w r s' w' [= _ <- _]. reflexivity. Qed.

Lemma framed_update_actions f : framed (set_self (fun s => set_actions (f s) s)).
Proof. intros s w r s' w' [= _ <- _]. reflexivity. Qed.

Lemma framed_set_group g : framed (set_self (set_group g)).
Proof. intros s w r s' w' [= _ <- _]. destruct s; reflexivity. Qed.

Lemma framed_bind {A B} (m : M A) (k : A -> M B) :
  framed m -> (forall a, framed (k a)) -> framed (bind m k).
Proof.
  intros Hm Hk s w r s' w'. unfold bind.
  destruct (m s w) as [[[a|e] s1] w1] eqn:E; intros H.
  - eapply frame_trans; [eapply Hm, E | eapply Hk, H].
  - injection H as _ <- _. eapply Hm, E.
Qed.

Lemma framed_when b m : framed m -> framed (when b m).
Proof. intros H. destruct b; [exact H | apply framed_ret]. Qed.

Lemma framed_for_each {A} (l : list A) body :
  (forall x, framed (body x)) -> framed (for_each l body).
Proof.
  intros H. induction l as [|x l IH]; simpl.
  - apply framed_ret.
  - apply framed_bind; [apply H | intros _; exact IH].
Qed.

Lemma framed_if {A} (b : bool) (m1 m2 : M A) :
  framed m1 -> framed m2 -> framed (if b then m1 else m2).
Proof. destruct b; auto. Qed.

#[export] Hint Resolve framed_ret framed_raise framed_get_self framed_set_world
  framed_set_actions framed_update_actions framed_set_group framed_when framed_for_each framed_if
  : framed.
#[export] Hint Extern 2 (framed (bind _ _)) =>
  (apply framed_bind; [|intros ?]) : framed.

Lemma framed_add_step input e : framed (add_step input e).
Proof.
  unfold add_step. apply framed_bind; [auto with framed | intros s].
  apply (framed_update_actions (fun s0 => (actions s0 ++ [_])%list)).
Qed.

#[export] Hint Resolve framed_add_step : framed.

Lemma framed_basic_step commands e : framed (basic_step commands e).
Proof. unfold basic_step. destruct commands; auto with framed. Qed.

#[export] Hint Resolve framed_basic_step : framed.

Lemma framed_cwd dir local : framed (cwd dir local).
Proof. unfold cwd. destruct local; auto 10 with framed. Qed.

#[export] Hint Resolve framed_cwd : framed.

Lemma framed_check_numeric item : framed (check_numeric item).
Proof.
  unfold check_numeric. destruct (snd item); auto with framed.
Qed.

#[export] Hint Resolve framed_check_numeric : framed.

Lemma framed_set_permissions files g octal : framed (set_permissions files g octal).
Proof. unfold set_permissions. auto 12 with framed. Qed.

#[export] Hint Resolve framed_set_permissions : framed.

Lemma framed_transfer t file outdir local new_name options :
  framed (transfer t file outdir local new_name options).
Proof. unfold transfer. destruct options; auto 12 with framed. Qed.

#[export] Hint Resolve framed_transfer : framed.

Lemma framed_Path_of x : framed (Path_of x).
Proof. destruct x; simpl; auto with framed. Qed.

#[export] Hint Resolve framed_Path_of : framed.

Lemma framed_put file outdir new_name options set_perms :
  framed (put file outdir new_name options set_perms).
Proof. unfold put. auto 12 with framed. Qed.

Lemma framed_get_steps l sep : framed (get_steps l sep).
Proof. unfold get_steps. auto with framed. Qed.

#[export] Hint Resolve framed_put framed_get_steps : framed.

Lemma framed_preview_steps : framed preview_steps.
Proof. unfold preview_steps, get_actions, Sys.print. auto 12 with framed. Qed.

Lemma framed_run : framed run.
Proof.
  unfold run, full_command, Sys.system.
  apply framed_bind; [auto with framed | intros s0].
  apply framed_bind; [destruct (String.eqb _ _); [|destruct (String.eqb _ _)];
                      auto with framed | intros ?].
  auto 12 with framed.
Qed.

Lemma framed_perform c : framed (perform c).
Proof.
  destruct c; simpl; auto with framed.
  - unfold pwd. auto with framed.
  - unfold ls. auto with framed.
  - unfold get. auto with framed.
  - unfold clear. auto with framed.
  - apply framed_preview_steps.
  - apply framed_run.
Qed.

Lemma built_from_frame s0 s : built_from s0 s -> frame s0 s.
Proof.
  induction 1 as [|s c w r s' w' _ IH H].
  - apply frame_refl.
  - eapply frame_trans; [exact IH | eapply framed_perform, H].
Qed.

Example step_text :
  StepM.repr nl (StepM.make (PStr "sftp>") (PStr "pwd"))
  = "expect " ++ dq ++ "sftp>" ++ dq ++ nl ++ "send " ++ dq ++ "pwd" ++ nl ++ dq ++ nl.
Proof. reflexivity. Qed.

Lemma run_in_mode s w :
  mode s = "sftp" \/ mode s = "ssh" ->
  pw_steps s <> [] ->
  let steps := (actions s ++ [step_for s (PStr (exit_command (mode s)))])%list in
  run s w
  = (Ok tt, set_actions steps s,
     Sys.log (System (open s ++ entry s
                      ++ join "" (List.map (StepM.repr nl) (pw_steps s))
                      ++ join "" (List.map (StepM.repr nl) steps)
                      ++ close s)) w).
Proof.
  intros Hm Hpw steps. unfold run. cbv [bind get_self].
  assert (E : (if String.eqb (mode s) "sftp" then ret "quit"
               else if String.eqb (mode s) "ssh" then ret "exit"
               else raise (UnboundLocalError "end")) s w
              = (Ok (exit_command (mode s)), s, w)).
  { unfold exit_command. destruct Hm as [-> | ->]; reflexivity. }
  rewrite E. rewrite add_step_default.
  unfold full_command, get_steps, append_steps.
  cbv [bind get_self ret Sys.system set_world].
  cbn [pw_steps actions open entry close set_actions].
  destruct (pw_steps s) as [|a l] eqn:P; [contradiction|].
  subst steps. destruct (actions s); reflexivity.
Qed.

(** C1, as the code has it. On a [Scripter] that was constructed in sftp or
    ssh mode and has since been used through builder calls only, [run]
    appends exactly one step, sending [quit] in sftp mode and [exit] in ssh
    mode, and hands to the command interpreter the text made of, in order:
    the opening lines with the spawn directive [<mode> <username>@<site>],
    the password step, the passcode step sending 1, every accumulated step in
    append order, and the closing lines. *)
Theorem run_appends_exit_and_serializes :
  forall depth u p st m g c site_type w0 s0 w1 s w,
    new depth u p st m g c site_type w0 = (Ok tt, s0, w1) ->
    built_from s0 s ->
    m = "sftp" \/ m = "ssh" ->
    let exit_step := step_for s (PStr (exit_command m)) in
    run s w
    = (Ok tt, append_steps [exit_step] s,
       Sys.log (System (script m (username s) (site s) (password s)
                               (actions s ++ [exit_step]))) w)
    /\ exit_command "sftp" = "quit" /\ exit_command "ssh" = "exit".
Proof.
  intros depth u p st m g c site_type w0 s0 w1 s w Hnew Hb Hm exit_step.
  split; [|split; reflexivity].
  apply new_inv in Hnew. destruct Hnew as (s1 & r & -> & _).
  apply built_from_frame in Hb. unfold frame in Hb.
  assert (Hmode : mode s = m) by (rewrite Hb; reflexivity).
  assert (Hu : username s = username s1) by (rewrite Hb; reflexivity).
  assert (Hp : password s = password s1) by (rewrite Hb; reflexivity).
  assert (Hs : site s = site s1) by (rewrite Hb; reflexivity).
  assert (Ho : open s = open (finish_init m s1)) by (rewrite Hb; reflexivity).
  assert (He : entry s = entry (finish_init m s1)) by (rewrite Hb; reflexivity).
  assert (Hc : close s = close (finish_init m s1)) by (rewrite Hb; reflexivity).
  assert (Hw : pw_steps s = pw_steps (finish_init m s1)) by (rewrite Hb; reflexivity).
  rewrite run_in_mode.
  - subst exit_step. unfold append_steps, script.
    rewrite Hmode, Hu, Hp, Hs, Ho, He, Hc, Hw. reflexivity.
  - rewrite Hmode. exact Hm.
  - rewrite Hw. discriminate.
Qed.

Lemma run_appends_exit_and_serializes_witness :
  let s := snd (fst (pwd (Sample.session "ssh") Sample.world)) in
  run s Sample.world
  = (Ok tt, append_steps [step_for s (PStr "exit")] s,
     Sys.log (System (script "ssh" (PStr "bob") (PStr "hpc.edu") (PStr "pw")
                             [step_for s (PStr "pwd"); step_for s (PStr "exit")]))
             Sample.world).
Proof.
  intros s.
  apply (proj1 (run_appends_exit_and_serializes
                  1 (PStr "bob") (PStr "pw") (PStr "hpc.edu") "ssh" PNone (PStr "cfg")
                  "hpc" Sample.world (Sample.session "ssh") Sample.world s Sample.world
                  (sample_session_built "ssh")
                  (built_call _ _ CallPwd Sample.world (Ok tt) s Sample.world
                              (built_start _) eq_refl)
                  (or_intror eq_refl))).
Defined.

(** C1 as stated fails for a [Scripter] whose password was reset: the object
    constructed with the password [pw] holds [new-pw] after
    [reset_password], and [run] still sends [pw], since the spawn directive
    and the password step were built by the constructor.  It fails also in a
    mode that is neither sftp nor ssh, where [run] raises and appends
    nothing. *)
Lemma run_after_reset_sends_old_password :
  let w := mkWorld {[ "cfg" := File "" ]} "/home/bob" "/work" ["new-pw"; "1001"] [] in
  let s0 := Sample.session "sftp" in
  let s := snd (fst (reset_password 1 s0 w)) in
  let exit_step := step_for s (PStr (exit_command "sftp")) in
  new 1 (PStr "bob") (PStr "pw") (PStr "hpc.edu") "sftp" PNone (PStr "cfg") "hpc"
      Sample.world
  = (Ok tt, s0, Sample.world) /\
  fst (fst (reset_password 1 s0 w)) = Ok tt /\
  username s = PStr "bob" /\ site s = PStr "hpc.edu" /\ password s = PStr "new-pw" /\
  run s Sample.world
  = (Ok tt, append_steps [exit_step] s,
     Sys.log (System (script "sftp" (PStr "bob") (PStr "hpc.edu") (PStr "pw")
                             (actions s ++ [exit_step])))
             Sample.world) /\
  run s Sample.world
  <> (Ok tt, append_steps [exit_step] s,
      Sys.log (System (script "sftp" (username s) (site s) (password s)
                              (actions s ++ [exit_step])))
              Sample.world) /\
  run (Sample.session "scp") Sample.world
  = (Raise (UnboundLocalError "end"), Sample.session "scp", Sample.world).
Proof.
  intros w s0 s exit_step.
  assert (R : run s Sample.world
              = (Ok tt, append_steps [exit_step] s,
                 Sys.log (System (script "sftp" (PStr "bob") (PStr "hpc.edu") (PStr "pw")
                                         (actions s ++ [exit_step])))
                         Sample.world)) by (vm_compute; reflexivity).
  split; [vm_compute; reflexivity|]. split; [vm_compute; reflexivity|].
  split; [reflexivity|]. split; [reflexivity|]. split; [reflexivity|].
  split; [exact R|]. split; [|reflexivity].
  rewrite R. intros H. vm_compute in H. discriminate H.
Qed.

(** ** C3: set_permissions *)

Lemma all_numeric_string_of_uint d :
  all_numeric (NilEmpty.string_of_uint d) = true.
Proof. induction d; simpl; try rewrite IHd; reflexivity. Qed.

Lemma isnumeric_of_Z z : isnumeric (of_Z z) = (0 <=? z).
Proof.
  unfold of_Z. destruct z as [|q|q]; try reflexivity.
  - change (0 <=? Z.pos q) with true. unfold Z.to_int, NilZero.string_of_int,
      NilZero.string_of_uint.
    pose proof (all_numeric_string_of_uint (Pos.to_uint q)) as H.
    destruct (Pos.to_uint q); try reflexivity; simpl in H |- *; exact H.
Qed.

Lemma of_Z_nonempty z : String.eqb (of_Z z) "" = false.
Proof.
  unfold of_Z. destruct z as [|q|q]; try reflexivity.
  unfold Z.to_int, NilZero.string_of_int, NilZero.string_of_uint.
  destruct (Pos.to_uint q); reflexivity.
Qed.

Lemma check_numeric_spec n x s w :
  check_numeric (n, x) s w
  = if rejected x
    then (Raise (TypeError (invalid_input (py_str x) n)), s, w)
    else (Ok tt, s, w).
Proof.
  unfold check_numeric, rejected. cbv zeta. cbn [fst snd].
  destruct x as [| b | z | t | q]; try reflexivity; cbn [py_str].
  - rewrite isnumeric_of_Z, of_Z_nonempty.
    destruct (Z.leb_spec 0 z) as [H|H], (Z.ltb_spec z 0) as [H'|H']; try lia; reflexivity.
  - destruct (_ && _)%bool; reflexivity.
Qed.

Lemma permission_loop octal files : forall s w,
  for_each files (fun file =>
    basic_step [PStr "chmod"; octal; file] PNone ;;
    s <- get_self ;;
    when (truthy (group s)) (basic_step [PStr "chgrp"; group s; file] PNone)) s w
  = (Ok tt, append_steps (permission_steps (expect s) (group s) octal files) s, w).
Proof.
  induction files as [|file files IH]; intros s w.
  - simpl. rewrite append_steps_nil. reflexivity.
  - cbn [for_each]. erewrite bind_ok.
    2:{ erewrite bind_ok by apply basic_step_default.
        cbv [bind get_self when]. cbn [group append_steps set_actions].
        instantiate (1 := w).
        instantiate (1 := append_steps
                            (StepM.make (expect s) (PStr (command_of [PStr "chmod"; octal; file]))
                             :: (if truthy (group s)
                                 then [StepM.make (expect s)
                                         (PStr (command_of [PStr "chgrp"; group s; file]))]
                                 else [])) s).
        instantiate (1 := tt).
        destruct (truthy (group s)).
        - rewrite basic_step_default. unfold append_steps. cbn [actions set_actions].
          rewrite <- app_assoc. reflexivity.
        - reflexivity. }
    rewrite IH. rewrite append_steps_app. reflexivity.
Qed.

Lemma set_group_same s : set_group (group s) s = s.
Proof. destruct s; reflexivity. Qed.

(** C3, as the code has it. In sftp mode [set_permissions] raises
    [TypeError] whenever the effective group or the octal argument is a
    non-empty text that is not numeric or a negative integer, the group
    being checked first; otherwise, and in particular whenever each of the
    two is a numeric text or a non-negative integer, it completes and has
    appended, per file, a [chmod] step and, when the group is set, a [chgrp]
    step.  The group argument has been taken into the object either way. *)
Theorem set_permissions_sftp :
  forall s w files group_arg octal,
    mode s = "sftp" ->
    let s1 := set_group (effective_group s group_arg) s in
    set_permissions files group_arg octal s w
    = (if rejected (group s1)
       then (Raise (TypeError (invalid_input (py_str (group s1)) "group")), s1, w)
       else if rejected octal
       then (Raise (TypeError (invalid_input (py_str octal) "octal")), s1, w)
       else (Ok tt,
             append_steps
               (permission_steps (expect s) (group s1) octal (files_of files)) s1,
             w))
    /\ (forall t, isnumeric t = true -> rejected (PStr t) = false)
    /\ (forall z, 0 <= z -> rejected (PInt z) = false)
    /\ (forall t, isnumeric t = false -> t <> "" -> rejected (PStr t) = true)
    /\ (forall z, z < 0 -> rejected (PInt z) = true).
Proof.
  intros s w files group_arg octal Hm s1. split.
  - unfold set_permissions. fold (files_of files).
    erewrite bind_ok by reflexivity.
    erewrite bind_ok with (s1 := s1) (w1 := w) (a := tt).
    2:{ subst s1. unfold effective_group, when.
        destruct (_ && _)%bool; [reflexivity|]. rewrite set_group_same. reflexivity. }
    erewrite bind_ok by reflexivity.
    assert (Hm1 : mode s1 = "sftp") by exact Hm. rewrite Hm1.
    change (String.eqb "sftp" "sftp") with true. unfold when.
    cbn [for_each]. unfold bind at 1 2. rewrite check_numeric_spec.
    destruct (rejected (group s1)); [reflexivity|].
    unfold bind at 1. rewrite check_numeric_spec.
    destruct (rejected octal); [reflexivity|].
    unfold ret. rewrite permission_loop. reflexivity.
  - repeat split.
    + intros t Ht. unfold rejected. rewrite Ht. reflexivity.
    + intros z Hz. unfold rejected. apply Z.ltb_ge. exact Hz.
    + intros t Ht Hne. unfold rejected. rewrite Ht.
      destruct (String.eqb_spec t "") as [E|E]; [contradiction | reflexivity].
    + intros z Hz. unfold rejected. apply Z.ltb_lt. exact Hz.
Qed.

Lemma set_permissions_sftp_witness :
  set_permissions (OneFile "a.txt") (PStr "1001") (PStr "0664")
                  (Sample.session "sftp") Sample.world
  = (Ok tt,
     append_steps
       [step_for (Sample.session "sftp") (PStr "chmod 0664 a.txt");
        step_for (Sample.session "sftp") (PStr "chgrp 1001 a.txt")]
       (set_group (PStr "1001") (Sample.session "sftp")),
     Sample.world).
Proof.
  rewrite (proj1 (set_permissions_sftp (Sample.session "sftp") Sample.world
                    (OneFile "a.txt") (PStr "1001") (PStr "0664") eq_refl)).
  reflexivity.
Defined.

(** C3 as stated fails both ways: in sftp mode the integers 1001 and -1 are
    refused with [TypeError], and the empty text, which is not numeric, is
    accepted as the octal argument. *)
Lemma set_permissions_refuses_negative_accepts_empty :
  set_permissions (OneFile "a.txt") (PInt 1001) (PInt (-1))
                  (Sample.session "sftp") Sample.world
  = (Raise (TypeError (invalid_input "-1" "octal")),
     set_group (PInt 1001) (Sample.session "sftp"), Sample.world)
  /\ isnumeric "" = false
  /\ set_permissions (OneFile "a.txt") PNone (PStr "")
                     (Sample.session "sftp") Sample.world
     = (Ok tt,
        append_steps [step_for (Sample.session "sftp") (PStr "chmod a.txt")]
                     (Sample.session "sftp"),
        Sample.world).
Proof. repeat split. Qed.

(** ** C8: preview_steps *)

Lemma append_cons c x y : String c x ++ y = String c (x ++ y).
Proof. reflexivity. Qed.

Lemma append_nil y : "" ++ y = y.
Proof. reflexivity. Qed.

Lemma replace_char_absent (q : string) y : forall x,
  String.length q = 1%nat ->
  contains q x = false ->
  replace_from q "" O (x ++ y) = x ++ replace_from q "" O y.
Proof.
  intros x Hq. destruct q as [|a [|b q]]; try discriminate Hq.
  induction x as [|c x IH]; intros H.
  - reflexivity.
  - cbn [contains] in H. apply orb_false_elim in H. destruct H as [H1 H2].
    rewrite !append_cons. cbn [replace_from String.prefix]. cbn [String.prefix] in H1.
    destruct (ascii_dec a c); [destruct x; discriminate H1|].
    rewrite IH by exact H2. reflexivity.
Qed.

Lemma no_send_open_prefix x :
  contains dq x = false ->
  String.prefix send_open (x ++ nl ++ dq) = false.
Proof.
  intros H. change send_open with (String "s" (String "e" (String "n" (String "d"
    (String " " (String dquote "")))))).
  destruct x as [|c1 x]; [reflexivity|].
  rewrite append_cons. cbn [String.prefix].
  destruct (ascii_dec "s" c1) as [<-|]; [|reflexivity].
  destruct x as [|c2 x]; [reflexivity|].
  rewrite append_cons. cbn [String.prefix].
  destruct (ascii_dec "e" c2) as [<-|]; [|reflexivity].
  destruct x as [|c3 x]; [reflexivity|].
  rewrite append_cons. cbn [String.prefix].
  destruct (ascii_dec "n" c3) as [<-|]; [|reflexivity].
  destruct x as [|c4 x]; [reflexivity|].
  rewrite append_cons. cbn [String.prefix].
  destruct (ascii_dec "d" c4) as [<-|]; [|reflexivity].
  destruct x as [|c5 x]; [reflexivity|].
  rewrite append_cons. cbn [String.prefix].
  destruct (ascii_dec " " c5) as [<-|]; [|reflexivity].
  destruct x as [|c6 x]; [reflexivity|].
  rewrite append_cons. cbn [String.prefix].
  destruct (ascii_dec dquote c6) as [<-|]; [|reflexivity].
  cbn [contains] in H.
  do 5 (apply orb_false_elim in H; destruct H as [_ H]).
  apply orb_false_elim in H. destruct H as [H _].
  unfold dq in H. cbn [String.prefix] in H.
  destruct (ascii_dec dquote dquote); [destruct x; discriminate H | congruence].
Qed.

Lemma replace_send_open_absent : forall x,
  contains dq x = false ->
  replace_from send_open "" O (x ++ nl ++ dq) = x ++ nl ++ dq.
Proof.
  induction x as [|c x IH]; intros H.
  - reflexivity.
  - pose proof (no_send_open_prefix (String c x) H) as P.
    cbn [contains] in H. apply orb_false_elim in H. destruct H as [_ H2].
    rewrite append_cons in P |- *. cbn [replace_from]. rewrite P.
    rewrite IH by exact H2. reflexivity.
Qed.

Lemma replace_send_open_head rest :
  replace send_open "" ("send " ++ dq ++ rest) = replace_from send_open "" O rest.
Proof. destruct rest; reflexivity. Qed.

(** For a command without a double quote, [get_actions] yields the command
    and the newline of the send directive. *)
Lemma action_text_plain e input :
  contains dq (py_str input) = false ->
  action_text (StepM.make e input) = py_str input ++ nl.
Proof.
  intros H. unfold action_text, strip_none, StepM.make, StepM.init. cbn [action].
  fold send_open. rewrite replace_send_open_head.
  rewrite replace_send_open_absent by exact H.
  unfold replace. rewrite replace_char_absent by (reflexivity || exact H).
  rewrite replace_char_absent with (x := nl) (y := dq) by reflexivity.
  reflexivity.
Qed.

Lemma print_each (l : list (Z * string)) : forall s w,
  for_each l (fun a => Sys.print (str_of_pair a)) s w
  = (Ok tt, s, logged (List.map (fun a => Print (str_of_pair a)) l) w).
Proof.
  induction l as [|a l IH]; intros s w.
  - unfold logged. simpl. rewrite app_nil_r. destruct w; reflexivity.
  - cbn [for_each]. unfold bind, Sys.print at 1, set_world. rewrite IH.
    unfold logged, Sys.log. cbn. rewrite <- app_assoc. reflexivity.
Qed.

Lemma enumerate_from_length {A} (l : list A) : forall i,
  List.length (enumerate_from i l) = List.length l.
Proof. induction l as [|x l IH]; intros i; simpl; [|rewrite IH]; reflexivity. Qed.

Lemma enumerate_from_nth {A} (l : list A) : forall i n x,
  List.nth_error l n = Some x ->
  List.nth_error (enumerate_from i l) n = Some (i + Z.of_nat n, x).
Proof.
  induction l as [|y l IH]; intros i n x H; destruct n as [|n]; try discriminate H.
  - injection H as ->. simpl. rewrite Z.add_0_r. reflexivity.
  - cbn [enumerate_from List.nth_error]. rewrite (IH (i + 1) n x H).
    f_equal. f_equal. lia.
Qed.

(** C8, as the code has it. [preview_steps] prints a heading and then
    exactly one line per accumulated step, in append order; the line is the
    pair of the step's index and a text, as Python prints a pair; the text is
    the one [get_actions] yields for the step, and for a step whose command
    holds no double quote it is the command followed by a newline. *)
Theorem preview_steps_lines :
  forall s w,
    preview_steps s w
    = (Ok tt, s,
       logged (Print (nl ++ "Command preview:") :: List.map Print (preview_lines s)) w)
    /\ List.length (preview_lines s) = List.length (actions s)
    /\ (forall n st,
           List.nth_error (actions s) n = Some st ->
           List.nth_error (preview_lines s) n
           = Some ("(" ++ of_Z (Z.of_nat n) ++ ", " ++ repr (action_text st) ++ ")"))
    /\ (forall e input,
           contains dq (py_str input) = false ->
           action_text (StepM.make e input) = py_str input ++ nl).
Proof.
  intros s w. repeat split.
  - unfold preview_steps, get_actions. cbv [bind Sys.print set_world get_self ret].
    rewrite print_each. unfold logged, Sys.log, preview_lines. cbn.
    rewrite <- app_assoc, List.map_map. reflexivity.
  - unfold preview_lines, enumerate.
    rewrite List.length_map, enumerate_from_length, List.length_map. reflexivity.
  - intros n st H. unfold preview_lines, enumerate.
    rewrite (List.map_nth_error str_of_pair n _
               (enumerate_from_nth _ 0 n (action_text st)
                  (List.map_nth_error action_text n _ H))).
    reflexivity.
  - intros e input H. apply action_text_plain. exact H.
Qed.

Lemma preview_steps_lines_witness :
  let s := snd (fst (ls (PStr "data") (Sample.session "sftp") Sample.world)) in
  List.nth_error (preview_lines s) 0 = Some "(0, 'ls -la data\n')"
  /\ action_text (step_for s (PStr "ls -la data")) = "ls -la data" ++ nl.
Proof.
  intros s. split.
  - apply (proj1 (proj2 (proj2 (preview_steps_lines s Sample.world))) 0%nat
             (step_for s (PStr "ls -la data"))).
    reflexivity.
  - apply (proj2 (proj2 (proj2 (preview_steps_lines s Sample.world)))
             (expect s) (PStr "ls -la data")).
    reflexivity.
Defined.

(** C8 as stated fails: the line printed for the step sending [echo "hi"]
    shows [echo hi]; the double quotes of the command are gone, and the line
    carries the index and Python's quoting of the text besides.  The latter
    holds of every step: the line printed for [pwd] is the pair, not the
    command. *)
Lemma preview_drops_quotes_of_command :
  let command := "echo " ++ dq ++ "hi" ++ dq in
  let s := snd (fst (add_step (PStr command) PNone (Sample.session "sftp")
                              Sample.world)) in
  let s2 := snd (fst (pwd (Sample.session "sftp") Sample.world)) in
  trace (snd (preview_steps s Sample.world))
  = [Print (nl ++ "Command preview:"); Print "(0, 'echo hi\n')"]
  /\ contains command "(0, 'echo hi\n')" = false
  /\ trace (snd (preview_steps s2 Sample.world))
     = [Print (nl ++ "Command preview:"); Print "(0, 'pwd\n')"]
  /\ "(0, 'pwd\n')" <> "pwd".
Proof. repeat split. discriminate. Qed.

(** ** Paths and the home-directory shorthand *)

Lemma append_assoc (a b c : string) : (a ++ b) ++ c = a ++ b ++ c.
Proof. induction a as [|x a IH]; [reflexivity|]. rewrite !append_cons, IH. reflexivity. Qed.

Lemma length_append (a b : string) :
  String.length (a ++ b) = (String.length a + String.length b)%nat.
Proof. induction a as [|x a IH]; [reflexivity|]. rewrite append_cons. simpl. rewrite IH. reflexivity. Qed.

Lemma prefix_empty s : String.prefix "" s = true.
Proof. destruct s; reflexivity. Qed.

(** [Path("~")] is among the parents of [c] only when [c] is relative, starts
    with the component [~] and has a further component. *)
Lemma tilde_among_parents c :
  Pathlib.mem Pathlib.tilde (Pathlib.parents c) = true ->
  anchor c = "" /\ exists x rest, names c = "~" :: x :: rest.
Proof.
  unfold Pathlib.mem, Pathlib.parents. intros H.
  apply List.existsb_exists in H. destruct H as (q & Hin & Hq).
  apply bool_decide_eq_true_1 in Hq. subst q.
  apply List.in_map_iff in Hin. destruct Hin as (k & Hk & Hin).
  apply List.in_rev, List.in_seq in Hin.
  injection Hk as Ha Hn. split; [exact Ha|].
  destruct (names c) as [|n1 [|n2 rest]] eqn:E.
  - simpl in Hin. lia.
  - simpl in Hin. assert (k = 0%nat) by lia. subst k. discriminate Hn.
  - destruct k as [|[|k]]; try discriminate Hn.
    injection Hn as ->. eauto.
Qed.

Lemma to_str_names c :
  names c <> [] -> Pathlib.to_str c = anchor c ++ join "/" (names c).
Proof.
  unfold Pathlib.to_str. destruct (names c) as [|n l]; [congruence|].
  destruct (anchor c); reflexivity.
Qed.

Lemma to_str_tilde c :
  Pathlib.mem Pathlib.tilde (Pathlib.parents c) = true ->
  exists rest, Pathlib.to_str c = String "~" rest.
Proof.
  intros H. apply tilde_among_parents in H. destruct H as (Ha & x & rest & Hn).
  rewrite to_str_names by (rewrite Hn; discriminate). rewrite Ha, Hn.
  eexists. reflexivity.
Qed.

Lemma set_config_same s : set_config (config s) s = s.
Proof. destruct s; reflexivity. Qed.

(** The first statement of [get_credentials] always completes: the branch
    that raises the configuration error cannot be reached. *)
Lemma resolve_config_spec s w :
  resolve_config s w = (Ok tt, set_config (Some (resolved_config s w)) s, w).
Proof.
  unfold resolve_config, resolved_config, expand_home. cbv [bind get_self].
  destruct (config s) as [c|] eqn:Ec.
  - unfold when. destruct (Pathlib.mem Pathlib.tilde (Pathlib.parents c)) eqn:Em.
    + destruct (to_str_tilde c Em) as (rest & ->). reflexivity.
    + rewrite <- Ec, set_config_same. reflexivity.
  - reflexivity.
Qed.

(** C9. The configuration error is never raised: settling the config path
    completes for every path, a path with [~] in a later position included,
    which is kept as it is, while a leading [~] is replaced by the home
    directory; [Scripter(username="bob", password="pw", site="hpc.edu",
    config="a/~/b.txt")] is constructed, and the credentials are written to
    [a/~/b.txt]. *)
Theorem config_tilde_inside_is_accepted :
  (forall s w,
      resolve_config s w = (Ok tt, set_config (Some (resolved_config s w)) s, w)) /\
  (forall w, expand_home w (Pathlib.of_str "a/~/b.txt") = mkPath "" ["a"; "~"; "b.txt"]) /\
  expand_home (mkWorld ∅ "/home/bob" "/work" [] []) (Pathlib.of_str "~/cfg/b.txt")
  = mkPath "/" ["home"; "bob"; "cfg"; "b.txt"] /\
  (exists s w',
      new 1 (PStr "bob") (PStr "pw") (PStr "hpc.edu") "sftp" PNone (PStr "a/~/b.txt")
          "hpc" (mkWorld ∅ "/home/bob" "/work" [] [])
      = (Ok tt, s, w') /\
      config s = Some (mkPath "" ["a"; "~"; "b.txt"]) /\
      fs w' !! "a/~/b.txt" = Some (File ("username=bob" ++ nl ++ "password=pw" ++ nl))).
Proof.
  split; [exact resolve_config_spec|]. split; [reflexivity|]. split; [reflexivity|].
  eexists. eexists. split; [|split].
  - vm_compute. reflexivity.
  - reflexivity.
  - vm_compute. reflexivity.
Qed.

(** ** C6: credentials read from the config file *)

Lemma parse_anchor_slash s : Pathlib.parse_anchor (String "/" s) <> "".
Proof.
  destruct s as [|c1 s1]; [discriminate|].
  destruct c1 as [[] [] [] [] [] [] [] []]; try discriminate.
  destruct s1 as [|c2 s2]; [discriminate|].
  destruct c2 as [[] [] [] [] [] [] [] []]; discriminate.
Qed.

Lemma mem_tilde_anchored c :
  anchor c <> "" -> Pathlib.mem Pathlib.tilde (Pathlib.parents c) = false.
Proof.
  intros Ha. destruct (Pathlib.mem _ _) eqn:E; [|reflexivity].
  apply tilde_among_parents in E. destruct E as [E _]. contradiction.
Qed.

Lemma home_text_slash w :
  String.prefix "/" (home w) = true ->
  exists r, Pathlib.to_str (Pathlib.of_str (home w)) = String "/" r.
Proof.
  intros H. destruct (home w) as [|c h]; [discriminate H|].
  cbn [String.prefix] in H. destruct (ascii_dec "/" c) as [<-|]; [|discriminate H].
  pose proof (parse_anchor_slash h) as Hp.
  unfold Pathlib.to_str, Pathlib.of_str. cbn [anchor names].
  destruct (Pathlib.parse_anchor (String "/" h)) as [|a r] eqn:E; [congruence|].
  assert (a = "/"%char) as ->.
  { revert E. clear.
    destruct h as [|c1 s1]; [intros [= <- _]; reflexivity|].
    destruct c1 as [[] [] [] [] [] [] [] []]; try (intros [= <- _]; reflexivity).
    destruct s1 as [|c2 s2]; [intros [= <- _]; reflexivity|].
    destruct c2 as [[] [] [] [] [] [] [] []]; intros [= <- _]; reflexivity. }
  eexists. reflexivity.
Qed.

(** With an absolute home directory, the settled path is settled for good:
    looking at it again changes nothing. *)
Lemma expand_home_stable w c :
  String.prefix "/" (home w) = true ->
  Pathlib.mem Pathlib.tilde (Pathlib.parents (expand_home w c)) = false.
Proof.
  intros Hh. unfold expand_home.
  destruct (Pathlib.mem Pathlib.tilde (Pathlib.parents c)) eqn:Em; [|exact Em].
  destruct (to_str_tilde c Em) as (rest & ->).
  destruct (home_text_slash w Hh) as (r & ->).
  apply mem_tilde_anchored.
  unfold replace. cbn [replace_from String.prefix].
  destruct (ascii_dec "~" "~") as [_|N]; [|congruence].
  rewrite prefix_empty. rewrite append_cons.
  unfold Pathlib.of_str. cbn [anchor]. apply parse_anchor_slash.
Qed.

Lemma for_each_map {A B} (f : A -> B) (body : B -> M unit) (l : list A) :
  for_each (List.map f l) body = for_each l (fun x => body (f x)).
Proof. induction l as [|x l IH]; simpl; [|rewrite IH]; reflexivity. Qed.

(** With both credentials in hand and the config file in place,
    [get_credentials] returns at once and touches nothing. *)
Lemma get_credentials_ready depth save headless s w c :
  config s = Some c ->
  Pathlib.mem Pathlib.tilde (Pathlib.parents c) = false ->
  truthy (username s) = true ->
  truthy (password s) = true ->
  is_Some (Sys.lookup_path c w) ->
  get_credentials (S depth) save false headless s w
  = (Ok (username s, password s), s, w).
Proof.
  intros Hc Hm Hu Hp He. cbn [get_credentials].
  erewrite bind_ok.
  2:{ rewrite resolve_config_spec. unfold resolved_config, expand_home.
      rewrite Hc, Hm, <- Hc, set_config_same. reflexivity. }
  erewrite bind_ok by reflexivity.
  rewrite Hu, Hp. cbn [negb orb when].
  erewrite bind_ok by reflexivity.
  unfold the_config. cbv [bind get_self]. rewrite Hc.
  unfold ret, Sys.exists_. cbv [bind get_world ret].
  rewrite (bool_decide_eq_true_2 _ He).
  rewrite andb_false_r. reflexivity.
Qed.

Lemma read_alice c w s content :
  Sys.lookup_path c w = Some (File content) ->
  List.map strip (Sys.lines content) = alice_lines ->
  read_credentials c s w
  = (Ok tt, set_password (PStr "secret") (set_username (PStr "alice") s), w).
Proof.
  intros Hf Hl. unfold read_credentials.
  erewrite bind_ok.
  2:{ unfold Sys.read_text. cbv [bind get_world]. rewrite Hf. reflexivity. }
  rewrite <- (for_each_map strip
                (fun line => for_each ["username"; "password"; "group"; "site"]
                               (fun cred => _get_credential_if_present line cred))).
  rewrite Hl. reflexivity.
Qed.

(** C6. With no username and no password given, and a config path whose
    file holds the two lines [username=alice] and [password=secret], the
    constructor returns an object with username [alice] and password
    [secret]; nothing is read from the terminal, printed or written: the
    world is left exactly as it was. *)
Theorem credentials_from_config_file :
  forall depth site_arg m g c site_type w p content,
    config_of c = Some p ->
    String.prefix "/" (home w) = true ->
    Sys.lookup_path (expand_home w p) w = Some (File content) ->
    List.map strip (Sys.lines content) = alice_lines ->
    exists s,
      new (S (S depth)) PNone PNone site_arg m g c site_type w = (Ok tt, s, w) /\
      username s = PStr "alice" /\
      password s = PStr "secret".
Proof.
  intros depth site_arg m g c site_type w p content Ec Hh Hf Hl.
  eexists. split.
  - apply new_ok with (r := (PStr "alice", PStr "secret")).
    { unfold config_of in Ec. destruct c; try exact I;
        destruct (truthy _); discriminate Ec. }
    unfold at_credentials. rewrite Ec.
    set (s0 := set_config (Some p) _).
    change (get_credentials (S (S depth)) true false false s0 w)
      with ((resolve_config ;;
             s <- get_self ;;
             when (negb (truthy (username s)) || negb (truthy (password s)))%bool
                  (c <- the_config ;;
                   present <- Sys.exists_ c ;;
                   if present then
                     read_credentials c ;;
                     _ <- get_credentials (S depth) true false false ;;
                     ret tt
                   else if false then
                     Sys.print (missing_variables c) ;;
                     Sys.exit 1
                   else
                     Sys.print ("Requested config not found (" ++ Pathlib.to_str c ++ ")."
                                ++ nl ++ "Gathering credentials...") ;;
                     request_credentials (S depth) false false) ;;
             c <- the_config ;;
             present <- Sys.exists_ c ;;
             when ((true && negb present) || false)%bool
                  (Sys.print ("Writing out credentials to " ++ Pathlib.to_str c) ;;
                   write_credentials) ;;
             s <- get_self ;;
             ret (username s, password s)) s0 w).
    erewrite bind_ok by apply resolve_config_spec.
    unfold resolved_config. change (config s0) with (Some p).
    set (q := expand_home w p) in *.
    set (s1 := set_config (Some q) s0).
    erewrite bind_ok by reflexivity.
    change (truthy (username s1)) with false. cbn [negb orb when].
    erewrite bind_ok.
    2:{ erewrite bind_ok by reflexivity.
        erewrite bind_ok.
        2:{ unfold Sys.exists_. cbv [bind get_world ret]. rewrite Hf.
            rewrite (bool_decide_eq_true_2 _ (mk_is_Some _ _ eq_refl)). reflexivity. }
        cbv iota.
        erewrite bind_ok by (eapply read_alice; eassumption).
        erewrite bind_ok.
        2:{ apply get_credentials_ready with (c := q).
            - reflexivity.
            - apply expand_home_stable, Hh.
            - reflexivity.
            - reflexivity.
            - rewrite Hf. eexists. reflexivity. }
        reflexivity. }
    erewrite bind_ok by reflexivity.
    erewrite bind_ok.
    2:{ unfold Sys.exists_. cbv [bind get_world ret]. rewrite Hf.
        rewrite (bool_decide_eq_true_2 _ (mk_is_Some _ _ eq_refl)). reflexivity. }
    reflexivity.
  - split; reflexivity.
Qed.

Lemma credentials_from_config_file_witness :
  let w := mkWorld {[ "/home/alice/.pooPatrol/hpc_config.txt"
                      := File ("username=alice" ++ nl ++ "password=secret") ]}
                   "/home/alice" "/work" [] [] in
  exists s,
    new 2 PNone PNone (PStr "hpc.uncc.edu") "sftp" PNone
        (PStr "~/.pooPatrol/hpc_config.txt") "hpc" w = (Ok tt, s, w) /\
    username s = PStr "alice" /\
    password s = PStr "secret".
Proof.
  intros w.
  apply (credentials_from_config_file
           0 (PStr "hpc.uncc.edu") "sftp" PNone (PStr "~/.pooPatrol/hpc_config.txt")
           "hpc" w (Pathlib.of_str "~/.pooPatrol/hpc_config.txt")
           ("username=alice" ++ nl ++ "password=secret")).
  - reflexivity.
  - reflexivity.
  - vm_compute. reflexivity.
  - reflexivity.
Defined.

(** ** C7: credentials written back to the config file *)

Lemma self_kept_bind {A B} (m : M A) (k : A -> M B) :
  self_kept m -> (forall a, self_kept (k a)) -> self_kept (bind m k).
Proof.
  intros Hm Hk s w r s' w'. unfold bind.
  destruct (m s w) as [[[a|e] s1] w1] eqn:E; intros H.
  - rewrite (Hk _ _ _ _ _ _ H). eapply Hm, E.
  - injection H as _ <- _. eapply Hm, E.
Qed.

Lemma self_kept_os_mkdir p : self_kept (Sys.os_mkdir p).
Proof.
  intros s w r s' w'. unfold Sys.os_mkdir. cbv [bind get_world raise set_world].
  destruct (Sys.lookup_path p w) as [n|]; [intros [= _ <- _]; reflexivity|].
  destruct (Sys.lookup_path (Pathlib.parent p) w) as [[c|]|];
    intros [= _ <- _]; reflexivity.
Qed.

Lemma self_kept_mkdir_exist_ok p : self_kept (Sys.mkdir_exist_ok p).
Proof.
  intros s w r s' w'. unfold Sys.mkdir_exist_ok.
  destruct (Sys.os_mkdir p s w) as [[[a|e] s1] w1] eqn:E;
    pose proof (self_kept_os_mkdir p _ _ _ _ _ E) as ->.
  - intros [= _ <- _]. reflexivity.
  - destruct e as [| | |k f| | | | |]; try (intros [= _ <- _]; reflexivity).
    destruct k; try destruct (Sys.is_dir p w1); intros [= _ <- _]; reflexivity.
Qed.

Lemma self_kept_mkdir_parents a rnames : self_kept (Sys.mkdir_parents a rnames).
Proof.
  induction rnames as [|x rp IH]; intros s w r s' w'; cbn [Sys.mkdir_parents];
    destruct (Sys.os_mkdir _ s w) as [[[u|e] s1] w1] eqn:E;
    pose proof (self_kept_os_mkdir _ _ _ _ _ _ E) as ->;
    try (intros [= _ <- _]; reflexivity);
    destruct e as [| | |k f| | | | |]; try (intros [= _ <- _]; reflexivity);
    destruct k; try destruct (Sys.is_dir _ w1);
    try (intros [= _ <- _]; reflexivity).
  apply (self_kept_bind _ _ IH). intros _. apply self_kept_mkdir_exist_ok.
Qed.

Lemma join_snoc (l : list string) x :
  l <> [] -> join "/" (l ++ [x]) = join "/" l ++ "/" ++ x.
Proof.
  induction l as [|a l IH]; [congruence|]. intros _.
  destruct l as [|b l].
  - reflexivity.
  - change (join "/" ((a :: b :: l) ++ [x]))
      with (a ++ "/" ++ join "/" ((b :: l) ++ [x])).
    rewrite IH by discriminate.
    change (join "/" (a :: b :: l)) with (a ++ "/" ++ join "/" (b :: l)).
    rewrite !append_assoc. reflexivity.
Qed.

(** The text of a path is longer than the text of its parent, when the
    parent has a component. *)
Lemma to_str_snoc_longer a (l : list string) x :
  l <> [] ->
  (String.length (Pathlib.to_str (mkPath a l))
   < String.length (Pathlib.to_str (mkPath a (l ++ [x]))))%nat.
Proof.
  intros Hl. rewrite !to_str_names; cbn [names anchor]; try assumption.
  - rewrite join_snoc by assumption. rewrite !length_append. simpl. lia.
  - destruct l; discriminate.
Qed.

Lemma parent_snoc a (l : list string) x :
  Pathlib.parent (mkPath a (l ++ [x])) = mkPath a l.
Proof. unfold Pathlib.parent. cbn [anchor names]. rewrite List.removelast_last. reflexivity. Qed.

Lemma path_snoc c :
  names c <> [] ->
  c = mkPath (anchor c) (names (Pathlib.parent c) ++ [Pathlib.name c]).
Proof.
  intros H. unfold Pathlib.parent, Pathlib.name. cbn [names].
  rewrite <- List.app_removelast_last by exact H. destruct c; reflexivity.
Qed.

Lemma to_str_parent_ne c :
  names (Pathlib.parent c) <> [] ->
  Pathlib.to_str (Pathlib.parent c) <> Pathlib.to_str c.
Proof.
  intros Hp E.
  assert (Hn : names c <> []).
  { intros N. apply Hp. unfold Pathlib.parent. cbn [names]. rewrite N. reflexivity. }
  pose proof (to_str_snoc_longer (anchor c) (names (Pathlib.parent c))
                (Pathlib.name c) Hp) as L.
  rewrite <- (path_snoc c Hn) in L.
  change (mkPath (anchor c) (names (Pathlib.parent c))) with (Pathlib.parent c) in L.
  rewrite E in L. lia.
Qed.

Lemma lookup_path_names p w :
  names p <> [] -> Sys.lookup_path p w = fs w !! Pathlib.to_str p.
Proof. unfold Sys.lookup_path. destruct (names p); [congruence | reflexivity]. Qed.

Lemma lookup_path_root p w :
  names p = [] -> Sys.lookup_path p w = Some Dir.
Proof. unfold Sys.lookup_path. intros ->. reflexivity. Qed.

(** Opening the config file for writing and writing the two lines, from a
    world where the file is not a directory and its parent is one. *)
Lemma write_lines c s w :
  Sys.lookup_path c w <> Some Dir ->
  Sys.lookup_path (Pathlib.parent c) w = Some Dir ->
  exists w',
    (Sys.open_w c ;;
     s <- get_self ;;
     Sys.write c ("username=" ++ py_str (username s) ++ nl) ;;
     s <- get_self ;;
     Sys.write c ("password=" ++ py_str (password s) ++ nl)) s w
    = (Ok tt, s, w') /\
    Sys.lookup_path c w'
    = Some (File (credentials_text (username s) (password s))) /\
    Sys.is_dir (Pathlib.parent c) w' = true /\
    trace w' = trace w /\ stdin w' = stdin w.
Proof.
  intros Hc Hp.
  assert (Hn : names c <> []).
  { intros N. apply Hc. apply lookup_path_root, N. }
  set (k := Pathlib.to_str c).
  exists (Sys.set_fs
            (<[k := File (credentials_text (username s) (password s))]>
               (<[k := File ("username=" ++ py_str (username s) ++ nl)]>
                  (<[k := File ""]> (fs w)))) w).
  split; [|split; [|split; [|split]]].
  - unfold Sys.open_w. cbv [bind get_world]. rewrite Hp.
    assert (E : match Sys.lookup_path c w with
                | Some Dir => raise (OSError IsADirectoryError (Pathlib.to_str c))
                | _ => set_world (fun w0 : World =>
                         Sys.set_fs (<[Pathlib.to_str c:=File ""]> (fs w0)) w0)
                end s w
                = (Ok tt, s, Sys.set_fs (<[k := File ""]> (fs w)) w)).
    { destruct (Sys.lookup_path c w) as [[?|]|]; try reflexivity. congruence. }
    rewrite E. cbv [get_self Sys.write set_world]. fold k.
    cbn [fs Sys.set_fs]. rewrite lookup_insert_eq.
    cbn [fs Sys.set_fs]. rewrite lookup_insert_eq.
    unfold credentials_text. rewrite append_nil, !append_assoc. reflexivity.
  - rewrite lookup_path_names by exact Hn. cbn [fs Sys.set_fs]. fold k.
    apply lookup_insert_eq.
  - unfold Sys.is_dir.
    destruct (names (Pathlib.parent c)) as [|n l] eqn:En.
    + rewrite lookup_path_root by exact En. reflexivity.
    + assert (Hne : names (Pathlib.parent c) <> []) by (rewrite En; discriminate).
      pose proof (to_str_parent_ne c Hne) as Hk. fold k in Hk.
      rewrite lookup_path_names by exact Hne. cbn [fs Sys.set_fs].
      rewrite !lookup_insert_ne by congruence.
      rewrite <- lookup_path_names by exact Hne. rewrite Hp. reflexivity.
  - reflexivity.
  - reflexivity.
Qed.

Lemma open_w_ok_inv c s w s' w' :
  Sys.open_w c s w = (Ok tt, s', w') ->
  Sys.lookup_path c w <> Some Dir /\
  Sys.lookup_path (Pathlib.parent c) w = Some Dir.
Proof.
  unfold Sys.open_w. cbv [bind get_world raise set_world].
  destruct (Sys.lookup_path c w) as [[?|]|];
    destruct (Sys.lookup_path (Pathlib.parent c) w) as [[?|]|];
    intros H; try discriminate H; split; congruence.
Qed.

(** What a completed [write_credentials] has done. *)
Lemma write_credentials_ok_inv s w s' w' :
  write_credentials s w = (Ok tt, s', w') ->
  exists c,
    config s = Some c /\ s' = s /\
    Sys.lookup_path c w'
    = Some (File (credentials_text (username s) (password s))) /\
    Sys.is_dir (Pathlib.parent c) w' = true.
Proof.
  unfold write_credentials. intros H.
  apply bind_ok_inv in H. destruct H as (c & s1 & w1 & Hc & H).
  unfold the_config in Hc. cbv [bind get_self] in Hc.
  destruct (config s) as [c'|] eqn:Ec; [|discriminate Hc].
  injection Hc as <- <- <-.
  apply bind_ok_inv in H. destruct H as ([] & s2 & w2 & Hm & H).
  pose proof (self_kept_mkdir_parents _ _ _ _ _ _ _ Hm) as ->.
  assert (Ho : exists s3 w3, Sys.open_w c' s w2 = (Ok tt, s3, w3)).
  { apply bind_ok_inv in H. destruct H as ([] & s3 & w3 & Ho & _). eauto. }
  destruct Ho as (s3 & w3 & Ho). apply open_w_ok_inv in Ho. destruct Ho as [Hd Hp].
  destruct (write_lines c' s w2 Hd Hp) as (w4 & Hw & Hl & Hi & _).
  rewrite Hw in H. injection H as <- <-.
  exists c'. auto.
Qed.

Create HintDb keeps.

Lemma keeps_ret {A} (a : A) : keeps (ret a).
Proof. intros s w r s' w' [= _ <- <-]. auto. Qed.

Lemma keeps_raise {A} e : keeps (@raise A e).
Proof. intros s w r s' w' [= _ <- <-]. auto. Qed.

Lemma keeps_get_self : keeps get_self.
Proof. intros s w r s' w' [= _ <- <-]. auto. Qed.

Lemma keeps_get_world : keeps get_world.
Proof. intros s w r s' w' [= _ <- <-]. auto. Qed.

Lemma keeps_set_username v : keeps (set_self (set_username v)).
Proof. intros s w r s' w' [= _ <- <-]. auto. Qed.

Lemma keeps_set_password v : keeps (set_self (set_password v)).
Proof. intros s w r s' w' [= _ <- <-]. auto. Qed.

Lemma keeps_set_group v : keeps (set_self (set_group v)).
Proof. intros s w r s' w' [= _ <- <-]. auto. Qed.

Lemma keeps_set_site v : keeps (set_self (set_site v)).
Proof. intros s w r s' w' [= _ <- <-]. auto. Qed.

Lemma keeps_print t : keeps (Sys.print t).
Proof. intros s w r s' w' [= _ <- <-]. auto. Qed.

Lemma keeps_read_line e : keeps (Sys.read_line e).
Proof.
  intros s w r s' w'. unfold Sys.read_line.
  destruct (stdin w); intros [= _ <- <-]; auto.
Qed.

Lemma keeps_bind {A B} (m : M A) (k : A -> M B) :
  keeps m -> (forall a, keeps (k a)) -> keeps (bind m k).
Proof.
  intros Hm Hk s w r s' w'. unfold bind.
  destruct (m s w) as [[[a|e] s1] w1] eqn:E; intros H.
  - destruct (Hm _ _ _ _ _ E) as [C1 F1]. destruct (Hk _ _ _ _ _ _ H) as [C2 F2].
    split; congruence.
  - injection H as _ <- <-. eapply Hm, E.
Qed.

Lemma keeps_when b m : keeps m -> keeps (when b m).
Proof. intros H. destruct b; [exact H | apply keeps_ret]. Qed.

Lemma keeps_if {A} (b : bool) (m1 m2 : M A) :
  keeps m1 -> keeps m2 -> keeps (if b then m1 else m2).
Proof. destruct b; auto. Qed.

Lemma keeps_for_each {A} (l : list A) body :
  (forall x, keeps (body x)) -> keeps (for_each l body).
Proof.
  intros H. induction l as [|x l IH]; simpl.
  - apply keeps_ret.
  - apply keeps_bind; [apply H | intros _; exact IH].
Qed.

#[export] Hint Resolve keeps_ret keeps_raise keeps_get_self keeps_get_world
  keeps_set_username keeps_set_password keeps_set_group keeps_set_site
  keeps_print keeps_read_line keeps_when keeps_if keeps_for_each : keeps.
#[export] Hint Extern 2 (keeps (bind _ _)) =>
  (apply keeps_bind; [|intros ?]) : keeps.

Lemma keeps_read_text c : keeps (Sys.read_text c).
Proof.
  unfold Sys.read_text. apply keeps_bind; [auto with keeps|]. intros w0.
  destruct (Sys.lookup_path c w0) as [[?|]|]; auto with keeps.
Qed.

Lemma keeps_credential_if_present line cred :
  keeps (_get_credential_if_present line cred).
Proof.
  unfold _get_credential_if_present, setattr.
  apply keeps_when. repeat apply keeps_if; auto with keeps.
Qed.

Lemma keeps_read_credentials c : keeps (read_credentials c).
Proof.
  unfold read_credentials. apply keeps_bind; [apply keeps_read_text|]. intros text.
  apply keeps_for_each. intros line. apply keeps_for_each. intros cred.
  apply keeps_credential_if_present.
Qed.

Lemma keeps_request_credentials depth : forall reset_user reset_pass,
  keeps (request_credentials depth reset_user reset_pass).
Proof.
  induction depth as [|d IH]; intros reset_user reset_pass; cbn [request_credentials].
  - auto with keeps.
  - unfold Sys.input, Sys.getpass. auto 20 with keeps.
Qed.

Lemma lookup_path_fs p w w' : fs w' = fs w -> Sys.lookup_path p w' = Sys.lookup_path p w.
Proof. unfold Sys.lookup_path. intros ->. reflexivity. Qed.

Lemma is_dir_fs p w w' : fs w' = fs w -> Sys.is_dir p w' = Sys.is_dir p w.
Proof. unfold Sys.is_dir. intros H. rewrite (lookup_path_fs p w w' H). reflexivity. Qed.

Lemma exists_inv c s w b s' w' :
  Sys.exists_ c s w = (Ok b, s', w') ->
  s' = s /\ w' = w /\ b = bool_decide (is_Some (Sys.lookup_path c w)).
Proof. unfold Sys.exists_. cbv [bind get_world ret]. intros [= <- <- <-]. auto. Qed.

Lemma the_config_inv s w c s' w' :
  the_config s w = (Ok c, s', w') -> s' = s /\ w' = w /\ config s = Some c.
Proof.
  unfold the_config. cbv [bind get_self]. destruct (config s); [|discriminate].
  intros [= <- <- <-]. auto.
Qed.

(** Whenever [get_credentials] returns, and the config file it settled on
    was absent with [save] on, or [overwrite] was asked for, that file holds
    the username and password lines and its parent directory exists. *)
Lemma get_credentials_written depth :
  forall save overwrite headless s w u p s' w',
    get_credentials depth save overwrite headless s w = (Ok (u, p), s', w') ->
    exists c,
      config s' = Some c /\ u = username s' /\ p = password s' /\
      ((save = true /\ Sys.lookup_path c w = None) \/ overwrite = true ->
       Sys.lookup_path c w' = Some (File (credentials_text u p)) /\
       Sys.is_dir (Pathlib.parent c) w' = true).
Proof.
  induction depth as [|d IH]; intros save overwrite headless s w u p s' w' H.
  - discriminate H.
  - cbn [get_credentials] in H.
    apply bind_ok_inv in H. destruct H as ([] & s1 & w1 & Hr & H).
    rewrite resolve_config_spec in Hr. injection Hr as <- <-.
    set (s1 := set_config (Some (resolved_config s w)) s) in *.
    apply bind_ok_inv in H. destruct H as (s1' & s1'' & w1 & Hg & H).
    injection Hg as <- <- <-.
    apply bind_ok_inv in H. destruct H as ([] & s2 & w2 & Hgather & H).
    apply bind_ok_inv in H. destruct H as (c & s2' & w2' & Hc & H).
    apply the_config_inv in Hc. destruct Hc as (-> & -> & Hc).
    apply bind_ok_inv in H. destruct H as (present & s2' & w2' & He & H).
    apply exists_inv in He. destruct He as (-> & -> & He).
    apply bind_ok_inv in H. destruct H as ([] & s3 & w3 & Hw & H).
    cbv [bind get_self ret] in H. injection H as <- <- <- <-.
    assert (G : (config s2 = config s1 /\ fs w2 = fs w) \/
                (exists sa wa r, fs wa = fs w /\
                   get_credentials d true false false sa wa = (Ok r, s2, w2))).
    { unfold when in Hgather.
      destruct (negb (truthy (username s1)) || negb (truthy (password s1)))%bool.
      - apply bind_ok_inv in Hgather. destruct Hgather as (c1 & sx & wx & Hc1 & Hg).
        apply the_config_inv in Hc1. destruct Hc1 as (-> & -> & Hc1).
        apply bind_ok_inv in Hg. destruct Hg as (present1 & sx & wx & He1 & Hg).
        apply exists_inv in He1. destruct He1 as (-> & -> & He1).
        destruct present1.
        + right.
          apply bind_ok_inv in Hg. destruct Hg as ([] & sa & wa & Hread & Hg).
          apply keeps_read_credentials in Hread. destruct Hread as [_ Hfa].
          apply bind_ok_inv in Hg. destruct Hg as (r & sb & wb & Hrec & Hg).
          injection Hg as <- <-. exists sa, wa, r. auto.
        + destruct headless.
          * apply bind_ok_inv in Hg. destruct Hg as ([] & sx & wx & _ & Hg).
            discriminate Hg.
          * left. revert Hg. apply keeps_bind; [apply keeps_print|].
            intros _. apply keeps_request_credentials.
      - left. injection Hgather as <- <-. auto. }
    unfold when in Hw.
    destruct (save && negb present || overwrite)%bool eqn:Ewc.
    + apply bind_ok_inv in Hw. destruct Hw as ([] & sx & wx & Hp & Hw).
      injection Hp as <- <-.
      apply write_credentials_ok_inv in Hw.
      destruct Hw as (c' & Hc' & -> & Hl & Hd).
      rewrite Hc in Hc'. injection Hc' as <-.
      exists c. auto.
    + injection Hw as <- <-. exists c.
      split; [exact Hc|]. split; [reflexivity|]. split; [reflexivity|].
      intros [[-> Hl] | ->]; [|rewrite orb_true_r in Ewc; discriminate Ewc].
      apply orb_false_elim in Ewc. destruct Ewc as [Ewc _]. cbn [andb] in Ewc.
      apply negb_false_iff in Ewc. subst present.
      apply bool_decide_eq_true_1 in Ewc.
      destruct G as [[Gc Gf] | (sa & wa & [u' p'] & Gf & Grec)].
      * rewrite (lookup_path_fs c w w2 Gf), Hl in Ewc.
        destruct Ewc as [x Hx]. discriminate Hx.
      * apply IH in Grec. destruct Grec as (c' & Hc' & -> & -> & Himp).
        rewrite Hc in Hc'. injection Hc' as <-.
        apply Himp. left. split; [reflexivity|].
        rewrite (lookup_path_fs c w wa Gf). exact Hl.
Qed.

Lemma os_mkdir_fresh p s w :
  Sys.lookup_path p w = None ->
  Sys.lookup_path (Pathlib.parent p) w = Some Dir ->
  Sys.os_mkdir p s w
  = (Ok tt, s, Sys.set_fs (<[Pathlib.to_str p := Dir]> (fs w)) w).
Proof.
  intros Hp Hd. unfold Sys.os_mkdir. cbv [bind get_world]. rewrite Hp, Hd. reflexivity.
Qed.

Lemma is_dir_inserted p w :
  Sys.is_dir p (Sys.set_fs (<[Pathlib.to_str p := Dir]> (fs w)) w) = true.
Proof.
  unfold Sys.is_dir, Sys.lookup_path. destruct (names p); [reflexivity|].
  cbn [fs Sys.set_fs]. rewrite lookup_insert_eq. reflexivity.
Qed.

(** A path none of whose ancestors is a regular file, when it cannot be
    reached, is reported missing. *)
Lemma unreachable_missing a rnames w :
  (forall k content,
      Sys.lookup_path (rpath a (List.skipn k rnames)) w <> Some (File content)) ->
  Sys.unreachable (rpath a rnames) w
  = OSError FileNotFoundError (Pathlib.to_str (rpath a rnames)).
Proof.
  intros Hfree. unfold Sys.unreachable.
  destruct (List.existsb _ _) eqn:E; [|reflexivity].
  exfalso. apply List.existsb_exists in E. destruct E as (q & Hin & Hq).
  unfold Pathlib.parents in Hin. apply List.in_map_iff in Hin.
  destruct Hin as (k & <- & _). unfold Sys.is_file in Hq.
  unfold rpath in Hq. cbn [names anchor] in Hq. rewrite List.firstn_rev in Hq.
  specialize (Hfree (List.length rnames - k)%nat). unfold rpath in Hfree.
  destruct (Sys.lookup_path _ w) as [[content|]|]; try discriminate Hq.
  exact (Hfree content eq_refl).
Qed.

(** [mkdir(parents=True, exist_ok=True)] completes when no path on the way
    is a regular file; it leaves the directory in place and touches no entry
    whose text is longer than that of the directory. *)
Lemma mkdir_parents_ok a s : forall rnames w,
  (forall k content,
      Sys.lookup_path (rpath a (List.skipn k rnames)) w <> Some (File content)) ->
  exists w1,
    Sys.mkdir_parents a rnames s w = (Ok tt, s, w1) /\
    Sys.is_dir (rpath a rnames) w1 = true /\
    (forall key,
        (String.length (Pathlib.to_str (rpath a rnames)) < String.length key)%nat ->
        fs w1 !! key = fs w !! key) /\
    (rnames = [] -> w1 = w) /\
    trace w1 = trace w /\ stdin w1 = stdin w /\ home w1 = home w /\
    workdir w1 = workdir w.
Proof.
  induction rnames as [|x rp IH]; intros w Hfree.
  - exists w. cbn [Sys.mkdir_parents]. unfold Sys.os_mkdir. cbv [bind get_world].
    cbn. repeat split; reflexivity.
  - cbn [Sys.mkdir_parents]. fold (rpath a (x :: rp)).
    set (p := rpath a (x :: rp)).
    assert (Hnames : names p <> []).
    { unfold p, rpath. cbn [names List.rev]. destruct (List.rev rp); discriminate. }
    assert (Hparent : Pathlib.parent p = rpath a rp).
    { unfold p, rpath. cbn [List.rev]. apply parent_snoc. }
    assert (Hp0 : forall content, Sys.lookup_path p w <> Some (File content))
      by (intros content; exact (Hfree 0%nat content)).
    assert (Hp1 : forall content, Sys.lookup_path (rpath a rp) w <> Some (File content))
      by (intros content; exact (Hfree 1%nat content)).
    destruct (Sys.lookup_path p w) as [[content|]|] eqn:El.
    + exfalso. eapply Hp0. reflexivity.
    + exists w. unfold Sys.os_mkdir. cbv [bind get_world]. rewrite El.
      cbv [raise]. unfold Sys.is_dir. rewrite El.
      repeat split; reflexivity.
    + destruct (Sys.lookup_path (rpath a rp) w) as [[content|]|] eqn:Ep.
      * exfalso. eapply Hp1. reflexivity.
      * exists (Sys.set_fs (<[Pathlib.to_str p := Dir]> (fs w)) w).
        rewrite os_mkdir_fresh by (rewrite ?Hparent; assumption).
        split; [reflexivity|]. split; [apply is_dir_inserted|].
        split; [|repeat split; try reflexivity; intros E; discriminate E].
        intros key Hk. cbn [fs Sys.set_fs]. apply lookup_insert_ne.
        intros E. rewrite E in Hk. lia.
      * destruct (IH w) as (w1 & Hrun & Hdir & Hframe & Hnil & Ht & Hs & Hh & Hw).
        { intros k content. apply (Hfree (S k)). }
        assert (Hlen : rp <> [] ->
                       (String.length (Pathlib.to_str (rpath a rp))
                        < String.length (Pathlib.to_str p))%nat).
        { intros Hrp. unfold p, rpath. cbn [List.rev]. apply to_str_snoc_longer.
          intros E. apply Hrp. apply (f_equal (@List.rev string)) in E.
          rewrite List.rev_involutive in E. exact E. }
        assert (Hkeep : fs w1 !! Pathlib.to_str p = fs w !! Pathlib.to_str p).
        { destruct rp as [|y rp'].
          - rewrite (Hnil eq_refl). reflexivity.
          - apply Hframe. apply Hlen. discriminate. }
        assert (El1 : Sys.lookup_path p w1 = None).
        { rewrite lookup_path_names by exact Hnames. rewrite Hkeep.
          rewrite <- lookup_path_names by exact Hnames. exact El. }
        assert (Ep1 : Sys.lookup_path (Pathlib.parent p) w1 = Some Dir).
        { rewrite Hparent. unfold Sys.is_dir in Hdir.
          destruct (Sys.lookup_path (rpath a rp) w1) as [[?|]|]; try discriminate Hdir.
          reflexivity. }
        exists (Sys.set_fs (<[Pathlib.to_str p := Dir]> (fs w1)) w1).
        split.
        { unfold Sys.os_mkdir at 1. cbv [bind get_world]. rewrite El.
          rewrite Hparent, Ep.
          pose proof (unreachable_missing a (x :: rp) w Hfree) as Hu. fold p in Hu.
          rewrite Hu. cbv [raise].
          fold (bind (Sys.mkdir_parents a rp) (fun _ => Sys.mkdir_exist_ok p) s w).
          erewrite bind_ok by exact Hrun.
          unfold Sys.mkdir_exist_ok. rewrite os_mkdir_fresh by assumption.
          reflexivity. }
        split; [apply is_dir_inserted|].
        split.
        { intros key Hk. cbn [fs Sys.set_fs].
          rewrite lookup_insert_ne by (intros E; rewrite E in Hk; lia).
          destruct rp as [|y rp'].
          - rewrite (Hnil eq_refl). reflexivity.
          - apply Hframe. specialize (Hlen ltac:(discriminate)). lia. }
        repeat split; try assumption; try reflexivity. intros E. discriminate E.
Qed.

Lemma length_removelast_lt {A} (l : list A) :
  l <> [] -> (List.length (List.removelast l) < List.length l)%nat.
Proof.
  intros H. destruct l as [|d l]; [congruence|].
  rewrite (List.app_removelast_last d H) at 2. rewrite List.length_app. simpl. lia.
Qed.

Lemma ancestor_is_parent c k :
  names c <> [] ->
  In (rpath (anchor c) (List.skipn k (List.rev (names (Pathlib.parent c)))))
     (Pathlib.parents c).
Proof.
  intros Hn. unfold rpath, Pathlib.parent, Pathlib.parents. cbn [names anchor].
  rewrite List.skipn_rev, List.rev_involutive.
  pose proof (length_removelast_lt (names c) Hn) as L.
  set (j := (List.length (List.removelast (names c)) - k)%nat).
  assert (Hj : (j < List.length (names c))%nat) by (unfold j; lia).
  rewrite List.firstn_removelast by exact Hj.
  apply List.in_map_iff. exists j. split; [reflexivity|].
  apply List.in_rev. rewrite List.rev_involutive. apply List.in_seq. lia.
Qed.

(** [write_credentials] completes when the config path is not a directory
    and no ancestor of it is a regular file. *)
Lemma write_credentials_total s w c :
  config s = Some c ->
  Sys.lookup_path c w <> Some Dir ->
  (forall q content, In q (Pathlib.parents c) ->
                     Sys.lookup_path q w <> Some (File content)) ->
  exists w',
    write_credentials s w = (Ok tt, s, w') /\
    Sys.lookup_path c w'
    = Some (File (credentials_text (username s) (password s))) /\
    Sys.is_dir (Pathlib.parent c) w' = true /\
    trace w' = trace w /\ stdin w' = stdin w.
Proof.
  intros Hc Hd Hfree.
  assert (Hn : names c <> []).
  { intros N. apply Hd. apply lookup_path_root, N. }
  destruct (mkdir_parents_ok (anchor c) s
              (List.rev (names (Pathlib.parent c))) w)
    as (w1 & Hrun & Hdir & Hframe & Hnil & Ht & Hs & _ & _).
  { intros k content. apply Hfree. apply ancestor_is_parent, Hn. }
  assert (Hself : rpath (anchor c) (List.rev (names (Pathlib.parent c)))
                  = Pathlib.parent c).
  { unfold rpath. rewrite List.rev_involutive. reflexivity. }
  rewrite Hself in Hdir, Hframe.
  assert (Hd1 : Sys.lookup_path c w1 = Sys.lookup_path c w).
  { destruct (names (Pathlib.parent c)) as [|n l] eqn:En.
    - rewrite (Hnil eq_refl). reflexivity.
    - rewrite !lookup_path_names by exact Hn. apply Hframe.
      assert (Hp : names (Pathlib.parent c) <> []) by (rewrite En; discriminate).
      pose proof (to_str_snoc_longer (anchor c) (names (Pathlib.parent c))
                    (Pathlib.name c) Hp) as L.
      rewrite <- (path_snoc c Hn) in L. exact L. }
  assert (Hp1 : Sys.lookup_path (Pathlib.parent c) w1 = Some Dir).
  { unfold Sys.is_dir in Hdir.
    destruct (Sys.lookup_path (Pathlib.parent c) w1) as [[?|]|];
      try discriminate Hdir. reflexivity. }
  destruct (write_lines c s w1) as (w2 & Hw & Hl & Hi & Ht2 & Hs2).
  { rewrite Hd1. exact Hd. }
  { exact Hp1. }
  exists w2. split; [|repeat split; try assumption; congruence].
  unfold write_credentials.
  erewrite bind_ok by (unfold the_config; cbv [bind get_self]; rewrite Hc; reflexivity).
  erewrite bind_ok by exact Hrun.
  exact Hw.
Qed.

(** With username and password in hand nothing is asked: when the config
    path is free (or is to be overwritten) and no ancestor of it is a
    regular file, [get_credentials] returns and has written the file. *)
Lemma get_credentials_writes depth save overwrite headless s w :
  truthy (username s) = true ->
  truthy (password s) = true ->
  let c := resolved_config s w in
  (forall q content, In q (Pathlib.parents c) ->
                     Sys.lookup_path q w <> Some (File content)) ->
  (save = true /\ Sys.lookup_path c w = None) \/
  (overwrite = true /\ Sys.lookup_path c w <> Some Dir) ->
  exists w',
    get_credentials (S depth) save overwrite headless s w
    = (Ok (username s, password s), set_config (Some c) s, w') /\
    Sys.lookup_path c w'
    = Some (File (credentials_text (username s) (password s))) /\
    Sys.is_dir (Pathlib.parent c) w' = true /\
    stdin w' = stdin w /\
    trace w' = (trace w ++ [Print ("Writing out credentials to " ++ Pathlib.to_str c)])%list.
Proof.
  intros Hu Hp c Hfree Hcase.
  set (s1 := set_config (Some c) s).
  set (w0 := Sys.log (Print ("Writing out credentials to " ++ Pathlib.to_str c)) w).
  assert (Hnd : Sys.lookup_path c w <> Some Dir).
  { destruct Hcase as [[_ E] | [_ E]]; [rewrite E; discriminate | exact E]. }
  destruct (write_credentials_total s1 w0 c) as (w' & Hw & Hl & Hd & Ht & Hs).
  { reflexivity. }
  { exact Hnd. }
  { exact Hfree. }
  exists w'. split; [|repeat split; assumption].
  cbn [get_credentials].
  erewrite bind_ok by apply resolve_config_spec. fold c. fold s1.
  erewrite bind_ok by reflexivity.
  change (username s1) with (username s). change (password s1) with (password s).
  rewrite Hu, Hp. cbn [negb orb when].
  erewrite bind_ok by reflexivity.
  erewrite bind_ok by reflexivity.
  erewrite bind_ok by reflexivity.
  assert (Ewc : (save && negb (bool_decide (is_Some (Sys.lookup_path c w))) || overwrite)%bool
                = true).
  { destruct Hcase as [[-> E] | [-> _]]; [|apply orb_true_r].
    rewrite E. rewrite bool_decide_eq_false_2; [reflexivity|].
    intros [x Hx]. discriminate Hx. }
  rewrite Ewc. cbn [when].
  erewrite bind_ok.
  2:{ erewrite bind_ok by reflexivity. exact Hw. }
  reflexivity.
Qed.

(** C7, as the code has it. Whenever [get_credentials] returns, and the
    config file it settled on did not exist with [save] on, or [overwrite]
    was asked for, the config file holds the two lines [username=...] and
    [password=...] (group and site are not written) and its parent directory
    exists.  With username and password in hand it does return, creating the
    parent directories as needed, provided the config path is not a directory
    and no ancestor of it is a regular file. *)
Theorem credentials_written_back :
  forall depth save overwrite headless s w,
    (forall u p s' w',
        get_credentials depth save overwrite headless s w = (Ok (u, p), s', w') ->
        exists c,
          config s' = Some c /\ u = username s' /\ p = password s' /\
          ((save = true /\ Sys.lookup_path c w = None) \/ overwrite = true ->
           Sys.lookup_path c w' = Some (File (credentials_text u p)) /\
           Sys.is_dir (Pathlib.parent c) w' = true))
    /\
    (truthy (username s) = true ->
     truthy (password s) = true ->
     (forall q content, In q (Pathlib.parents (resolved_config s w)) ->
                        Sys.lookup_path q w <> Some (File content)) ->
     (save = true /\ Sys.lookup_path (resolved_config s w) w = None) \/
     (overwrite = true /\ Sys.lookup_path (resolved_config s w) w <> Some Dir) ->
     exists w',
       get_credentials (S depth) save overwrite headless s w
       = (Ok (username s, password s), set_config (Some (resolved_config s w)) s, w') /\
       Sys.lookup_path (resolved_config s w) w'
       = Some (File (credentials_text (username s) (password s))) /\
       Sys.is_dir (Pathlib.parent (resolved_config s w)) w' = true /\
       stdin w' = stdin w /\
       trace w' = (trace w ++ [Print ("Writing out credentials to "
                                      ++ Pathlib.to_str (resolved_config s w))])%list).
Proof.
  intros depth save overwrite headless s w. split.
  - intros u p s' w' H. eapply get_credentials_written. exact H.
  - intros Hu Hp Hfree Hcase.
    exact (get_credentials_writes depth save overwrite headless s w Hu Hp Hfree Hcase).
Qed.

Lemma credentials_written_back_witness :
  let s := at_credentials (PStr "bob") (PStr "pw") (PStr "hpc.edu") (PStr "1001")
                          (PStr "~/.pooPatrol/hpc_config.txt") in
  let w := mkWorld ∅ "/home/bob" "/work" [] [] in
  exists w',
    get_credentials 1 true false false s w
    = (Ok (PStr "bob", PStr "pw"),
       set_config (Some (mkPath "/" ["home"; "bob"; ".pooPatrol"; "hpc_config.txt"])) s,
       w') /\
    Sys.lookup_path (mkPath "/" ["home"; "bob"; ".pooPatrol"; "hpc_config.txt"]) w'
    = Some (File ("username=bob" ++ nl ++ "password=pw" ++ nl)) /\
    Sys.is_dir (mkPath "/" ["home"; "bob"; ".pooPatrol"]) w' = true.
Proof.
  intros s w.
  destruct (proj2 (credentials_written_back 0 true false false s w))
    as (w' & H & Hl & Hd & _).
  - reflexivity.
  - reflexivity.
  - intros q content _. unfold Sys.lookup_path. destruct (names q); [discriminate|].
    subst w. cbn [fs]. rewrite lookup_empty. discriminate.
  - left. split; reflexivity.
  - exists w'. split; [exact H|]. split; [exact Hl | exact Hd].
Defined.

(** C7 as stated fails: after [Scripter(username="bob", password="pw",
    site="hpc.edu", group="1001", config="cfg/hpc_config.txt")] on an empty
    file system the config file holds the username and password lines only;
    neither the group nor the site is in it. *)
Lemma config_file_lacks_group_and_site :
  exists s w',
    new 1 (PStr "bob") (PStr "pw") (PStr "hpc.edu") "sftp" (PStr "1001")
        (PStr "cfg/hpc_config.txt") "hpc" (mkWorld ∅ "/home/bob" "/work" [] [])
    = (Ok tt, s, w') /\
    group s = PStr "1001" /\
    site s = PStr "hpc.edu" /\
    fs w' !! "cfg" = Some Dir /\
    fs w' !! "cfg/hpc_config.txt"
    = Some (File ("username=bob" ++ nl ++ "password=pw" ++ nl)) /\
    contains "1001" ("username=bob" ++ nl ++ "password=pw" ++ nl) = false /\
    contains "hpc.edu" ("username=bob" ++ nl ++ "password=pw" ++ nl) = false.
Proof.
  eexists. eexists. split; [vm_compute; reflexivity|].
  repeat split; vm_compute; reflexivity.
Qed.

(** * Further properties of the code *)

(** ** run, clear and preview_steps *)

(** X1. A second [run] appends a second exit step: after two calls the
    sequence ends with the exit command twice, and the second script handed
    to the command interpreter carries both. *)
Theorem run_twice_appends_exit_twice :
  forall s w,
    mode s = "sftp" \/ mode s = "ssh" ->
    pw_steps s <> [] ->
    (run ;; run) s w
    = (Ok tt, append_steps [exit_step s; exit_step s] s,
       logged [System (session_text s (actions s ++ [exit_step s]));
               System (session_text s (actions s ++ [exit_step s; exit_step s]))] w).
Proof.
  intros s w Hm Hp. unfold bind at 1. rewrite (run_in_mode s w Hm Hp).
  set (s1 := set_actions _ s).
  rewrite (run_in_mode s1 _ Hm Hp).
  unfold s1, exit_step, append_steps, session_text, logged, Sys.log, step_for.
  cbn [actions set_actions mode expect open entry close pw_steps fs home workdir
       stdin trace].
  rewrite <- !app_assoc. reflexivity.
Qed.

Lemma run_twice_appends_exit_twice_witness :
  actions (snd (fst ((run ;; run) (Sample.session "sftp") Sample.world)))
  = [step_for (Sample.session "sftp") (PStr "quit");
     step_for (Sample.session "sftp") (PStr "quit")].
Proof.
  rewrite (run_twice_appends_exit_twice (Sample.session "sftp") Sample.world
             (or_introl eq_refl) ltac:(discriminate)).
  reflexivity.
Defined.

(** X2. In a mode other than sftp and ssh, [run] raises [UnboundLocalError]
    before anything else: no step is appended and nothing is handed to the
    command interpreter. *)
Theorem run_in_unknown_mode_raises :
  forall s w,
    mode s <> "sftp" ->
    mode s <> "ssh" ->
    run s w = (Raise (UnboundLocalError "end"), s, w).
Proof.
  intros s w H1 H2. unfold run. cbv [bind get_self].
  destruct (String.eqb_spec (mode s) "sftp") as [E|_]; [contradiction|].
  destruct (String.eqb_spec (mode s) "ssh") as [E|_]; [contradiction|].
  reflexivity.
Qed.

Lemma run_in_unknown_mode_raises_witness :
  run (Sample.session "scp") Sample.world
  = (Raise (UnboundLocalError "end"), Sample.session "scp", Sample.world).
Proof.
  apply run_in_unknown_mode_raises; discriminate.
Defined.

(** X3. After [clear], [preview_steps] prints its heading and nothing else,
    whatever steps had been accumulated. *)
Theorem clear_then_preview_is_empty :
  forall s w,
    (clear ;; preview_steps) s w
    = (Ok tt, set_actions [] s, logged [Print (nl ++ "Command preview:")] w).
Proof. intros s w. reflexivity. Qed.

(** ** basic_step *)

Lemma filter_truthy_skip (l1 l2 : list pyval) x :
  truthy x = false ->
  List.filter truthy (l1 ++ x :: l2) = List.filter truthy (l1 ++ l2).
Proof.
  intros H. rewrite !List.filter_app. cbn [List.filter]. rewrite H. reflexivity.
Qed.

(** X4. [basic_step] drops the words that are [None], empty, zero or
    [False]: with such a word put anywhere among the others the same step is
    appended; and without any word nothing is appended. *)
Theorem basic_step_drops_falsy_words :
  forall (l1 l2 : list pyval) x e,
    truthy x = false ->
    (l1 ++ l2)%list <> [] ->
    basic_step (l1 ++ x :: l2) e = basic_step (l1 ++ l2) e /\
    basic_step [] e = ret tt.
Proof.
  intros l1 l2 x e Hx Hne. split; [|reflexivity].
  unfold basic_step. rewrite (filter_truthy_skip l1 l2 x Hx).
  destruct (l1 ++ l2)%list eqn:E2; [congruence|].
  destruct (l1 ++ x :: l2)%list eqn:E1; [destruct l1; discriminate E1|].
  reflexivity.
Qed.

Lemma basic_step_drops_falsy_words_witness :
  basic_step ([PStr "put"] ++ PNone :: [PStr "a.txt"]) PNone
  = basic_step ([PStr "put"] ++ [PStr "a.txt"]) PNone.
Proof.
  apply (basic_step_drops_falsy_words [PStr "put"] [PStr "a.txt"] PNone PNone eq_refl).
  discriminate.
Defined.

(** ** set_permissions *)

Lemma set_permissions_unfold files group_arg octal s w :
  set_permissions files group_arg octal s w
  = (when (String.eqb (mode s) "sftp")
          (for_each [("group", effective_group s group_arg); ("octal", octal)]
                    check_numeric) ;;
     for_each (files_of files) (fun file =>
       basic_step [PStr "chmod"; octal; file] PNone ;;
       s <- get_self ;;
       when (truthy (group s)) (basic_step [PStr "chgrp"; group s; file] PNone)))
      (set_group (effective_group s group_arg) s) w.
Proof.
  unfold set_permissions. fold (files_of files).
  erewrite bind_ok by reflexivity.
  erewrite bind_ok with (s1 := set_group (effective_group s group_arg) s) (w1 := w)
                        (a := tt).
  2:{ unfold effective_group, when.
      destruct (_ && _)%bool; [reflexivity|]. rewrite set_group_same. reflexivity. }
  erewrite bind_ok by reflexivity. reflexivity.
Qed.

(** X5. Outside sftp mode [set_permissions] validates nothing: it never
    raises, whatever the group and the octal argument are, and appends the
    [chmod] and [chgrp] steps. *)
Theorem set_permissions_unchecked_outside_sftp :
  forall s w files group_arg octal,
    mode s <> "sftp" ->
    let s1 := set_group (effective_group s group_arg) s in
    set_permissions files group_arg octal s w
    = (Ok tt,
       append_steps (permission_steps (expect s) (group s1) octal (files_of files)) s1,
       w).
Proof.
  intros s w files group_arg octal Hm s1.
  rewrite set_permissions_unfold. fold s1.
  assert (E : String.eqb (mode s) "sftp" = false).
  { apply String.eqb_neq. exact Hm. }
  rewrite E. unfold when. erewrite bind_ok by reflexivity.
  rewrite permission_loop. reflexivity.
Qed.

Lemma set_permissions_unchecked_outside_sftp_witness :
  set_permissions (OneFile "a.txt") (PStr "staff") (PStr "u+rw")
                  (Sample.session "ssh") Sample.world
  = (Ok tt,
     append_steps
       [step_for (Sample.session "ssh") (PStr "chmod u+rw a.txt");
        step_for (Sample.session "ssh") (PStr "chgrp staff a.txt")]
       (set_group (PStr "staff") (Sample.session "ssh")),
     Sample.world).
Proof.
  rewrite (set_permissions_unchecked_outside_sftp
             (Sample.session "ssh") Sample.world (OneFile "a.txt") (PStr "staff")
             (PStr "u+rw") ltac:(discriminate)).
  reflexivity.
Defined.

(** ** Relations every step of a computation keeps *)

Section Kept.
Context (R : Scripter * World -> Scripter * World -> Prop) `{!PreOrder R}.

Lemma kept_ret {A} (a : A) : kept R (ret a).
Proof. intros s w r s' w' [= _ <- <-]. reflexivity. Qed.

Lemma kept_raise {A} e : kept R (@raise A e).
Proof. intros s w r s' w' [= _ <- <-]. reflexivity. Qed.

Lemma kept_get_self : kept R get_self.
Proof. intros s w r s' w' [= _ <- <-]. reflexivity. Qed.

Lemma kept_get_world : kept R get_world.
Proof. intros s w r s' w' [= _ <- <-]. reflexivity. Qed.

Lemma kept_set_self f :
  (forall s w, R (s, w) (f s, w)) -> kept R (set_self f).
Proof. intros H s w r s' w' [= _ <- <-]. apply H. Qed.

Lemma kept_set_world f :
  (forall s w, R (s, w) (s, f w)) -> kept R (set_world f).
Proof. intros H s w r s' w' [= _ <- <-]. apply H. Qed.

Lemma kept_bind {A B} (m : M A) (k : A -> M B) :
  kept R m -> (forall a, kept R (k a)) -> kept R (bind m k).
Proof.
  intros Hm Hk s w r s' w'. unfold bind.
  destruct (m s w) as [[[a|e] s1] w1] eqn:E; intros H.
  - transitivity (s1, w1); [eapply Hm, E | eapply Hk, H].
  - injection H as _ <- <-. eapply Hm, E.
Qed.

Lemma kept_when b m : kept R m -> kept R (when b m).
Proof. intros H. destruct b; [exact H | apply kept_ret]. Qed.

Lemma kept_if {A} (b : bool) (m1 m2 : M A) :
  kept R m1 -> kept R m2 -> kept R (if b then m1 else m2).
Proof. destruct b; auto. Qed.

Lemma kept_for_each {A} (l : list A) body :
  (forall x, kept R (body x)) -> kept R (for_each l body).
Proof.
  intros H. induction l as [|x l IH]; simpl.
  - apply kept_ret.
  - apply kept_bind; [apply H | intros _; exact IH].
Qed.

(** The builders append steps made by [Step(expect=..., input=...)], and
    nothing else, when [R] allows that. *)
Hypothesis R_append :
  forall e input s w,
    R (s, w) (set_actions (actions s ++ [StepM.make e input])%list s, w).

Lemma kept_add_step input e : kept R (add_step input e).
Proof.
  unfold add_step. apply kept_bind; [apply kept_get_self|]. intros s0.
  apply kept_set_self. intros s w. apply R_append.
Qed.

Lemma kept_basic_step commands e : kept R (basic_step commands e).
Proof.
  unfold basic_step. destruct commands; [apply kept_ret | apply kept_add_step].
Qed.

Lemma kept_cwd dir local : kept R (cwd dir local).
Proof.
  unfold cwd. apply kept_bind; [apply kept_get_self|]. intros s0.
  apply kept_bind; [|intros cd; apply kept_basic_step].
  repeat apply kept_if; (apply kept_ret || apply kept_raise).
Qed.

Lemma kept_transfer t file outdir local new_name options :
  kept R (transfer t file outdir local new_name options).
Proof.
  unfold transfer. apply kept_bind; [apply kept_get_self|]. intros s0.
  apply kept_bind; [apply kept_when, kept_raise|]. intros _.
  apply kept_bind; [apply kept_when, kept_cwd|]. intros _.
  destruct options; apply kept_basic_step.
Qed.

Lemma kept_check_numeric item : kept R (check_numeric item).
Proof.
  unfold check_numeric. destruct (snd item);
    repeat apply kept_if; (apply kept_ret || apply kept_raise).
Qed.

(** [set_permissions] once the group argument has been looked at. *)
Lemma kept_permissions_body (is_sftp : bool) g octal files :
  kept R (when is_sftp (for_each [("group", g); ("octal", octal)] check_numeric) ;;
          for_each files (fun file =>
            basic_step [PStr "chmod"; octal; file] PNone ;;
            s <- get_self ;;
            when (truthy (group s)) (basic_step [PStr "chgrp"; group s; file] PNone))).
Proof.
  apply kept_bind.
  - apply kept_when, kept_for_each. intros item. apply kept_check_numeric.
  - intros _. apply kept_for_each. intros file.
    apply kept_bind; [apply kept_basic_step|]. intros _.
    apply kept_bind; [apply kept_get_self|]. intros s0.
    apply kept_when, kept_basic_step.
Qed.

Lemma kept_set_permissions files g octal :
  (forall v s w, R (s, w) (set_group v s, w)) ->
  kept R (set_permissions files g octal).
Proof.
  intros Hg. unfold set_permissions.
  apply kept_bind; [apply kept_get_self|]. intros s0.
  apply kept_bind; [apply kept_when, kept_set_self; intros; apply Hg|]. intros _.
  apply kept_bind; [apply kept_get_self|]. intros s1.
  apply kept_permissions_body.
Qed.

Lemma kept_put file outdir new_name options set_perms :
  (forall v s w, R (s, w) (set_group v s, w)) ->
  kept R (put file outdir new_name options set_perms).
Proof.
  intros Hg. unfold put.
  apply kept_bind; [apply kept_when, kept_add_step|]. intros _.
  apply kept_bind; [apply kept_transfer|]. intros _.
  apply kept_when.
  apply kept_bind; [destruct outdir; (apply kept_ret || apply kept_raise)|]. intros d.
  apply kept_bind; [destruct file; (apply kept_ret || apply kept_raise)|]. intros f.
  apply kept_set_permissions, Hg.
Qed.

Lemma kept_preview_steps :
  (forall e s w, R (s, w) (s, Sys.log e w)) ->
  kept R preview_steps.
Proof.
  intros Hl. unfold preview_steps, get_actions, Sys.print.
  apply kept_bind; [apply kept_set_world; intros; apply Hl|]. intros _.
  apply kept_bind; [apply kept_bind; [apply kept_get_self | intros; apply kept_ret]|].
  intros acts. apply kept_for_each. intros a. apply kept_set_world. intros; apply Hl.
Qed.

Lemma kept_run :
  (forall e s w, R (s, w) (s, Sys.log e w)) ->
  kept R run.
Proof.
  intros Hl. unfold run, full_command, get_steps, Sys.system.
  apply kept_bind; [apply kept_get_self|]. intros s0.
  apply kept_bind; [repeat apply kept_if; (apply kept_ret || apply kept_raise)|].
  intros end_.
  apply kept_bind; [apply kept_add_step|]. intros _.
  apply kept_bind.
  - apply kept_bind; [apply kept_get_self|]. intros s1.
    apply kept_bind; [apply kept_bind; [apply kept_get_self | intros; apply kept_ret]|].
    intros pw.
    apply kept_bind; [apply kept_bind; [apply kept_get_self | intros; apply kept_ret]|].
    intros body. apply kept_ret.
  - intros cmd. apply kept_set_world. intros; apply Hl.
Qed.

(** Every call, given what [R] allows among: assigning the group, emptying
    the sequence, logging an effect. *)
Lemma kept_perform c :
  (forall v s w, R (s, w) (set_group v s, w)) ->
  (c = CallClear -> forall s w, R (s, w) (set_actions [] s, w)) ->
  (c = CallPreviewSteps \/ c = CallRun -> forall e s w, R (s, w) (s, Sys.log e w)) ->
  kept R (perform c).
Proof.
  intros Hg Hc Hl. destruct c; cbn [perform].
  - apply kept_add_step.
  - apply kept_basic_step.
  - apply kept_add_step.
  - apply kept_basic_step.
  - apply kept_cwd.
  - apply kept_set_permissions, Hg.
  - apply kept_transfer.
  - apply kept_transfer.
  - apply kept_put, Hg.
  - apply kept_set_self. apply Hc. reflexivity.
  - apply kept_preview_steps. apply Hl. left. reflexivity.
  - apply kept_run. apply Hl. right. reflexivity.
Qed.

End Kept.

Global Instance grown_preorder : PreOrder grown.
Proof.
  split.
  - intros [s w]. exists []. cbn. rewrite app_nil_r. reflexivity.
  - intros [s1 w1] [s2 w2] [s3 w3] [l1 H1] [l2 H2]. exists (l1 ++ l2)%list.
    cbn in *. rewrite H2, H1, <- app_assoc. reflexivity.
Qed.

Global Instance same_world_preorder : PreOrder same_world.
Proof.
  split.
  - intros [s w]. reflexivity.
  - intros [s1 w1] [s2 w2] [s3 w3] H1 H2. unfold same_world in *. cbn in *. congruence.
Qed.

Global Instance same_group_preorder : PreOrder same_group.
Proof.
  split.
  - intros [s w]. reflexivity.
  - intros [s1 w1] [s2 w2] [s3 w3] H1 H2. unfold same_group in *. cbn in *. congruence.
Qed.

Global Instance default_forms_kept_preorder : PreOrder default_forms_kept.
Proof.
  split.
  - intros [s w] H. exact H.
  - intros [s1 w1] [s2 w2] [s3 w3] H1 H2 H. apply H2, H1, H.
Qed.

(** ** What the builder calls keep *)



(** X7. No builder call other than [preview_steps] and [run] touches the
    world: nothing is printed, read or executed, and no file is written,
    whether the call returned or raised. *)
Theorem builders_execute_nothing :
  forall c s w r s' w',
    c <> CallPreviewSteps ->
    c <> CallRun ->
    perform c s w = (r, s', w') ->
    w' = w.
Proof.
  intros c s w r s' w' Hp Hr H.
  apply (kept_perform same_world) in H.
  - exact H.
  - intros e input s0 w0. reflexivity.
  - intros v s0 w0. reflexivity.
  - intros _ s0 w0. reflexivity.
  - intros [E|E]; contradiction.
Qed.

Lemma builders_execute_nothing_witness :
  snd (perform (CallGet (PStr "data.csv") (PStr "local") PNone ["r"])
               (Sample.session "sftp") Sample.world)
  = Sample.world.
Proof.
  set (x := perform (CallGet (PStr "data.csv") (PStr "local") PNone ["r"])
                    (Sample.session "sftp") Sample.world).
  apply (builders_execute_nothing
           (CallGet (PStr "data.csv") (PStr "local") PNone ["r"])
           (Sample.session "sftp") Sample.world (fst (fst x)) (snd (fst x)) (snd x)).
  - discriminate.
  - discriminate.
  - reflexivity.
Defined.

Lemma built_default_forms s0 s :
  built_from s0 s ->
  List.Forall default_form (actions s0) ->
  List.Forall default_form (actions s).
Proof.
  induction 1 as [|s c w r s' w' _ IH H]; intros H0; [exact H0|].
  apply (kept_perform default_forms_kept) in H.
  - apply H, IH, H0.
  - intros e input s1 w1 F. cbn in *. apply List.Forall_app. split; [exact F|].
    constructor; [|constructor]. exists e, input. reflexivity.
  - intros v s1 w1 F. exact F.
  - intros _ s1 w1 F. constructor.
  - intros _ e s1 w1 F. exact F.
Qed.

(** X8. Every step a constructed [Scripter] accumulates is quoted with
    double quotes, as [Step] does by default: the single quote the
    constructor stores in [self.quote] outside sftp mode is never used. *)
Theorem steps_always_double_quoted :
  forall depth u p st m g c site_type w0 s0 w1 s,
    new depth u p st m g c site_type w0 = (Ok tt, s0, w1) ->
    built_from s0 s ->
    List.Forall
      (fun x => exists e input,
           expectation x = "expect " ++ dq ++ py_str e ++ dq /\
           action x = "send " ++ dq ++ py_str input ++ nl ++ dq /\
           step_quote x = dq)
      (actions s) /\
    (m <> "sftp" -> quote s = Some "'").
Proof.
  intros depth u p st m g c site_type w0 s0 w1 s Hnew Hb.
  apply new_inv in Hnew. destruct Hnew as (s1 & r & -> & _). split.
  - assert (F : List.Forall default_form (actions s)).
    { apply (built_default_forms _ _ Hb). constructor. }
    eapply List.Forall_impl; [|exact F].
    intros x (e & input & ->). exists e, input. repeat split.
  - intros Hm. apply built_from_frame in Hb. unfold frame in Hb. rewrite Hb.
    cbn [quote set_group set_actions finish_init].
    destruct (String.eqb_spec m "sftp") as [E|E]; [contradiction | reflexivity].
Qed.

Lemma steps_always_double_quoted_witness :
  let s := snd (fst (pwd (Sample.session "ssh") Sample.world)) in
  List.Forall
    (fun x => exists e input,
         expectation x = "expect " ++ dq ++ py_str e ++ dq /\
         action x = "send " ++ dq ++ py_str input ++ nl ++ dq /\
         step_quote x = dq)
    (actions s) /\
  quote s = Some "'".
Proof.
  intros s.
  destruct (steps_always_double_quoted
              1 (PStr "bob") (PStr "pw") (PStr "hpc.edu") "ssh" PNone (PStr "cfg")
              "hpc" Sample.world (Sample.session "ssh") Sample.world s
              (sample_session_built "ssh")
              (built_call _ _ CallPwd Sample.world (Ok tt) s Sample.world
                          (built_start _) eq_refl)) as [F Q].
  split; [exact F | apply Q; discriminate].
Defined.

(** X9. Once the object has a group, the group argument of
    [set_permissions] is ignored: the call behaves as the call without the
    argument, and the group of the object is the same afterwards, whether the
    call returned or raised. *)
Theorem set_permissions_keeps_group :
  forall s w files group_arg octal,
    truthy (group s) = true ->
    set_permissions files group_arg octal s w
    = set_permissions files PNone octal s w /\
    group (snd (fst (set_permissions files group_arg octal s w))) = group s.
Proof.
  intros s w files group_arg octal Hg.
  assert (E : forall g, effective_group s g = group s).
  { intros g. unfold effective_group. rewrite Hg. reflexivity. }
  split.
  - rewrite !set_permissions_unfold, !E. reflexivity.
  - rewrite set_permissions_unfold, E, set_group_same.
    match goal with
    | |- group (snd (fst (?m s w))) = _ => destruct (m s w) as [[r s'] w'] eqn:R
    end.
    apply (kept_permissions_body same_group) in R; [exact R|].
    intros e input s0 w0. reflexivity.
Qed.

Lemma set_permissions_keeps_group_witness :
  let s := set_group (PStr "1001") (Sample.session "sftp") in
  set_permissions (OneFile "a.txt") (PStr "2002") (PStr "0664") s Sample.world
  = set_permissions (OneFile "a.txt") PNone (PStr "0664") s Sample.world.
Proof.
  intros s.
  apply (set_permissions_keeps_group s Sample.world (OneFile "a.txt") (PStr "2002")
           (PStr "0664") eq_refl).
Defined.

(** ** put with permissions *)

(** [set_permissions] in sftp mode: the group in force is checked, then the
    octal argument, then the steps are appended. *)
Lemma set_permissions_checked files group_arg octal s w :
  mode s = "sftp" ->
  let s1 := set_group (effective_group s group_arg) s in
  set_permissions files group_arg octal s w
  = (if rejected (group s1)
     then (Raise (TypeError (invalid_input (py_str (group s1)) "group")), s1, w)
     else if rejected octal
     then (Raise (TypeError (invalid_input (py_str octal) "octal")), s1, w)
     else (Ok tt,
           append_steps (permission_steps (expect s) (group s1) octal (files_of files)) s1,
           w)).
Proof.
  intros Hm s1. rewrite set_permissions_unfold. fold s1.
  rewrite Hm. change (String.eqb "sftp" "sftp") with true. unfold when.
  cbn [for_each]. unfold bind at 1 2. rewrite check_numeric_spec.
  change (effective_group s group_arg) with (group s1).
  destruct (rejected (group s1)); [reflexivity|].
  unfold bind at 1. rewrite check_numeric_spec.
  destruct (rejected octal); [reflexivity|].
  unfold ret. rewrite permission_loop. reflexivity.
Qed.

(** X10. In sftp mode [put(file, outdir, set_permissions=True)] with a
    non-empty [outdir] queues the [mkdir], [cd] and [put] steps and only then
    validates the group of the object: a group the check refuses (a
    non-empty text that is not numeric, or a negative integer) raises
    [TypeError] with the three steps already appended; otherwise the call
    also appends [chmod 0664] on the name of the file under [outdir] and,
    when the object has a group, the [chgrp] step.  An object without a group
    is never refused, and its group is [None] afterwards. *)
Theorem put_with_permissions_steps :
  forall file outdir new_name options s w,
    mode s = "sftp" ->
    outdir <> "" ->
    let g := effective_group s PNone in
    let s1 :=
      set_group g
        (append_steps
           [step_for s (PStr ("mkdir " ++ outdir));
            step_for s (PStr ("cd " ++ outdir));
            step_for s (PStr (command_of
                                (transfer_words "put" (PStr file) new_name options)))]
           s) in
    put (PStr file) (PStr outdir) new_name options true s w
    = (if rejected g
       then (Raise (TypeError (invalid_input (py_str g) "group")), s1, w)
       else (Ok tt,
             append_steps
               (permission_steps (expect s) g (PStr "0664")
                                 [PStr (uploaded file outdir)]) s1,
             w))
    /\ (truthy (group s) = true -> g = group s)
    /\ (truthy (group s) = false -> g = PNone /\ rejected g = false).
Proof.
  intros file outdir new_name options s w Hm Ho g s1.
  assert (To : truthy (PStr outdir) = true).
  { cbn [truthy]. apply negb_true_iff, String.eqb_neq, Ho. }
  split.
  - rewrite put_unfold. erewrite bind_ok.
    2:{ apply transfer_sftp. rewrite mode_after_mkdir. exact Hm. }
    unfold when. cbn [Path_of]. erewrite bind_ok by reflexivity.
    erewrite bind_ok by reflexivity. cbv zeta. fold (uploaded file outdir).
    unfold after_mkdir, cd_steps, cd_command. rewrite To.
    rewrite append_steps_app. cbn [py_str app].
    rewrite set_permissions_checked by exact Hm.
    reflexivity.
  - unfold g, effective_group. split.
    + intros ->. reflexivity.
    + intros ->. split; reflexivity.
Qed.

Lemma put_with_permissions_steps_witness :
  let s := Sample.session "sftp" in
  put (PStr "local/data.csv") (PStr "remote/dir") PNone [] true
      (set_group (PStr "1001") s) Sample.world
  = (Ok tt,
     append_steps
       [step_for s (PStr "mkdir remote/dir");
        step_for s (PStr "cd remote/dir");
        step_for s (PStr ("put local/data.csv " ++ nl));
        step_for s (PStr "chmod 0664 remote/dir/data.csv");
        step_for s (PStr "chgrp 1001 remote/dir/data.csv")]
       (set_group (PStr "1001") s),
     Sample.world)
  /\ put (PStr "local/data.csv") (PStr "remote/dir") PNone [] true
         (set_group (PStr "staff") s) Sample.world
     = (Raise (TypeError (invalid_input "staff" "group")),
        append_steps
          [step_for s (PStr "mkdir remote/dir");
           step_for s (PStr "cd remote/dir");
           step_for s (PStr ("put local/data.csv " ++ nl))]
          (set_group (PStr "staff") s),
        Sample.world).
Proof.
  intros s. split.
  - rewrite (proj1 (put_with_permissions_steps "local/data.csv" "remote/dir" PNone []
                      (set_group (PStr "1001") s) Sample.world eq_refl
                      ltac:(discriminate))).
    reflexivity.
  - rewrite (proj1 (put_with_permissions_steps "local/data.csv" "remote/dir" PNone []
                      (set_group (PStr "staff") s) Sample.world eq_refl
                      ltac:(discriminate))).
    reflexivity.
Defined.

(** X11. In sftp mode [put(file, set_permissions=True)] without a
    destination directory raises [TypeError] when it builds the path of the
    uploaded file, after the transfer step has been appended. *)
Theorem put_with_permissions_needs_outdir :
  forall file new_name options s w,
    mode s = "sftp" ->
    put file PNone new_name options true s w
    = (Raise (TypeError "expected str, bytes or os.PathLike object, not NoneType"),
       append_steps
         [step_for s (PStr (command_of (transfer_words "put" file new_name options)))] s,
       w).
Proof.
  intros file new_name options s w Hm. rewrite put_unfold.
  erewrite bind_ok by (apply transfer_sftp; exact Hm). reflexivity.
Qed.

Lemma put_with_permissions_needs_outdir_witness :
  put (PStr "data.csv") PNone PNone [] true (Sample.session "sftp") Sample.world
  = (Raise (TypeError "expected str, bytes or os.PathLike object, not NoneType"),
     append_steps [step_for (Sample.session "sftp") (PStr ("put data.csv " ++ nl))]
                  (Sample.session "sftp"),
     Sample.world).
Proof.
  apply (put_with_permissions_needs_outdir (PStr "data.csv") PNone []
           (Sample.session "sftp") Sample.world eq_refl).
Defined.

(** ** get_credentials: the ways out without credentials *)

(** X12. In headless mode, with the username or the password missing and
    no config file, [get_credentials] prints what the file should hold and
    exits with status 1; nothing is asked at the terminal and nothing is
    written. *)
Theorem headless_without_config_exits :
  forall depth save overwrite s w,
    truthy (username s) = false \/ truthy (password s) = false ->
    Sys.lookup_path (resolved_config s w) w = None ->
    get_credentials (S depth) save overwrite true s w
    = (Raise (SystemExit 1),
       set_config (Some (resolved_config s w)) s,
       logged [Print (missing_variables (resolved_config s w))] w).
Proof.
  intros depth save overwrite s w Hc Hl. cbn [get_credentials].
  erewrite bind_ok by apply resolve_config_spec.
  set (c := resolved_config s w) in *. set (s1 := set_config (Some c) s).
  erewrite bind_ok by reflexivity.
  assert (E : (negb (truthy (username s1)) || negb (truthy (password s1)))%bool = true).
  { change (username s1) with (username s). change (password s1) with (password s).
    destruct Hc as [-> | ->]; [reflexivity | apply orb_true_r]. }
  rewrite E. cbn [when].
  apply bind_raise.
  erewrite bind_ok by reflexivity.
  erewrite bind_ok.
  2:{ unfold Sys.exists_. cbv [bind get_world ret]. rewrite Hl.
      rewrite bool_decide_eq_false_2; [reflexivity|]. intros [x Hx]. discriminate Hx. }
  reflexivity.
Qed.

Lemma headless_without_config_exits_witness :
  let s := at_credentials (PStr "bob") PNone (PStr "hpc.edu") PNone (PStr "cfg.txt") in
  let w := mkWorld ∅ "/home/bob" "/work" ["typed"] [] in
  exists s' w',
    get_credentials 1 true false true s w = (Raise (SystemExit 1), s', w') /\
    stdin w' = ["typed"] /\ fs w' = ∅.
Proof.
  intros s w. eexists. eexists. split.
  - apply (headless_without_config_exits 0 true false s w).
    + right. reflexivity.
    + reflexivity.
  - split; reflexivity.
Defined.

(** ** get_credentials: a config file without a password *)

Lemma default_config_anchored w :
  String.prefix "/" (home w) = true -> anchor (default_config w) <> "".
Proof.
  intros H. destruct (home w) as [|c h] eqn:E; [discriminate H|].
  cbn [String.prefix] in H. destruct (ascii_dec "/" c) as [<-|]; [|discriminate H].
  pose proof (parse_anchor_slash h) as Hp.
  unfold default_config, Pathlib.resolve, Pathlib.joinpath. rewrite E.
  change (anchor (Pathlib.of_str ".pooPatrol/hpc_config.txt")) with "".
  cbn [String.eqb anchor].
  change (anchor (Pathlib.of_str (String "/" h))) with (Pathlib.parse_anchor (String "/" h)).
  destruct (String.eqb_spec (Pathlib.parse_anchor (String "/" h)) "") as [F|F];
    [contradiction | exact Hp].
Qed.

Lemma resolved_config_stable s w :
  String.prefix "/" (home w) = true ->
  Pathlib.mem Pathlib.tilde (Pathlib.parents (resolved_config s w)) = false.
Proof.
  intros H. unfold resolved_config. destruct (config s).
  - apply expand_home_stable, H.
  - apply mem_tilde_anchored, default_config_anchored, H.
Qed.

Lemma resolved_config_again s w s1 :
  String.prefix "/" (home w) = true ->
  config s1 = Some (resolved_config s w) ->
  resolved_config s1 w = resolved_config s w.
Proof.
  intros H E. unfold resolved_config at 1. rewrite E. unfold expand_home.
  rewrite (resolved_config_stable s w H). reflexivity.
Qed.

Lemma read_line_keeps_password line s w :
  contains "password" (lower line) = false ->
  exists s',
    for_each ["username"; "password"; "group"; "site"]
             (fun cred => _get_credential_if_present line cred) s w
    = (Ok tt, s', w) /\
    password s' = password s /\ config s' = config s.
Proof.
  intros H. cbn [for_each]. unfold _get_credential_if_present. rewrite H.
  destruct (contains "username" (lower line)),
           (contains "group" (lower line)),
           (contains "site" (lower line));
    eexists; split; try reflexivity; split; reflexivity.
Qed.

Lemma read_lines_keep_password (l : list string) w : forall s,
  List.forallb (fun line => negb (contains "password" (lower (strip line)))) l = true ->
  exists s',
    for_each l (fun line =>
      let line := strip line in
      for_each ["username"; "password"; "group"; "site"]
               (fun cred => _get_credential_if_present line cred)) s w
    = (Ok tt, s', w) /\
    password s' = password s /\ config s' = config s.
Proof.
  induction l as [|line l IH]; intros s H.
  - exists s. repeat split.
  - cbn [List.forallb] in H. apply andb_true_iff in H. destruct H as [H1 H2].
    apply negb_true_iff in H1.
    destruct (read_line_keeps_password (strip line) s w H1) as (s1 & E1 & P1 & C1).
    destruct (IH s1 H2) as (s2 & E2 & P2 & C2).
    exists s2. cbn [for_each]. cbv zeta. erewrite bind_ok by exact E1.
    split; [exact E2|]. split; congruence.
Qed.

(** On an object whose config path is settled already, a config file
    without a password line makes [get_credentials] call itself until the
    depth is used up. *)
Lemma unread_password_recurses :
  forall depth save overwrite headless s w c content,
    config s = Some c ->
    Pathlib.mem Pathlib.tilde (Pathlib.parents c) = false ->
    truthy (password s) = false ->
    Sys.lookup_path c w = Some (File content) ->
    no_password_line content = true ->
    exists s',
      get_credentials depth save overwrite headless s w = (Raise RecursionError, s', w).
Proof.
  induction depth as [|d IH]; intros save overwrite headless s w c content Hc Hm Hp Hf Hn.
  - exists s. reflexivity.
  - cbn [get_credentials].
    assert (Hr : resolve_config s w = (Ok tt, s, w)).
    { rewrite resolve_config_spec. unfold resolved_config, expand_home.
      rewrite Hc, Hm, <- Hc, set_config_same. reflexivity. }
    erewrite bind_ok by exact Hr.
    erewrite bind_ok by reflexivity.
    rewrite Hp, orb_true_r. cbn [when].
    destruct (read_lines_keep_password (Sys.lines content) w s Hn) as (s1 & E1 & P1 & C1).
    destruct (IH true false false s1 w c content) as (s2 & E2); try assumption;
      try congruence.
    exists s2. apply bind_raise.
    erewrite bind_ok by (unfold the_config; cbv [bind get_self]; rewrite Hc; reflexivity).
    erewrite bind_ok.
    2:{ unfold Sys.exists_. cbv [bind get_world ret]. rewrite Hf.
        rewrite (bool_decide_eq_true_2 _ (mk_is_Some _ _ eq_refl)). reflexivity. }
    cbv iota. erewrite bind_ok.
    2:{ unfold read_credentials. erewrite bind_ok.
        2:{ unfold Sys.read_text. cbv [bind get_world]. rewrite Hf. reflexivity. }
        exact E1. }
    apply bind_raise. exact E2.
Qed.

(** X13. With no password given and a config file that mentions none
    (the file at the path given, with its leading [~] expanded, or at the
    default path; the home directory being absolute), [get_credentials]
    reads the file and calls itself again and again: at every depth allowed
    it ends in [RecursionError], and it never asks at the terminal nor
    touches the world. *)
Theorem config_without_password_recurses :
  forall depth save overwrite headless s w content,
    String.prefix "/" (home w) = true ->
    truthy (password s) = false ->
    Sys.lookup_path (resolved_config s w) w = Some (File content) ->
    no_password_line content = true ->
    exists s',
      get_credentials depth save overwrite headless s w = (Raise RecursionError, s', w).
Proof.
  intros depth save overwrite headless s w content Hh Hp Hf Hn.
  destruct depth as [|d]; [exists s; reflexivity|].
  set (c := resolved_config s w) in *. set (s1 := set_config (Some c) s).
  destruct (unread_password_recurses (S d) save overwrite headless s1 w c content)
    as (s2 & E); try assumption; try reflexivity.
  { apply resolved_config_stable, Hh. }
  assert (R1 : resolve_config s1 w = (Ok tt, s1, w)).
  { rewrite resolve_config_spec.
    rewrite (resolved_config_again s w s1 Hh eq_refl). reflexivity. }
  exists s2. rewrite <- E.
  cbn [get_credentials]. erewrite bind_ok by apply resolve_config_spec.
  symmetry. erewrite bind_ok by exact R1. reflexivity.
Qed.

Lemma config_without_password_recurses_witness :
  let w := mkWorld {[ "/home/alice/.pooPatrol/hpc_config.txt" := File "username=alice" ]}
                   "/home/alice" "/work" ["typed"] [] in
  (exists s',
      get_credentials 50 true false false
        (at_credentials PNone PNone (PStr "hpc.edu") PNone
                        (PStr "~/.pooPatrol/hpc_config.txt")) w
      = (Raise RecursionError, s', w)) /\
  (exists s',
      get_credentials 50 true false false
        (at_credentials PNone PNone (PStr "hpc.edu") PNone PNone) w
      = (Raise RecursionError, s', w)).
Proof.
  intros w. split.
  - apply (config_without_password_recurses 50 true false false _ w "username=alice");
      reflexivity.
  - apply (config_without_password_recurses 50 true false false _ w "username=alice");
      reflexivity.
Defined.

(** ** request_credentials *)

Lemma request_dialogue depth reset_user s files h wd t u ok p g x rest :
  (negb (truthy (username s)) || reset_user)%bool = true ->
  truthy (password s) = false ->
  truthy (group s) = false ->
  truthy (site s) = false ->
  lower (strip ok) <> "n" ->
  request_credentials (S depth) reset_user false s
    (mkWorld files h wd (u :: ok :: p :: g :: x :: rest) t)
  = (Ok tt,
     set_site (PStr x) (set_group (PStr g) (set_password (PStr p)
       (set_username (PStr u) s))),
     mkWorld files h wd rest (t ++ dialogue u)).
Proof.
  intros Hu Hp Hg Hs Hok.
  apply String.eqb_neq in Hok.
  cbn [request_credentials].
  erewrite bind_ok by reflexivity.
  erewrite bind_ok by reflexivity.
  rewrite Hu. cbn [when].
  erewrite bind_ok.
  2:{ erewrite bind_ok by reflexivity.
      erewrite bind_ok by reflexivity.
      erewrite bind_ok by reflexivity.
      erewrite bind_ok by reflexivity.
      rewrite Hok. reflexivity. }
  erewrite bind_ok by reflexivity.
  change (password (set_username (PStr u) s)) with (password s).
  rewrite Hp. cbn [negb orb when].
  erewrite bind_ok.
  2:{ erewrite bind_ok by reflexivity. reflexivity. }
  erewrite bind_ok by reflexivity.
  change (group (set_password (PStr p) (set_username (PStr u) s))) with (group s).
  rewrite Hg. cbn [negb when].
  erewrite bind_ok.
  2:{ erewrite bind_ok by reflexivity. reflexivity. }
  erewrite bind_ok by reflexivity.
  change (site (set_group (PStr g) (set_password (PStr p) (set_username (PStr u) s))))
    with (site s).
  rewrite Hs. cbn [negb when].
  erewrite bind_ok by reflexivity.
  cbv [set_self Sys.log]. cbn [fs home workdir stdin trace].
  unfold dialogue. rewrite <- !app_assoc. reflexivity.
Qed.


(** X14. With none of the four credentials in hand,
    [request_credentials] asks for the username, its confirmation, the
    password (without echo), the group and the site, in this order, reads
    exactly five lines and stores the four typed values; any confirmation
    other than [n] is taken as a yes. *)
Theorem request_credentials_asks_in_order :
  forall depth s files h wd t u ok p g x rest,
    truthy (username s) = false ->
    truthy (password s) = false ->
    truthy (group s) = false ->
    truthy (site s) = false ->
    lower (strip ok) <> "n" ->
    request_credentials (S depth) false false s
      (mkWorld files h wd (u :: ok :: p :: g :: x :: rest) t)
    = (Ok tt,
       set_site (PStr x) (set_group (PStr g) (set_password (PStr p)
         (set_username (PStr u) s))),
       mkWorld files h wd rest (t ++ dialogue u)).
Proof.
  intros depth s files h wd t u ok p g x rest Hu Hp Hg Hs Hok.
  apply request_dialogue; try assumption. rewrite Hu. reflexivity.
Qed.

Lemma request_credentials_asks_in_order_witness :
  request_credentials 1 false false blank
    (mkWorld ∅ "/home/bob" "/work" ["bob"; ""; "pw"; ""; "hpc.edu"; "left"] [])
  = (Ok tt,
     set_site (PStr "hpc.edu") (set_group (PStr "") (set_password (PStr "pw")
       (set_username (PStr "bob") blank))),
     mkWorld ∅ "/home/bob" "/work" ["left"] (dialogue "bob")).
Proof.
  apply (request_credentials_asks_in_order 0 blank ∅ "/home/bob" "/work" []
           "bob" "" "pw" "" "hpc.edu" ["left"]);
    try reflexivity.
  discriminate.
Defined.

(** X15. When the username is refused with [n], [request_credentials]
    starts over within itself: it asks for the username and the confirmation
    again, then for the password, the group and the site, and, these being
    non-empty, asks nothing more once back in the first call. *)
Theorem request_credentials_asks_again :
  forall depth s files h wd t u1 no u2 ok p g x rest,
    truthy (username s) = false ->
    truthy (password s) = false ->
    truthy (group s) = false ->
    truthy (site s) = false ->
    lower (strip no) = "n" ->
    lower (strip ok) <> "n" ->
    p <> "" -> g <> "" -> x <> "" ->
    request_credentials (S (S depth)) false false s
      (mkWorld files h wd (u1 :: no :: u2 :: ok :: p :: g :: x :: rest) t)
    = (Ok tt,
       set_site (PStr x) (set_group (PStr g) (set_password (PStr p)
         (set_username (PStr u2) s))),
       mkWorld files h wd rest (t ++ dialogue_again u1 u2)).
Proof.
  intros depth s files h wd t u1 no u2 ok p g x rest Hu Hp Hg Hs Hno Hok Np Ng Nx.
  apply String.eqb_neq in Np, Ng, Nx.
  remember (S depth) as d eqn:Ed. cbn [request_credentials]. subst d.
  erewrite bind_ok by reflexivity.
  erewrite bind_ok by reflexivity.
  rewrite Hu. cbn [negb orb when].
  erewrite bind_ok.
  2:{ erewrite bind_ok by reflexivity.
      erewrite bind_ok by reflexivity.
      erewrite bind_ok by reflexivity.
      erewrite bind_ok by reflexivity.
      rewrite Hno. cbn [String.eqb when].
      change (String.eqb "n" "n") with true. cbv iota.
      apply request_dialogue; try assumption. apply orb_true_r. }
  erewrite bind_ok by reflexivity.
  cbn [password group site set_site set_group set_password set_username truthy].
  rewrite Np. cbn [negb orb when].
  erewrite bind_ok by reflexivity.
  erewrite bind_ok by reflexivity.
  cbn [password group site set_site set_group set_password set_username truthy].
  rewrite Ng. cbn [negb when].
  erewrite bind_ok by reflexivity.
  erewrite bind_ok by reflexivity.
  cbn [password group site set_site set_group set_password set_username truthy].
  rewrite Nx. cbn [negb when]. unfold ret.
  unfold dialogue_again. cbn [Sys.log fs home workdir stdin trace].
  rewrite <- !app_assoc. reflexivity.
Qed.

Lemma request_credentials_asks_again_witness :
  request_credentials 2 false false blank
    (mkWorld ∅ "/home/bob" "/work" ["bbo"; " N "; "bob"; "y"; "pw"; "1001"; "hpc.edu"] [])
  = (Ok tt,
     set_site (PStr "hpc.edu") (set_group (PStr "1001") (set_password (PStr "pw")
       (set_username (PStr "bob") blank))),
     mkWorld ∅ "/home/bob" "/work" [] (dialogue_again "bbo" "bob")).
Proof.
  apply (request_credentials_asks_again 0 blank ∅ "/home/bob" "/work" []
           "bbo" " N " "bob" "y" "pw" "1001" "hpc.edu" []);
    try reflexivity; discriminate.
Defined.

(** ** reset_username and reset_password *)

Global Instance same_login_preorder : PreOrder same_login.
Proof.
  split.
  - intros [s w]. unfold same_login. repeat split.
  - intros [s1 w1] [s2 w2] [s3 w3] H1 H2. unfold same_login in *. cbn in *.
    destruct H1 as (A1 & B1 & C1 & D1 & E1 & F1 & G1).
    destruct H2 as (A2 & B2 & C2 & D2 & E2 & F2 & G2).
    repeat split; congruence.
Qed.

Lemma same_login_read_line e : kept same_login (Sys.read_line e).
Proof.
  intros s w r s' w'. unfold Sys.read_line.
  destruct (stdin w); intros [= _ <- _]; unfold same_login; repeat split.
Qed.

Lemma same_login_print text : kept same_login (Sys.print text).
Proof. apply kept_set_world. intros s w. unfold same_login. repeat split. Qed.

Lemma same_login_request depth : forall reset_user reset_pass,
  kept same_login (request_credentials depth reset_user reset_pass).
Proof.
  induction depth as [|d IH]; intros reset_user reset_pass; cbn [request_credentials].
  - apply kept_raise; apply _.
  - unfold Sys.input, Sys.getpass.
    repeat first
      [ apply same_login_print
      | apply same_login_read_line
      | apply IH
      | apply kept_get_self; apply _
      | apply kept_ret; apply _
      | apply kept_when; try apply _
      | apply kept_set_self; intros s w; unfold same_login; repeat split
      | apply kept_bind; [apply _ | | intros ?] ].
Qed.

Lemma self_kept_set_world f : self_kept (set_world f).
Proof. intros s w r s' w' [= _ <- _]. reflexivity. Qed.

Lemma self_kept_get_self : self_kept get_self.
Proof. intros s w r s' w' [= _ <- _]. reflexivity. Qed.

Lemma self_kept_the_config : self_kept the_config.
Proof.
  intros s w r s' w'. unfold the_config. cbv [bind get_self].
  destruct (config s); intros [= _ <- _]; reflexivity.
Qed.

Lemma self_kept_open_w c : self_kept (Sys.open_w c).
Proof.
  intros s w r s' w'. unfold Sys.open_w. cbv [bind get_world raise set_world].
  destruct (Sys.lookup_path c w) as [[?|]|];
    destruct (Sys.lookup_path (Pathlib.parent c) w) as [[?|]|];
    intros [= _ <- _]; reflexivity.
Qed.

Lemma self_kept_write_credentials : self_kept write_credentials.
Proof.
  unfold write_credentials.
  apply self_kept_bind; [apply self_kept_the_config|]. intros c.
  apply self_kept_bind; [apply self_kept_mkdir_parents|]. intros _.
  apply self_kept_bind; [apply self_kept_open_w|]. intros _.
  apply self_kept_bind; [apply self_kept_get_self|]. intros s1.
  apply self_kept_bind; [apply self_kept_set_world|]. intros _.
  apply self_kept_bind; [apply self_kept_get_self|]. intros s2.
  apply self_kept_set_world.
Qed.

Lemma same_login_write : kept same_login write_credentials.
Proof.
  intros s w r s' w' H. apply self_kept_write_credentials in H. subst s'.
  unfold same_login. repeat split.
Qed.

Lemma same_login_reset depth :
  kept same_login (reset_username depth) /\ kept same_login (reset_password depth).
Proof.
  split; (apply kept_bind; [apply _ | apply same_login_request
                           | intros _; apply same_login_write]).
Qed.

(** X16. [reset_username] and [reset_password] change the credentials of
    the object and nothing of the script: a later [run] still logs in with the
    username, the site and the password the object was constructed with. *)
Theorem reset_leaves_login_steps :
  forall depth u p st m g c site_type w0 s0 w1 s reset_depth w r s' w' w2,
    new depth u p st m g c site_type w0 = (Ok tt, s0, w1) ->
    built_from s0 s ->
    m = "sftp" \/ m = "ssh" ->
    reset_username reset_depth s w = (r, s', w') \/
    reset_password reset_depth s w = (r, s', w') ->
    run s' w2
    = (Ok tt, append_steps [step_for s0 (PStr (exit_command m))] s',
       Sys.log (System (script m (username s0) (site s0) (password s0)
                               (actions s ++ [step_for s0 (PStr (exit_command m))])))
               w2).
Proof.
  intros depth u p st m g c site_type w0 s0 w1 s reset_depth w r s' w' w2
         Hnew Hb Hm Hreset.
  apply new_inv in Hnew. destruct Hnew as (s1 & r0 & -> & _).
  apply built_from_frame in Hb. unfold frame in Hb.
  assert (L : same_login (s, w) (s', w')).
  { destruct Hreset as [H|H];
      [apply (proj1 (same_login_reset reset_depth)) in H
      |apply (proj2 (same_login_reset reset_depth)) in H]; exact H. }
  destruct L as (Lm & Le & Lo & Ln & Lc & La & Lp). cbn [fst] in *.
  assert (Hmode : mode s' = m) by (rewrite Lm, Hb; reflexivity).
  assert (Hexp : expect s' = expect (finish_init m s1)) by (rewrite Le, Hb; reflexivity).
  assert (Ho : open s' = open (finish_init m s1)) by (rewrite Lo, Hb; reflexivity).
  assert (He : entry s' = entry (finish_init m s1)) by (rewrite Ln, Hb; reflexivity).
  assert (Hc : close s' = close (finish_init m s1)) by (rewrite Lc, Hb; reflexivity).
  assert (Hw : pw_steps s' = pw_steps (finish_init m s1)) by (rewrite Lp, Hb; reflexivity).
  rewrite run_in_mode.
  - unfold append_steps, script, step_for.
    rewrite Hmode, Hexp, Ho, He, Hc, Hw, La. reflexivity.
  - rewrite Hmode. exact Hm.
  - rewrite Hw. discriminate.
Qed.

Lemma reset_leaves_login_steps_witness :
  let w := mkWorld {[ "cfg" := File "" ]} "/home/bob" "/work" ["new-pw"; "1001"] [] in
  let s' := snd (fst (reset_password 1 (Sample.session "sftp") w)) in
  fst (fst (reset_password 1 (Sample.session "sftp") w)) = Ok tt /\
  password s' = PStr "new-pw" /\
  run s' Sample.world
  = (Ok tt, append_steps [step_for (Sample.session "sftp") (PStr "quit")] s',
     Sys.log (System (script "sftp" (PStr "bob") (PStr "hpc.edu") (PStr "pw")
                             [step_for (Sample.session "sftp") (PStr "quit")]))
             Sample.world).
Proof.
  intros w s'. split; [vm_compute; reflexivity|]. split; [reflexivity|].
  set (x := reset_password 1 (Sample.session "sftp") w).
  apply (reset_leaves_login_steps
           1 (PStr "bob") (PStr "pw") (PStr "hpc.edu") "sftp" PNone (PStr "cfg") "hpc"
           Sample.world (Sample.session "sftp") Sample.world (Sample.session "sftp")
           1 w (fst (fst x)) s' (snd x) Sample.world
           (sample_session_built "sftp") (built_start _) (or_introl eq_refl)).
  right. reflexivity.
Defined.

(** ** The config file: from write_credentials to read_credentials *)

Lemma not_space_not_break c :
  not_space c = true -> N.eqb (code c) 10 = false /\ N.eqb (code c) 13 = false.
Proof.
  unfold not_space, is_space, in_range. intros H. apply negb_true_iff in H.
  split; apply N.eqb_neq; intros E; rewrite E in H; discriminate H.
Qed.

Lemma lines_from_segment rest : forall x cur,
  all_chars not_space x = true ->
  Sys.lines_from cur (x ++ nl ++ rest) = (cur ++ x ++ nl) :: Sys.lines_from "" rest.
Proof.
  induction x as [|c x IH]; intros cur H.
  - reflexivity.
  - cbn [all_chars] in H. apply andb_true_iff in H. destruct H as [Hc Hx].
    destruct (not_space_not_break c Hc) as [H10 H13].
    rewrite append_cons. cbn [Sys.lines_from]. rewrite H10, H13.
    rewrite (IH _ Hx). rewrite append_assoc. reflexivity.
Qed.

Lemma all_chars_app f a b :
  all_chars f (a ++ b) = (all_chars f a && all_chars f b)%bool.
Proof.
  induction a as [|c a IH]; [reflexivity|].
  rewrite append_cons. cbn [all_chars]. rewrite IH, andb_assoc. reflexivity.
Qed.

Lemma lstrip_not_space a b :
  all_chars not_space a = true -> a <> "" -> lstrip (a ++ b) = a ++ b.
Proof.
  destruct a as [|c a]; [congruence|]. intros H _.
  cbn [all_chars] in H. apply andb_true_iff in H. destruct H as [Hc _].
  rewrite append_cons. cbn [lstrip]. unfold not_space in Hc.
  apply negb_true_iff in Hc. rewrite Hc. reflexivity.
Qed.

Lemma rstrip_not_space : forall a,
  all_chars not_space a = true -> rstrip (a ++ nl) = a /\ rstrip a = a.
Proof.
  induction a as [|c a IH]; intros H.
  - split; reflexivity.
  - cbn [all_chars] in H. apply andb_true_iff in H. destruct H as [Hc Ha].
    destruct (IH Ha) as [E1 E2]. unfold not_space in Hc. apply negb_true_iff in Hc.
    rewrite append_cons. cbn [rstrip]. rewrite E1, E2, Hc.
    destruct a; split; reflexivity.
Qed.

Lemma strip_line a :
  all_chars not_space a = true -> strip (a ++ nl) = a /\ strip a = a.
Proof.
  intros H. unfold strip. destruct a as [|c a].
  - split; reflexivity.
  - rewrite lstrip_not_space by (exact H || discriminate).
    rewrite <- (append_nil (String c a)) at 3.
    assert (E : lstrip (String c a) = String c a).
    { cbn [all_chars] in H. apply andb_true_iff in H. destruct H as [Hc _].
      unfold not_space in Hc. apply negb_true_iff in Hc. cbn [lstrip]. rewrite Hc.
      reflexivity. }
    rewrite append_nil, E. apply rstrip_not_space, H.
Qed.

Lemma split_without_separator : forall x,
  all_chars not_equals x = true -> split "="%char x = [x].
Proof.
  induction x as [|c x IH]; intros H; [reflexivity|].
  cbn [all_chars] in H. apply andb_true_iff in H. destruct H as [Hc Hx].
  unfold not_equals in Hc. apply negb_true_iff in Hc.
  cbn [split]. rewrite (IH Hx), Hc. reflexivity.
Qed.

(** The value [_get_credential_if_present] takes from a line is what
    follows its last equals sign. *)
Lemma value_after_last_equals x : forall a,
  all_chars not_equals x = true ->
  last_item (split "="%char (a ++ String "=" x)) = x.
Proof.
  intros a Hx.
  assert (E : exists h t, split "="%char (a ++ String "=" x) = (h :: t ++ [x])%list).
  { induction a as [|c a IH].
    - exists "", []. rewrite append_nil. cbn [split].
      rewrite (split_without_separator x Hx). reflexivity.
    - destruct IH as (h & t & IH). rewrite append_cons. cbn [split]. rewrite IH.
      destruct (Ascii.eqb c "="); eexists; eexists; [|reflexivity].
      change (EmptyString :: h :: (t ++ [x])%list) with (EmptyString :: ((h :: t) ++ [x])%list).
      reflexivity. }
  destruct E as (h & t & ->). unfold last_item.
  change (h :: (t ++ [x])%list) with (((h :: t) ++ [x])%list).
  apply List.last_last.
Qed.

Lemma plain_parts x :
  plain x = true -> all_chars not_space x = true /\ all_chars not_equals x = true.
Proof. unfold plain. intros H. apply andb_true_iff in H. exact H. Qed.

Lemma username_line u s w :
  plain u = true ->
  spells_none ["password"; "group"; "site"] u = true ->
  for_each ["username"; "password"; "group"; "site"]
           (fun cred => _get_credential_if_present ("username=" ++ u) cred) s w
  = (Ok tt, set_username (PStr u) s, w).
Proof.
  intros Hp Hk. destruct (plain_parts u Hp) as [Hs He].
  unfold spells_none in Hk. cbn [List.forallb] in Hk.
  apply andb_true_iff in Hk. destruct Hk as [K1 Hk].
  apply andb_true_iff in Hk. destruct Hk as [K2 Hk].
  apply andb_true_iff in Hk. destruct Hk as [K3 _].
  apply negb_true_iff in K1, K2, K3.
  cbn [for_each]. unfold _get_credential_if_present.
  change (lower ("username=" ++ u)) with ("username=" ++ lower u).
  change (contains "username" ("username=" ++ lower u)) with true.
  change (contains "password" ("username=" ++ lower u)) with (contains "password" (lower u)).
  change (contains "group" ("username=" ++ lower u)) with (contains "group" (lower u)).
  change (contains "site" ("username=" ++ lower u)) with (contains "site" (lower u)).
  rewrite K1, K2, K3.
  change ("username=" ++ u) with ("username" ++ String "=" u).
  rewrite (value_after_last_equals u "username" He).
  rewrite (proj2 (strip_line u Hs)). reflexivity.
Qed.

Lemma password_line p s w :
  plain p = true ->
  spells_none ["username"; "group"; "site"] p = true ->
  for_each ["username"; "password"; "group"; "site"]
           (fun cred => _get_credential_if_present ("password=" ++ p) cred) s w
  = (Ok tt, set_password (PStr p) s, w).
Proof.
  intros Hp Hk. destruct (plain_parts p Hp) as [Hs He].
  unfold spells_none in Hk. cbn [List.forallb] in Hk.
  apply andb_true_iff in Hk. destruct Hk as [K1 Hk].
  apply andb_true_iff in Hk. destruct Hk as [K2 Hk].
  apply andb_true_iff in Hk. destruct Hk as [K3 _].
  apply negb_true_iff in K1, K2, K3.
  cbn [for_each]. unfold _get_credential_if_present.
  change (lower ("password=" ++ p)) with ("password=" ++ lower p).
  change (contains "password" ("password=" ++ lower p)) with true.
  change (contains "username" ("password=" ++ lower p)) with (contains "username" (lower p)).
  change (contains "group" ("password=" ++ lower p)) with (contains "group" (lower p)).
  change (contains "site" ("password=" ++ lower p)) with (contains "site" (lower p)).
  rewrite K1, K2, K3.
  change ("password=" ++ p) with ("password" ++ String "=" p).
  rewrite (value_after_last_equals p "password" He).
  rewrite (proj2 (strip_line p Hs)). reflexivity.
Qed.

Lemma credentials_text_lines u p :
  all_chars not_space u = true -> all_chars not_space p = true ->
  List.map strip (Sys.lines (credentials_text (PStr u) (PStr p)))
  = ["username=" ++ u; "password=" ++ p].
Proof.
  intros Su Sp.
  assert (Au : all_chars not_space ("username=" ++ u) = true).
  { rewrite all_chars_app, Su. reflexivity. }
  assert (Ap : all_chars not_space ("password=" ++ p) = true).
  { rewrite all_chars_app, Sp. reflexivity. }
  unfold credentials_text, Sys.lines. cbn [py_str].
  change ("username=" ++ u ++ nl ++ "password=" ++ p ++ nl)
    with (("username=" ++ u) ++ nl ++ ("password=" ++ p) ++ nl ++ "").
  rewrite (lines_from_segment _ _ "" Au).
  rewrite (lines_from_segment _ _ "" Ap).
  cbn [Sys.lines_from List.map String.eqb]. rewrite !append_nil.
  rewrite (proj1 (strip_line _ Au)), (proj1 (strip_line _ Ap)). reflexivity.
Qed.

Lemma password_line_last a b s w :
  all_chars not_space b = true ->
  all_chars not_equals b = true ->
  spells_none ["username"; "group"; "site"] (a ++ String "=" b) = true ->
  for_each ["username"; "password"; "group"; "site"]
           (fun cred => _get_credential_if_present
                          ("password=" ++ a ++ String "=" b) cred) s w
  = (Ok tt, set_password (PStr b) s, w).
Proof.
  intros Hs He Hk. set (p := a ++ String "=" b) in *.
  unfold spells_none in Hk. cbn [List.forallb] in Hk.
  apply andb_true_iff in Hk. destruct Hk as [K1 Hk].
  apply andb_true_iff in Hk. destruct Hk as [K2 Hk].
  apply andb_true_iff in Hk. destruct Hk as [K3 _].
  apply negb_true_iff in K1, K2, K3.
  cbn [for_each]. unfold _get_credential_if_present.
  change (lower ("password=" ++ p)) with ("password=" ++ lower p).
  change (contains "password" ("password=" ++ lower p)) with true.
  change (contains "username" ("password=" ++ lower p)) with (contains "username" (lower p)).
  change (contains "group" ("password=" ++ lower p)) with (contains "group" (lower p)).
  change (contains "site" ("password=" ++ lower p)) with (contains "site" (lower p)).
  rewrite K1, K2, K3. unfold p.
  rewrite <- (append_assoc "password=" a (String "=" b)).
  rewrite (value_after_last_equals b ("password=" ++ a) He).
  rewrite (proj2 (strip_line b Hs)). reflexivity.
Qed.

(** X17. What [write_credentials] writes, [read_credentials] reads back:
    when the username and the password are texts without white space and
    without the equals sign, and neither spells another key word of the file,
    reading the written file into any object sets its username and password
    to the written ones and changes nothing else. *)
Theorem config_file_round_trip :
  forall s w s' w' u p s2,
    write_credentials s w = (Ok tt, s', w') ->
    username s = PStr u ->
    password s = PStr p ->
    plain u = true ->
    plain p = true ->
    spells_none ["password"; "group"; "site"] u = true ->
    spells_none ["username"; "group"; "site"] p = true ->
    exists c,
      config s = Some c /\
      read_credentials c s2 w'
      = (Ok tt, set_password (PStr p) (set_username (PStr u) s2), w').
Proof.
  intros s w s' w' u p s2 Hw Hu Hp Pu Pp Ku Kp.
  apply write_credentials_ok_inv in Hw. destruct Hw as (c & Hc & -> & Hl & _).
  rewrite Hu, Hp in Hl.
  exists c. split; [exact Hc|].
  unfold read_credentials.
  erewrite bind_ok.
  2:{ unfold Sys.read_text. cbv [bind get_world]. rewrite Hl. reflexivity. }
  rewrite <- (for_each_map strip
                (fun line => for_each ["username"; "password"; "group"; "site"]
                               (fun cred => _get_credential_if_present line cred))).
  rewrite (credentials_text_lines u p (proj1 (plain_parts u Pu)) (proj1 (plain_parts p Pp))).
  cbn [for_each].
  erewrite bind_ok by (apply username_line; assumption).
  erewrite bind_ok by (apply password_line; assumption).
  reflexivity.
Qed.

Lemma config_file_round_trip_witness :
  let x := write_credentials (Sample.session "sftp") Sample.world in
  exists c,
    config (Sample.session "sftp") = Some c /\
    read_credentials c blank (snd x)
    = (Ok tt, set_password (PStr "pw") (set_username (PStr "bob") blank), snd x).
Proof.
  intros x.
  apply (config_file_round_trip (Sample.session "sftp") Sample.world
           (snd (fst x)) (snd x) "bob" "pw" blank); reflexivity.
Defined.

(** X18. Only what follows the last equals sign of a line is read: a
    password [a=b] written by [write_credentials] comes back from
    [read_credentials] as [b]. *)
Theorem password_with_equals_is_cut :
  forall s w s' w' u a b s2,
    write_credentials s w = (Ok tt, s', w') ->
    username s = PStr u ->
    password s = PStr (a ++ String "=" b) ->
    plain u = true ->
    all_chars not_space a = true ->
    plain b = true ->
    spells_none ["password"; "group"; "site"] u = true ->
    spells_none ["username"; "group"; "site"] (a ++ String "=" b) = true ->
    exists c,
      config s = Some c /\
      read_credentials c s2 w'
      = (Ok tt, set_password (PStr b) (set_username (PStr u) s2), w').
Proof.
  intros s w s' w' u a b s2 Hw Hu Hp Pu Sa Pb Ku Kp.
  destruct (plain_parts b Pb) as [Sb Eb].
  apply write_credentials_ok_inv in Hw. destruct Hw as (c & Hc & -> & Hl & _).
  rewrite Hu, Hp in Hl.
  exists c. split; [exact Hc|].
  unfold read_credentials.
  erewrite bind_ok.
  2:{ unfold Sys.read_text. cbv [bind get_world]. rewrite Hl. reflexivity. }
  rewrite <- (for_each_map strip
                (fun line => for_each ["username"; "password"; "group"; "site"]
                               (fun cred => _get_credential_if_present line cred))).
  rewrite (credentials_text_lines u (a ++ String "=" b) (proj1 (plain_parts u Pu))).
  2:{ rewrite all_chars_app, Sa. cbn [all_chars andb]. rewrite Sb. reflexivity. }
  cbn [for_each].
  erewrite bind_ok by (apply username_line; assumption).
  erewrite bind_ok by (apply password_line_last; assumption).
  reflexivity.
Qed.

Lemma password_with_equals_is_cut_witness :
  let s := set_password (PStr "c2VjcmV0=x9") (Sample.session "sftp") in
  let x := write_credentials s Sample.world in
  exists c,
    config s = Some c /\
    read_credentials c blank (snd x)
    = (Ok tt, set_password (PStr "x9") (set_username (PStr "bob") blank), snd x).
Proof.
  intros s x.
  apply (password_with_equals_is_cut s Sample.world (snd (fst x)) (snd x)
           "bob" "c2VjcmV0" "x9" blank); reflexivity.
Defined.

(** ** get_credentials: an existing config file *)

Lemma bind_inv {A B} (m : M A) (k : A -> M B) s w r s' w' :
  bind m k s w = (r, s', w') ->
  (exists a s1 w1, m s w = (Ok a, s1, w1) /\ k a s1 w1 = (r, s', w')) \/
  (exists e, m s w = (Raise e, s', w') /\ r = Raise e).
Proof.
  unfold bind. destruct (m s w) as [[[a|e] s1] w1]; intros H.
  - left. eauto.
  - right. injection H as <- <- <-. eauto.
Qed.

Lemma read_credentials_same_world c : kept same_world (read_credentials c).
Proof.
  unfold read_credentials, Sys.read_text.
  apply kept_bind; [apply _ | |].
  - apply kept_bind; [apply _ | apply kept_get_world; apply _ |]. intros w0.
    destruct (Sys.lookup_path c w0) as [[?|]|];
      (apply kept_ret || apply kept_raise); apply _.
  - intros text. apply kept_for_each; [apply _|]. intros line.
    apply kept_for_each; [apply _|]. intros cred.
    unfold _get_credential_if_present, setattr.
    apply kept_when; [apply _|].
    repeat (apply kept_if; try apply _);
      first [ apply kept_set_self; try apply _; intros; unfold same_world; reflexivity
            | apply kept_ret; apply _ ].
Qed.

Lemma existing_config_kept depth :
  forall save headless s w r s' w',
    String.prefix "/" (home w) = true ->
    is_Some (Sys.lookup_path (resolved_config s w) w) ->
    get_credentials depth save false headless s w = (r, s', w') ->
    w' = w /\ (forall a, r = Ok a -> config s' = Some (resolved_config s w)).
Proof.
  induction depth as [|d IH]; intros save headless s w r s' w' Hh He H.
  - injection H as <- <- <-. split; [reflexivity | discriminate].
  - cbn [get_credentials] in H.
    apply bind_inv in H. destruct H as [(u0 & s1 & w1 & Hr & H) | (e & Hr & _)];
      [|rewrite resolve_config_spec in Hr; discriminate Hr].
    rewrite resolve_config_spec in Hr. injection Hr as _ <- <-.
    set (c := resolved_config s w) in *. set (s1 := set_config (Some c) s) in *.
    apply bind_inv in H. destruct H as [(sx & s1' & w1 & Hg & H) | (e & Hg & _)];
      [|discriminate Hg].
    injection Hg as <- <- <-.
    assert (G : forall r2 s2 w2,
               when (negb (truthy (username s1)) || negb (truthy (password s1)))%bool
                 (c0 <- the_config ;;
                  present <- Sys.exists_ c0 ;;
                  if present then
                    read_credentials c0 ;;
                    _ <- get_credentials d true false false ;;
                    ret tt
                  else if headless then
                    Sys.print (missing_variables c0) ;;
                    Sys.exit 1
                  else
                    Sys.print ("Requested config not found (" ++ Pathlib.to_str c0 ++ ")."
                               ++ nl ++ "Gathering credentials...") ;;
                    request_credentials d false false) s1 w = (r2, s2, w2) ->
               w2 = w /\ (forall a, r2 = Ok a -> config s2 = Some c)).
    { intros r2 s2 w2 Hw. unfold when in Hw.
      destruct (negb (truthy (username s1)) || negb (truthy (password s1)))%bool.
      - apply bind_inv in Hw. destruct Hw as [(c0 & sx & wx & Hc & Hw) | (e & Hc & _)];
          [|discriminate Hc].
        injection Hc as <- <- <-.
        apply bind_inv in Hw. destruct Hw as [(pr & sx & wx & Hx & Hw) | (e & Hx & _)];
          [|discriminate Hx].
        apply exists_inv in Hx. destruct Hx as (-> & -> & ->).
        rewrite (bool_decide_eq_true_2 _ He) in Hw.
        apply bind_inv in Hw. destruct Hw as [(u1 & sa & wa & Hread & Hw) | (e & Hread & ->)].
        + pose proof (read_credentials_same_world c _ _ _ _ _ Hread) as Wa.
          unfold same_world in Wa. cbn [snd] in Wa. subst wa.
          pose proof (keeps_read_credentials c _ _ _ _ _ Hread) as [Ca _].
          assert (Ra : resolved_config sa w = c).
          { apply resolved_config_again; [exact Hh | rewrite Ca; reflexivity]. }
          apply bind_inv in Hw.
          destruct Hw as [(u2 & sb & wb & Hrec & Hw) | (e & Hrec & ->)].
          * apply IH in Hrec; [|exact Hh | rewrite Ra; exact He].
            destruct Hrec as [-> Hcfg]. injection Hw as <- <- <-.
            split; [reflexivity|]. intros a _. rewrite (Hcfg u2 eq_refl), Ra. reflexivity.
          * apply IH in Hrec; [|exact Hh | rewrite Ra; exact He].
            destruct Hrec as [-> _]. split; [reflexivity | discriminate].
        + pose proof (read_credentials_same_world c _ _ _ _ _ Hread) as Wa.
          split; [exact Wa | discriminate].
      - injection Hw as <- <- <-. split; [reflexivity|]. intros a _. reflexivity. }
    apply bind_inv in H. destruct H as [(u1 & s2 & w2 & Hgather & H) | (e & Hgather & ->)].
    + apply G in Hgather. destruct Hgather as [-> Hcfg]. specialize (Hcfg u1 eq_refl).
      apply bind_inv in H. destruct H as [(c0 & sx & wx & Hc & H) | (e & Hc & _)].
      2:{ unfold the_config in Hc. cbv [bind get_self] in Hc. rewrite Hcfg in Hc.
          discriminate Hc. }
      apply the_config_inv in Hc. destruct Hc as (-> & -> & Hc).
      rewrite Hcfg in Hc. injection Hc as <-.
      apply bind_inv in H. destruct H as [(pr & sx & wx & Hx & H) | (e & Hx & _)];
        [|discriminate Hx].
      apply exists_inv in Hx. destruct Hx as (-> & -> & ->).
      rewrite (bool_decide_eq_true_2 _ He) in H.
      rewrite andb_false_r in H. cbn [orb when] in H.
      cbv [bind ret get_self] in H. injection H as <- <- <-.
      split; [reflexivity|]. intros a _. exact Hcfg.
    + apply G in Hgather. destruct Hgather as [-> _]. split; [reflexivity | discriminate].
Qed.

(** X19. A config file that exists is left alone: unless [overwrite] is
    asked for, and with an absolute home directory, [get_credentials] reads
    nothing from the terminal, prints nothing and writes nothing, whether it
    returns or raises. *)
Theorem existing_config_is_left_alone :
  forall depth save headless s w r s' w',
    String.prefix "/" (home w) = true ->
    is_Some (Sys.lookup_path (resolved_config s w) w) ->
    get_credentials depth save false headless s w = (r, s', w') ->
    w' = w.
Proof.
  intros depth save headless s w r s' w' Hh He H.
  exact (proj1 (existing_config_kept depth save headless s w r s' w' Hh He H)).
Qed.

Lemma existing_config_is_left_alone_witness :
  let w := mkWorld {[ "cfg" := File "username=alice" ]} "/home/alice" "/work"
                   ["typed"] [] in
  snd (get_credentials 9 true false false
         (at_credentials PNone (PStr "pw") PNone PNone (PStr "cfg")) w) = w.
Proof.
  intros w.
  set (x := get_credentials 9 true false false
              (at_credentials PNone (PStr "pw") PNone PNone (PStr "cfg")) w).
  apply (existing_config_is_left_alone 9 true false
           (at_credentials PNone (PStr "pw") PNone PNone (PStr "cfg")) w
           (fst (fst x)) (snd (fst x)) (snd x)).
  - reflexivity.
  - eexists. vm_compute. reflexivity.
  - reflexivity.
Defined.

(** ** The first construction: ask, then save *)

(** X20. Constructing a [Scripter] with no credentials and a config path
    that is free (no ancestor of it being a regular file): the constructor
    says the config was not found, asks for the four credentials, writes the
    username and password lines to the config file, and returns an object
    holding the four typed values; five lines are read from the terminal. *)
Theorem first_construction_asks_and_saves :
  forall depth m c p0 files h wd u ok p g x rest site_type,
    let w := mkWorld files h wd (u :: ok :: p :: g :: x :: rest) [] in
    let cfg := expand_home w p0 in
    config_of c = Some p0 ->
    Sys.lookup_path cfg w = None ->
    (forall q content, In q (Pathlib.parents cfg) ->
                       Sys.lookup_path q w <> Some (File content)) ->
    lower (strip ok) <> "n" ->
    exists s w',
      new (S (S depth)) PNone PNone PNone m PNone c site_type w = (Ok tt, s, w') /\
      username s = PStr u /\ password s = PStr p /\
      group s = PStr g /\ site s = PStr x /\
      stdin w' = rest /\
      Sys.lookup_path cfg w' = Some (File (credentials_text (PStr u) (PStr p))) /\
      trace w'
      = (Print ("Requested config not found (" ++ Pathlib.to_str cfg ++ ")."
                ++ nl ++ "Gathering credentials...")
         :: dialogue u
         ++ [Print ("Writing out credentials to " ++ Pathlib.to_str cfg)])%list.
Proof.
  intros depth m c p0 files h wd u ok p g x rest site_type w cfg Ec Hl Hfree Hok.
  set (s0 := at_credentials PNone PNone PNone PNone c).
  set (s1 := set_config (Some cfg) s0).
  set (s2 := set_site (PStr x) (set_group (PStr g) (set_password (PStr p)
               (set_username (PStr u) s1)))).
  set (notice := Print ("Requested config not found (" ++ Pathlib.to_str cfg ++ ")."
                        ++ nl ++ "Gathering credentials...")).
  set (w2 := mkWorld files h wd rest ([notice] ++ dialogue u)).
  set (w3 := Sys.log (Print ("Writing out credentials to " ++ Pathlib.to_str cfg)) w2).
  destruct (write_credentials_total s2 w3 cfg) as (w' & Hw & Hf & _ & Ht & Hs).
  { reflexivity. }
  { change (Sys.lookup_path cfg w3) with (Sys.lookup_path cfg w). rewrite Hl. discriminate. }
  { intros q content Hq. change (Sys.lookup_path q w3) with (Sys.lookup_path q w).
    apply Hfree, Hq. }
  exists (finish_init m s2), w'. split; [|repeat split; assumption].
  apply new_ok with (r := (PStr u, PStr p)).
    { unfold config_of in Ec. destruct c; try exact I;
        destruct (truthy _); discriminate Ec. }
    fold s0. cbn [get_credentials].
    erewrite bind_ok by apply resolve_config_spec.
    assert (Er : resolved_config s0 w = cfg).
    { unfold resolved_config, s0, at_credentials. cbn [config set_config]. rewrite Ec.
      reflexivity. }
    rewrite Er. fold s1.
    erewrite bind_ok by reflexivity.
    change (truthy (username s1)) with false. cbn [negb orb when].
    erewrite bind_ok.
    2:{ erewrite bind_ok by reflexivity.
        erewrite bind_ok.
        2:{ unfold Sys.exists_. cbv [bind get_world ret]. rewrite Hl.
            rewrite bool_decide_eq_false_2; [reflexivity|].
            intros [y Hy]. discriminate Hy. }
        cbv iota.
        erewrite bind_ok by reflexivity.
        apply (request_dialogue depth false s1 files h wd [notice] u ok p g x rest);
          try reflexivity. exact Hok. }
    fold s2. fold w2.
    erewrite bind_ok by reflexivity.
    erewrite bind_ok.
    2:{ unfold Sys.exists_. cbv [bind get_world ret].
        change (Sys.lookup_path cfg w2) with (Sys.lookup_path cfg w). rewrite Hl.
        rewrite bool_decide_eq_false_2; [reflexivity|].
        intros [y Hy]. discriminate Hy. }
    cbn [negb andb orb when].
    erewrite bind_ok.
    2:{ erewrite bind_ok by reflexivity. exact Hw. }
    reflexivity.
Qed.

Lemma first_construction_asks_and_saves_witness :
  exists s w',
    new 2 PNone PNone PNone "sftp" PNone (PStr "~/.pooPatrol/hpc_config.txt") "hpc"
        (mkWorld ∅ "/home/bob" "/work" ["bob"; "y"; "pw"; ""; "hpc.edu"] [])
    = (Ok tt, s, w') /\
    username s = PStr "bob" /\ password s = PStr "pw" /\ site s = PStr "hpc.edu" /\
    fs w' !! "/home/bob/.pooPatrol/hpc_config.txt"
    = Some (File ("username=bob" ++ nl ++ "password=pw" ++ nl)).
Proof.
  destruct (first_construction_asks_and_saves
              0 "sftp" (PStr "~/.pooPatrol/hpc_config.txt")
              (Pathlib.of_str "~/.pooPatrol/hpc_config.txt")
              ∅ "/home/bob" "/work" "bob" "y" "pw" "" "hpc.edu" [] "hpc")
    as (s & w' & H & Hu & Hp & _ & Hs & _ & Hf & _).
  - reflexivity.
  - reflexivity.
  - intros q content _. unfold Sys.lookup_path. destruct (names q); [discriminate|].
    cbn [fs]. rewrite lookup_empty. discriminate.
  - discriminate.
  - exists s, w'. repeat split; try assumption.
Defined.
